(** * schist / scnsbm: the hierarchy post-processing layer of [inference.py]

    A shallow embedding of [src/scnsbm/inference.py]: the relabelling of the
    projected partitions, the aggregation of the level-0 vertex marginals,
    the trimming of the group marginals, the level pruner and the two
    driver functions [nested_model] and [fast_model].

    The block-model engine (graph-tool), NumPy's random generator, scanpy's
    helpers and scikit-learn's adjusted mutual information are outside the
    repository.  They appear here as the fields of an environment record
    [Env]: every call the source makes is one transition of the environment,
    which may return a value or raise. *)

From Stdlib Require Import ZArith List String Ascii Lia DecimalString DecimalNat.
From Stdlib Require Import Floats.SpecFloat.
From stdpp Require Import base option list strings gmap sorting.

Open Scope string_scope.
Open Scope list_scope.
Open Scope nat_scope.

(* ================================================================== *)
(** * Part I: definitions                                              *)
(* ================================================================== *)

(** ** Python values *)

(** A pandas label: group ids are integers before the renaming and strings
    after it. *)
Inductive label :=
| IntLabel (z : Z)
| StrLabel (s : string).

#[global] Instance label_eq_dec : EqDecision label.
Proof. solve_decision. Defined.

#[global] Instance label_countable : Countable label :=
  inj_countable'
    (λ l, match l with IntLabel z => inl z | StrLabel s => inr s end)
    (λ x, match x with inl z => IntLabel z | inr s => StrLabel s end)
    (λ l, match l with IntLabel _ => eq_refl | StrLabel _ => eq_refl end).

(** ['%s' % cn] and ['%d' % level] for a non-negative integer. *)
Definition py_str (n : nat) : string :=
  NilEmpty.string_of_uint (Nat.to_uint n).

(** IEEE doubles are carried as data; the only operation the source applies
    to one is the comparison of an AMI score with [1]. *)
Definition float := spec_float.
Definition float_one : float := S754_finite false (2 ^ 52) (-52).
Definition float_zero : float := S754_zero false.

(** Exceptions the source raises itself, or that the libraries it calls
    raise into it. *)
Inductive exn :=
| ImportError (msg : string)
| ValueError (msg : string)
| KeyError (key : string)
| IndexError (msg : string)
| TypeError (msg : string)
| NameError (name : string)
| EngineFault (code : nat).

Inductive res (A : Type) :=
| Raise (e : exn)
| Ok (a : A).
Arguments Raise {A} e.
Arguments Ok {A} a.

#[global] Instance res_ret : MRet res := λ A a, Ok a.
#[global] Instance res_bind : MBind res :=
  λ A B f m, match m with Raise e => Raise e | Ok a => f a end.
#[global] Instance res_fmap : FMap res :=
  λ A B f m, match m with Raise e => Raise e | Ok a => Ok (f a) end.

Definition is_raise {A} (r : res A) : bool :=
  match r with Raise _ => true | Ok _ => false end.

(** [np.where(mask)[0]]: the positions, in increasing order, at which the
    test holds. *)
Fixpoint where_from {A} (p : A → bool) (i : nat) (l : list A) : list nat :=
  match l with
  | [] => []
  | v :: t => if p v then i :: where_from p (S i) t else where_from p (S i) t
  end.

Definition np_where {A} (p : A → bool) (l : list A) : list nat :=
  where_from p 0 l.

(** [np.max] of a one-dimensional array; NumPy refuses the empty array. *)
Definition np_max (l : list nat) : res nat :=
  match l with
  | [] => Raise (ValueError
            "zero-size array to reduction operation maximum which has no identity")
  | x :: t => Ok (foldl Nat.max x t)
  end.

(** A two-dimensional integer array: [ncols] is [shape[1]], [rows] has
    [shape[0]] entries. *)
Record ndarray := { ncols : nat; rows : list (list Z) }.

Definition nrows (a : ndarray) : nat := length (rows a).

(** ** pandas categoricals *)

(** A pandas [Categorical]: the value of entry [n] is
    [categories[codes[n]]]. *)
Record Categorical := { codes : list nat; categories : list label }.

Definition cat_values (c : Categorical) : list (option label) :=
  (λ k, categories c !! k) <$> codes c.

(** The distinct values of an integer column in ascending order, as
    [astype('category')] computes the categories of an orderable column. *)
Fixpoint insert_sorted (x : Z) (l : list Z) : list Z :=
  match l with
  | [] => [x]
  | y :: t =>
      if (x <? y)%Z then x :: l
      else if (x =? y)%Z then l
      else y :: insert_sorted x t
  end.

Definition np_unique (col : list Z) : list Z := foldr insert_sorted [] col.

Fixpoint index_of (x : Z) (l : list Z) : nat :=
  match l with
  | [] => 0
  | y :: t => if (x =? y)%Z then 0 else S (index_of x t)
  end.

(** [pd.DataFrame(groups).astype('category')], one column. *)
Definition astype_category (col : list Z) : Categorical :=
  {| codes := (λ v, index_of v (np_unique col)) <$> col;
     categories := IntLabel <$> np_unique col |}.

(** [dict(pairs)]: later pairs override earlier ones. *)
Definition py_dict (pairs : list (label * string)) : gmap label string :=
  foldl (λ d kv, <[kv.1 := kv.2]> d) ∅ pairs.

(** [dict([(cx, u'%s' % cn) for cn, cx in enumerate(cat.categories)])] *)
Definition new_cat_names (c : Categorical) : gmap label string :=
  py_dict (imap (λ cn cx, (cx, py_str cn)) (categories c)).

(** [cat.rename_categories(d, inplace=True)]: a category missing from the
    mapping keeps its name; the codes are untouched. *)
Definition rename_categories (d : gmap label string) (c : Categorical)
  : Categorical :=
  {| codes := codes c;
     categories := (λ cx, match d !! cx with
                          | Some s => StrLabel s
                          | None => cx
                          end) <$> categories c |}.

(** Lines 278-283 (and 625-630): every column becomes a categorical whose
    categories are renamed ['0'], ['1'], ... in category order. *)
Definition relabel_column (col : list Z) : Categorical :=
  let c := astype_category col in
  rename_categories (new_cat_names c) c.

Definition relabel (raw : list (list Z)) : list Categorical :=
  relabel_column <$> raw.

(** Entry [(n, l)] of the raw table, and of the table after the renaming. *)
Definition raw_id (raw : list (list Z)) (l n : nat) : option Z :=
  raw !! l ≫= λ col, col !! n.

Definition table_label (raw : list (list Z)) (l n : nat) : option label :=
  relabel raw !! l ≫= λ c, mjoin (cat_values c !! n).

(** [B_l]: the number of distinct raw ids of level [l]. *)
Definition n_groups (raw : list (list Z)) (l : nat) : nat :=
  match raw !! l with
  | Some col => length (remove_dups col)
  | None => 0
  end.

(** The rule the specification words: the rank of the first occurrence of a
    raw id when the nodes are scanned in index order.  Used only to compare
    with [relabel_column]. *)
Fixpoint first_seen (seen : list Z) (col : list Z) : list Z :=
  match col with
  | [] => seen
  | v :: t => if bool_decide (v ∈ seen) then first_seen seen t
              else first_seen (seen ++ [v]) t
  end.

Definition first_occurrence_rank (col : list Z) (v : Z) : nat :=
  index_of v (first_seen [] col).

Definition first_occurrence_label (col : list Z) (n : nat) : option label :=
  (λ v, StrLabel (py_str (first_occurrence_rank col v))) <$> col !! n.

(** ** Data frames *)

(** A data frame by columns, in column order; pandas allows a name to occur
    more than once. *)
Abbreviation DataFrame := (list (string * Categorical)).

Definition df_columns (df : DataFrame) : list string := df.*1.

(** [df.iloc[:, x]] as the values of the column. *)
Definition df_iloc (df : DataFrame) (x : nat) : list (option label) :=
  match df !! x with
  | Some (_, c) => cat_values c
  | None => []
  end.

(** [df.loc[:, name]] for a name that occurs once. *)
Definition df_loc (df : DataFrame) (name : string) : res Categorical :=
  match filter (λ c, c.1 = name) df with
  | [(_, c)] => Ok c
  | [] => Raise (KeyError name)
  | _ => Raise (TypeError "a frame where a column was expected")
  end.

(** [df.loc[:, keys]]: every key selects all the columns that carry it. *)
Definition df_loc_list (df : DataFrame) (keys : list string) : DataFrame :=
  keys ≫= (λ k, filter (λ c, c.1 = k) df).

(** [df.drop(labels, axis='columns')]: a label without a column is an
    error. *)
Definition df_drop (df : DataFrame) (labels : list string) : res DataFrame :=
  match filter (λ l, l ∉ df_columns df) labels with
  | [] => Ok (filter (λ c, c.1 ∉ labels) df)
  | l :: _ => Raise (KeyError l)
  end.

(** ** Marginal aggregation (lines 348-356 and 689-697) *)

Definition observed (cs : list nat) (ncat : nat) : list nat :=
  filter (λ i, i ∈ cs) (seq 0 ncat).

(** [pd.crosstab(a, b)]: one row per category of [a] that occurs, one
    column per category of [b] that occurs, both in category order; the
    entries count the nodes. *)
Definition crosstab (a b : Categorical) : ndarray :=
  let pairs := zip (codes a) (codes b) in
  let rs := observed pairs.*1 (length (categories a)) in
  let cs := observed pairs.*2 (length (categories b)) in
  {| ncols := length cs;
     rows := (λ i, (λ j, Z.of_nat (length (filter (λ p, p = (i, j)) pairs)))
                     <$> cs) <$> rs |}.

(** [a.iloc[:, x]] of a table of numbers. *)
Definition iloc_col (a : ndarray) (x : nat) : list Z :=
  (λ r, nth x r 0%Z) <$> rows a.

(** [a[:, idx]] with an integer index array. *)
Definition take_columns (a : ndarray) (idx : list nat) : res ndarray :=
  if forallb (λ i, (i <? ncols a)%nat) idx
  then Ok {| ncols := length idx;
             rows := (λ r, (λ i, nth i r 0%Z) <$> idx) <$> rows a |}
  else Raise (IndexError "index is out of bounds for axis 1").

Definition sum_axis1 (a : ndarray) : list Z :=
  (λ r, foldr Z.add 0%Z r) <$> rows a.

(** The column [cl[:, x]] of line 355. *)
Definition derived_column (c0 cross_tab : ndarray) (x : nat) : res (list Z) :=
  sum_axis1 <$>
    take_columns c0 (np_where (λ v, (0 <? v)%Z) (iloc_col cross_tab x)).

(** The body of the loop of lines 349-356 for one level. *)
Definition derive_level (c0 : ndarray) (l0 level : Categorical) : res ndarray :=
  let cross_tab := crosstab l0 level in
  columns ← mapM (derived_column c0 cross_tab) (seq 0 (ncols cross_tab));
  Ok {| ncols := ncols cross_tab;
        rows := (λ n, (λ col, nth n col 0%Z) <$> columns) <$> seq 0 (nrows c0) |}.

(** Entry [a[n, x]]. *)
Definition cell (a : ndarray) (n x : nat) : option Z :=
  rows a !! n ≫= λ r, r !! x.

(** The level-0 group [g0] and the level-[l] group [gl] share a node. *)
Definition cooccur (raw : list (list Z)) (l g0 gl : nat) : Prop :=
  ∃ m, table_label raw 0 m = Some (StrLabel (py_str g0))
       ∧ table_label raw l m = Some (StrLabel (py_str gl)).

(** [a.T] *)
Definition transpose (a : ndarray) : ndarray :=
  {| ncols := nrows a;
     rows := (λ j, (λ r, nth j r 0%Z) <$> rows a) <$> seq 0 (ncols a) |}.

(** ** Group-marginal trimming (lines 362-365 and 703-706) *)

Definition trim_level_marginals (level_marginals : list Z) : res (list Z) :=
  let idx := S <$> np_where (λ v, (0 <? v)%Z) level_marginals in
  m ← np_max idx;
  Ok (take m level_marginals).

(** The callback's update [group_marginals[l][B] += 1]. *)
Definition bump (gm : list (list Z)) (l B : nat) : res (list (list Z)) :=
  match gm !! l with
  | None => Raise (IndexError "list index out of range")
  | Some v =>
      match v !! B with
      | None => Raise (IndexError "index is out of bounds for axis 0")
      | Some c => Ok (<[l := <[B := (c + 1)%Z]> v]> gm)
      end
  end.

(** One invocation of [_collect_marginals], lines 247-249: [Bs] lists
    [sl.get_nonempty_B()] over the levels of the state handed in. *)
Definition collect_callback (gm : list (list Z)) (Bs : list nat)
  : res (list (list Z)) :=
  foldl (λ acc lB, gm' ← acc; bump gm' lB.1 lB.2) (Ok gm) (imap pair Bs).

(** ** Hierarchy padding (lines 210-215) *)

Definition pad_bs (bs : list (list Z)) (hierarchy_length : Z) : list (list Z) :=
  if (Z.of_nat (length bs) <? hierarchy_length)%Z
  then (bs ++ replicate
               (Z.to_nat (hierarchy_length - Z.of_nat (length bs))) [0%Z])%list
  else bs.

(** [[np.zeros(1)] * hierarchy_length] of the fast path (line 562). *)
Definition singleton_bs (hierarchy_length : Z) : list (list Z) :=
  replicate (Z.to_nat hierarchy_length) [0%Z].

(** ** Level pruner (lines 14-28) *)

Section Pruner.
(** [sklearn.metrics.adjusted_mutual_info_score] *)
Variable ami : list (option label) → list (option label) → float.

Definition mi_groups (groups : DataFrame) : list float :=
  (λ x, ami (df_iloc groups (x - 1)) (df_iloc groups x))
    <$> seq 1 (length groups - 1).

(** [np.where(mi_groups != 1)] and [np.where(mi_groups == 1)] *)
Definition pruned_positions (groups : DataFrame) (inverse : bool) : list nat :=
  if inverse
  then np_where (λ s, negb (SFeqb s float_one)) (mi_groups groups)
  else np_where (λ s, SFeqb s float_one) (mi_groups groups).

(** [groups.columns[...]] at those positions. *)
Definition prune_groups (groups : DataFrame) (inverse : bool) : list string :=
  omap (λ i, df_columns groups !! i) (pruned_positions groups inverse).
End Pruner.

(** Two columns of the same nodes group them identically. *)
Definition same_grouping (a b : list (option label)) : bool :=
  bool_decide (length a = length b) &&
  forallb (λ p, forallb (λ q,
      bool_decide ((p.1 = q.1) ↔ (p.2 = q.2))) (zip a b)) (zip a b).

(** A stand-in for the score, for closed examples: [1.0] when the two
    columns group the nodes identically, [0.0] otherwise. *)
Definition ami_exact (a b : list (option label)) : float :=
  if same_grouping a b then float_one else float_zero.

(** ** Output columns (lines 291-302 and 638-649) *)

Definition level_prefix (key_added : string) : string :=
  key_added +:+ "_level_".

Definition level_name (key_added : string) (level : nat) : string :=
  level_prefix key_added +:+ py_str level.

(** [groups.columns = ["%s_level_%d" % (key_added, level) for level in ...]] *)
Definition name_levels (key_added : string) (cols : list Categorical)
  : DataFrame :=
  imap (λ level c, (level_name key_added level, c)) cols.

(** Lines 348-355 for the column [level]: both columns are read by name. *)
Definition level_marginals (key_added : string) (c0 : ndarray)
    (groups : DataFrame) (level : string) : res ndarray :=
  a ← df_loc groups (level_name key_added 0);
  b ← df_loc groups level;
  derive_level c0 a b.

Definition startswith (x pre : string) : bool := String.prefix pre x.

Definition keep_columns (key_added : string) (obs : DataFrame) : list string :=
  filter (λ x, startswith x (level_prefix key_added) = false) (df_columns obs).

(** The columns of a frame whose name starts with the level prefix. *)
Definition level_columns (key_added : string) (df : DataFrame) : DataFrame :=
  filter (λ c, startswith c.1 (level_prefix key_added) = true) df.

(** The columns attached: all of [groups], or [groups.iloc[:, 1:]]. *)
Definition attached (return_low : bool) (groups : DataFrame) : DataFrame :=
  if return_low then groups else drop 1 groups.

(** Lines 294-302: drop the old level columns, attach the new ones. *)
Definition finalize_obs (key_added : string) (return_low : bool)
    (groups obs : DataFrame) : DataFrame :=
  (df_loc_list obs (keep_columns key_added obs)
     ++ attached return_low groups)%list.

(** ** The annotated data container and the parameters *)

Record spmatrix := { sp_shape : nat * nat; sp_data : list (nat * nat * float) }.

Record Graph :=
  { num_vertices : nat; is_directed : bool; edge_list : list (nat * nat * float) }.

Inductive stat_value :=
| StatFloat (x : float)
| StatInt (n : Z)
| StatArray (xs : list float).

Inductive param_value :=
| ParamInt (n : Z)
| ParamFloat (x : float)
| ParamBool (b : bool).

(** The engine's state object, kept by reference. *)
Inductive state_ref := NestedBlockStateRef.

(** The dictionary [adata.uns['nsbm']]; an absent key is [None]. *)
Record nsbm_entry := {
  nsbm_stats : option (gmap string stat_value);
  nsbm_state : option state_ref;
  nsbm_cell_marginals : option (gmap nat ndarray);
  nsbm_group_marginals : option (list (list Z));
  nsbm_params : option (gmap string param_value) }.

Definition nsbm_empty : nsbm_entry :=
  {| nsbm_stats := None; nsbm_state := None; nsbm_cell_marginals := None;
     nsbm_group_marginals := None; nsbm_params := None |}.

Inductive uns_value :=
| UnsNeighbors (d : gmap string spmatrix)
| UnsNsbm (d : nsbm_entry)
| UnsOther (tag : Z).

Record AnnData :=
  { obs : DataFrame; obs_names : list string; uns : gmap string uns_value }.

(** The keyword arguments of [nested_model]; [fast_model] takes the same
    ones except [sweep_iterations] and [equilibrate], which it ignores. *)
Record Kwargs := {
  sweep_iterations : Z;
  max_iterations : Z;
  epsilon : float;
  equilibrate : bool;
  wait : Z;
  nbreaks : Z;
  collect_marginals : bool;
  niter_collect : Z;
  hierarchy_length : Z;
  deg_corr : bool;
  multiflip : bool;
  restrict_to : option (string * list string);
  random_seed : option Z;
  key_added : string;
  adjacency : option spmatrix;
  directed : bool;
  use_weights : bool;
  save_state : bool;
  prune : bool;
  return_low : bool;
  copy : bool }.

Definition with_random_seed (p : Kwargs) (seed : option Z) : Kwargs :=
  {| sweep_iterations := sweep_iterations p; max_iterations := max_iterations p;
     epsilon := epsilon p; equilibrate := equilibrate p; wait := wait p;
     nbreaks := nbreaks p; collect_marginals := collect_marginals p;
     niter_collect := niter_collect p; hierarchy_length := hierarchy_length p;
     deg_corr := deg_corr p; multiflip := multiflip p;
     restrict_to := restrict_to p; random_seed := seed;
     key_added := key_added p; adjacency := adjacency p;
     directed := directed p; use_weights := use_weights p;
     save_state := save_state p; prune := prune p;
     return_low := return_low p; copy := copy p |}.

(** ** The environment *)

(** [(dS, nattempts, nmoves)] *)
Definition sweep_result : Type := float * Z * Z.

Record equilibrate_args := {
  eq_wait : Z;
  eq_nbreaks : Z;
  eq_epsilon : float;
  eq_max_niter : Z;
  eq_multiflip : bool;
  eq_force_niter : option Z }.

(** The calls that leave the module, as the trace of a run records them. *)
Inductive event :=
| EvImport
| EvNpSeed (seed : Z)
| EvGtSeed (seed : Z)
| EvRestrictAdjacency
| EvBuildGraph
| EvMinimize
| EvNestedBlockState
| EvStateCopy
| EvSweep (multi : bool)
| EvEquilibrate (collecting : bool)
| EvGetLevels
| EvProject (level : nat)
| EvLevelEntropy (level : nat)
| EvModularity (level : nat)
| EvMfEntropy (level : nat)
| EvNonemptyB (level : nat)
| EvGet2dArray.

#[global] Instance event_eq_dec : EqDecision event.
Proof. solve_decision. Defined.

(** Graph construction, minimisation and sampling: the engine calls proper. *)
Definition is_engine_call (ev : event) : bool :=
  match ev with
  | EvBuildGraph | EvMinimize | EvNestedBlockState | EvStateCopy
  | EvSweep _ | EvEquilibrate _ => true
  | _ => false
  end.

Definition is_seeding (ev : event) : bool :=
  match ev with
  | EvNpSeed _ | EvGtSeed _ => true
  | _ => false
  end.

(** One field per outside call of the source.  [world] is everything the
    module does not own: the generators' states, the engine's state object
    and the module-level [cell_marginals] that the callback keeps. *)
Record Env := {
  world : Type;
  (** [import graph_tool.all as gt] *)
  import_graph_tool : world → res unit * world;
  (** [np.random.seed(seed)] *)
  np_random_seed : Z → world → res unit * world;
  (** [gt.seed_rng(seed)] *)
  gt_seed_rng : Z → world → res unit * world;
  (** scanpy's [restrict_adjacency(adata, key, categories, adjacency)] *)
  restrict_adjacency :
    AnnData → string → list string → spmatrix →
    world → res (spmatrix * list nat) * world;
  (** [get_graph_tool_from_adjacency(adjacency, directed=directed)] *)
  get_graph_tool_from_adjacency : spmatrix → bool → world → res Graph * world;
  (** [gt.minimize_nested_blockmodel_dl(g, deg_corr=.., [state_args])]
      followed by [state.get_bs()]; the second flag is [use_weights]. *)
  minimize_nested_blockmodel_dl :
    Graph → bool → bool → world → res (list (list Z)) * world;
  (** [gt.NestedBlockState(g, bs, state_args, sampling=True)]: the degree
      correction when [state_args] names it, and whether it has [recs]. *)
  nested_block_state :
    Graph → list (list Z) → option bool → bool → world → res unit * world;
  (** [state.copy(bs=bs, sampling=True)] *)
  state_copy : list (list Z) → world → res unit * world;
  (** [state.multiflip_mcmc_sweep(niter=..)] and [state.mcmc_sweep(niter=..)] *)
  multiflip_mcmc_sweep : Z → world → res sweep_result * world;
  mcmc_sweep : Z → world → res sweep_result * world;
  (** [gt.mcmc_equilibrate(state, ..)] without a callback *)
  mcmc_equilibrate : equilibrate_args → world → res sweep_result * world;
  (** [gt.mcmc_equilibrate(state, .., callback=_collect_marginals)]: for
      each invocation of the callback the values [sl.get_nonempty_B()] of
      the levels it is handed, then the result.  Lines 253-260 of the
      callback, which only touch the engine and the module-level
      [cell_marginals], are part of this transition. *)
  mcmc_equilibrate_callback :
    equilibrate_args → world → list (list nat) * (res sweep_result * world);
  (** [len(state.get_levels())], [len(state.levels)] *)
  get_levels_len : world → res nat * world;
  (** [state.project_partition(x, 0).get_array()] *)
  project_partition : nat → world → res (list Z) * world;
  (** [state.level_entropy(x)] *)
  level_entropy : nat → world → res float * world;
  (** [gt.modularity(g, state.project_partition(x, 0))] *)
  modularity : Graph → nat → world → res float * world;
  (** [gt.mf_entropy(sl.g, cell_marginals[l])] *)
  mf_entropy : nat → world → res float * world;
  (** [state.get_levels()[l].get_nonempty_B()] *)
  get_nonempty_B : nat → world → res nat * world;
  (** [cell_marginals[0].get_2d_array(range(n))] *)
  get_2d_array : nat → world → res ndarray * world;
  (** [sklearn.metrics.adjusted_mutual_info_score] *)
  adjusted_mutual_info_score :
    list (option label) → list (option label) → float }.

(** ** The drivers *)

Section Drivers.
Variable E : Env.

(** The state of a run: the outside world, the calls made so far, and the
    container the run works on. *)
Record st := { ext : world E; trace : list event; adata : AnnData }.

(** A step either returns or raises; the state it leaves is kept in both
    cases, as a Python exception keeps the mutations made before it. *)
Definition M (A : Type) : Type := st → res A * st.

#[global] Instance M_ret : MRet M := λ A a s, (Ok a, s).
#[global] Instance M_bind : MBind M :=
  λ A B k m s, match m s with
               | (Ok a, s') => k a s'
               | (Raise e, s') => (Raise e, s')
               end.

Definition raise {A} (e : exn) : M A := λ s, (Raise e, s).

Definition lift {A} (r : res A) : M A := λ s, (r, s).

Definition call {A} (ev : event) (f : world E → res A * world E) : M A :=
  λ s, let '(r, w) := f (ext s) in
       (r, {| ext := w; trace := trace s ++ [ev]; adata := adata s |}).

Definition get_adata : M AnnData := λ s, (Ok (adata s), s).

Definition put_adata (a : AnnData) : M unit :=
  λ s, (Ok tt, {| ext := ext s; trace := trace s; adata := a |}).

Fixpoint for_each {A} (f : A → M unit) (l : list A) : M unit :=
  match l with
  | [] => mret tt
  | x :: t => f x;; for_each f t
  end.

Fixpoint collect {A B} (f : A → M B) (l : list A) : M (list B) :=
  match l with
  | [] => mret []
  | x :: t => y ← f x; ys ← collect f t; mret (y :: ys)
  end.

(** *** Lines 155-169 and 523-537: import and seeding *)

Definition import_gt : M unit := call EvImport (import_graph_tool E).

(** [if random_seed:] is false for [None] and for [0]. *)
Definition seed_rngs (seed : option Z) : M unit :=
  match seed with
  | Some s =>
      if (s =? 0)%Z then mret tt
      else call (EvNpSeed s) (np_random_seed E s);;
           call (EvGtSeed s) (gt_seed_rng E s)
  | None => mret tt
  end.

(** *** Lines 171-178: marginals need the equilibration *)

Definition marginals_message : string :=
  "You can't collect marginals without MCMC equilibrate step. Either set `equlibrate` to `True` or `collect_marginals` to `False`".

Definition check_marginals (p : Kwargs) : M unit :=
  if collect_marginals p then
    if negb (equilibrate p) then raise (ValueError marginals_message)
    else mret tt
  else mret tt.

(** *** Lines 183-199 and 545-561: the graph *)

Definition neighbors_message : string :=
  "You need to run `pp.neighbors` first to compute a neighborhood graph.".

Definition choose_adjacency (p : Kwargs) : M spmatrix :=
  match adjacency p with
  | Some a => mret a
  | None =>
      a ← get_adata;
      match uns a !! "neighbors" with
      | None => raise (ValueError neighbors_message)
      | Some (UnsNeighbors d) =>
          match d !! "connectivities" with
          | Some m => mret m
          | None => raise (KeyError "connectivities")
          end
      | Some _ => raise (TypeError "object is not subscriptable")
      end
  end.

Definition restrict (p : Kwargs) (adj : spmatrix) : M spmatrix :=
  match restrict_to p with
  | Some (restrict_key, restrict_categories) =>
      a ← get_adata;
      r ← call EvRestrictAdjacency
             (restrict_adjacency E a restrict_key restrict_categories adj);
      mret r.1
  | None => mret adj
  end.

Definition build_graph (p : Kwargs) : M Graph :=
  adj ← choose_adjacency p;
  adj ← restrict p adj;
  call EvBuildGraph (get_graph_tool_from_adjacency E adj (directed p)).

(** *** Equilibration and the collection of marginals *)

Definition equilibrate_call (p : Kwargs) : M sweep_result :=
  call (EvEquilibrate false)
    (mcmc_equilibrate E
       {| eq_wait := wait p; eq_nbreaks := nbreaks p; eq_epsilon := epsilon p;
          eq_max_niter := max_iterations p; eq_multiflip := multiflip p;
          eq_force_niter := None |}).

(** Lines 262-265 and 609-612: the equilibration that invokes the callback
    on the accumulators. *)
Definition equilibrate_collecting (p : Kwargs) (group_marginals : list (list Z))
  : M (list (list Z)) :=
  λ s,
    let '(invocations, (r, w)) :=
      mcmc_equilibrate_callback E
        {| eq_wait := wait p; eq_nbreaks := nbreaks p; eq_epsilon := epsilon p;
           eq_max_niter := max_iterations p; eq_multiflip := false;
           eq_force_niter := Some (niter_collect p) |} (ext s) in
    let s' := {| ext := w; trace := trace s ++ [EvEquilibrate true];
                 adata := adata s |} in
    match foldl (λ acc Bs, gm ← acc; collect_callback gm Bs)
                (Ok group_marginals) invocations with
    | Raise e => (Raise e, s')
    | Ok gm => match r with
               | Raise e => (Raise e, s')
               | Ok _ => (Ok gm, s')
               end
    end.

(** Lines 245-266 and 592-613: fresh accumulators of [N + 1] zeros per
    level, then the collection. *)
Definition collect_group_marginals (p : Kwargs) (g : Graph)
  : M (list (list Z)) :=
  nlev ← call EvGetLevels (get_levels_len E);
  equilibrate_collecting p
    (replicate nlev (replicate (num_vertices g + 1) 0%Z)).

(** *** Lines 270-291 and 617-638: the label table *)

(** [groups[:, x] = array]: the array has [N] entries, or one entry that is
    broadcast. *)
Definition assign_column (N : nat) (a : list Z) : res (list Z) :=
  if bool_decide (length a = N) then Ok a
  else match a with
       | [v] => Ok (replicate N v)
       | _ => Raise (ValueError "could not broadcast input array")
       end.

Definition project_groups (g : Graph) (bs : list (list Z))
  : M (list (list Z)) :=
  collect (λ x, a ← call (EvProject x) (project_partition E x);
                lift (assign_column (num_vertices g) a))
          (seq 0 (length bs)).

(** [groups.index = ...]: the new index must have one entry per row. *)
Definition set_index (p : Kwargs) (g : Graph) : M unit :=
  a ← get_adata;
  match restrict_to p with
  | Some (restrict_key, _) =>
      if bool_decide (restrict_key ∈ df_columns (obs a)) then mret tt
      else raise (KeyError restrict_key)
  | None => mret tt
  end;;
  if bool_decide (length (obs_names a) = num_vertices g) then mret tt
  else raise (ValueError "Length mismatch").

Definition label_table (p : Kwargs) (g : Graph) (bs : list (list Z))
  : M DataFrame :=
  raw ← project_groups g bs;
  set_index p g;;
  mret (name_levels (key_added p) (relabel raw)).

(** *** Lines 199-266: minimise, sweep, equilibrate *)

(** The locals the write-out reads; a local that was never bound is
    [None]. *)
Record fitted := {
  f_graph : Graph;
  f_bs : list (list Z);
  f_sweep : option sweep_result;
  f_equilibrate : option sweep_result;
  f_group_marginals : option (list (list Z)) }.

Definition from_local {A} (name : string) (v : option A) : M A :=
  match v with
  | Some a => mret a
  | None => raise (NameError name)
  end.

Definition sweep_call (p : Kwargs) : M sweep_result :=
  if multiflip p
  then call (EvSweep true) (multiflip_mcmc_sweep E (sweep_iterations p))
  else call (EvSweep false) (mcmc_sweep E (sweep_iterations p)).

Definition nested_sample (p : Kwargs) : M fitted :=
  g ← build_graph p;
  bs0 ← call EvMinimize
          (minimize_nested_blockmodel_dl E g (deg_corr p) (use_weights p));
  let bs := pad_bs bs0 (hierarchy_length p) in
  (if use_weights p
   then call EvNestedBlockState (nested_block_state E g bs None true)
   else call EvStateCopy (state_copy E bs));;
  sw ← sweep_call p;
  if equilibrate p then
    eq ← equilibrate_call p;
    if collect_marginals p then
      gm ← collect_group_marginals p g;
      mret {| f_graph := g; f_bs := bs; f_sweep := Some sw;
              f_equilibrate := Some eq; f_group_marginals := Some gm |}
    else
      mret {| f_graph := g; f_bs := bs; f_sweep := Some sw;
              f_equilibrate := Some eq; f_group_marginals := None |}
  else
    mret {| f_graph := g; f_bs := bs; f_sweep := Some sw;
            f_equilibrate := None; f_group_marginals := None |}.

(** Lines 155-291 of [nested_model]: everything up to the label table. *)
Definition nested_prepare (p : Kwargs) : M (fitted * DataFrame) :=
  import_gt;;
  seed_rngs (random_seed p);;
  check_marginals p;;
  f ← nested_sample p;
  groups ← label_table p (f_graph f) (f_bs f);
  mret (f, groups).

(** *** Lines 561-613 of [fast_model] *)

Definition fast_sample (p : Kwargs) : M fitted :=
  g ← build_graph p;
  let bs := singleton_bs (hierarchy_length p) in
  call EvNestedBlockState
    (nested_block_state E g bs (Some (deg_corr p)) (use_weights p));;
  eq ← equilibrate_call p;
  if collect_marginals p then
    gm ← collect_group_marginals p g;
    mret {| f_graph := g; f_bs := bs; f_sweep := None;
            f_equilibrate := Some eq; f_group_marginals := Some gm |}
  else
    mret {| f_graph := g; f_bs := bs; f_sweep := None;
            f_equilibrate := Some eq; f_group_marginals := None |}.

(** Lines 523-638 of [fast_model]. *)
Definition fast_prepare (p : Kwargs) : M (fitted * DataFrame) :=
  import_gt;;
  seed_rngs (random_seed p);;
  f ← fast_sample p;
  groups ← label_table p (f_graph f) (f_bs f);
  mret (f, groups).

(** *** Lines 293-398 and 640-737: the write-out *)

Definition set_obs (a : AnnData) (o : DataFrame) : AnnData :=
  {| obs := o; obs_names := obs_names a; uns := uns a |}.

Definition set_uns (a : AnnData) (u : gmap string uns_value) : AnnData :=
  {| obs := obs a; obs_names := obs_names a; uns := u |}.

(** Lines 294-302. *)
Definition write_obs (p : Kwargs) (groups : DataFrame) : M unit :=
  a ← get_adata;
  put_adata
    (set_obs a (finalize_obs (key_added p) (return_low p) groups (obs a))).

(** [adata.uns['nsbm'] = {}] *)
Definition reset_nsbm : M unit :=
  a ← get_adata;
  put_adata (set_uns a (<["nsbm" := UnsNsbm nsbm_empty]> (uns a))).

(** An update of the dictionary [adata.uns['nsbm']]. *)
Definition modify_nsbm (f : nsbm_entry → res nsbm_entry) : M unit :=
  a ← get_adata;
  match uns a !! "nsbm" with
  | Some (UnsNsbm d) =>
      d' ← lift (f d);
      put_adata (set_uns a (<["nsbm" := UnsNsbm d']> (uns a)))
  | Some _ => raise (TypeError "object does not support item assignment")
  | None => raise (KeyError "nsbm")
  end.

Definition set_stats (v : gmap string stat_value) (d : nsbm_entry)
  : res nsbm_entry :=
  Ok {| nsbm_stats := Some v; nsbm_state := nsbm_state d;
        nsbm_cell_marginals := nsbm_cell_marginals d;
        nsbm_group_marginals := nsbm_group_marginals d;
        nsbm_params := nsbm_params d |}.

Definition update_stats (f : gmap string stat_value → gmap string stat_value)
    (d : nsbm_entry) : res nsbm_entry :=
  match nsbm_stats d with
  | Some v => set_stats (f v) d
  | None => Raise (KeyError "stats")
  end.

Definition set_state (d : nsbm_entry) : res nsbm_entry :=
  Ok {| nsbm_stats := nsbm_stats d; nsbm_state := Some NestedBlockStateRef;
        nsbm_cell_marginals := nsbm_cell_marginals d;
        nsbm_group_marginals := nsbm_group_marginals d;
        nsbm_params := nsbm_params d |}.

Definition set_cell_marginals (v : gmap nat ndarray) (d : nsbm_entry)
  : res nsbm_entry :=
  Ok {| nsbm_stats := nsbm_stats d; nsbm_state := nsbm_state d;
        nsbm_cell_marginals := Some v;
        nsbm_group_marginals := nsbm_group_marginals d;
        nsbm_params := nsbm_params d |}.

Definition put_cell_marginals (level : nat) (m : ndarray) (d : nsbm_entry)
  : res nsbm_entry :=
  match nsbm_cell_marginals d with
  | Some v => set_cell_marginals (<[level := m]> v) d
  | None => Raise (KeyError "cell_marginals")
  end.

Definition set_group_marginals (v : list (list Z)) (d : nsbm_entry)
  : res nsbm_entry :=
  Ok {| nsbm_stats := nsbm_stats d; nsbm_state := nsbm_state d;
        nsbm_cell_marginals := nsbm_cell_marginals d;
        nsbm_group_marginals := Some v;
        nsbm_params := nsbm_params d |}.

Definition append_group_marginals (t : list Z) (d : nsbm_entry)
  : res nsbm_entry :=
  match nsbm_group_marginals d with
  | Some v => set_group_marginals (v ++ [t])%list d
  | None => Raise (KeyError "group_marginals")
  end.

Definition set_params (v : gmap string param_value) (d : nsbm_entry)
  : res nsbm_entry :=
  Ok {| nsbm_stats := nsbm_stats d; nsbm_state := nsbm_state d;
        nsbm_cell_marginals := nsbm_cell_marginals d;
        nsbm_group_marginals := nsbm_group_marginals d;
        nsbm_params := Some v |}.

(** The two arrays of lines 311-313. *)
Definition level_stats (g : Graph) : M (list float * list float) :=
  n ← call EvGetLevels (get_levels_len E);
  le ← collect (λ x, call (EvLevelEntropy x) (level_entropy E x)) (seq 0 n);
  n' ← call EvGetLevels (get_levels_len E);
  md ← collect (λ x, call (EvModularity x) (modularity E g x)) (seq 0 n');
  mret (le, md).

(** Lines 324-327. *)
Definition write_mf_entropy : M unit :=
  n ← call EvGetLevels (get_levels_len E);
  mf ← collect (λ l, call (EvMfEntropy l) (mf_entropy E l)) (seq 0 n);
  modify_nsbm (update_stats (<["mf_entropy" := StatArray mf]>)).

(** Lines 306-327 of [nested_model]. *)
Definition nested_stats (p : Kwargs) (f : fitted) : M unit :=
  reset_nsbm;;
  sw ← from_local "s_dS" (f_sweep f);
  ls ← level_stats (f_graph f);
  modify_nsbm (set_stats (list_to_map
    [("sweep_dS", StatFloat sw.1.1); ("sweep_nattempts", StatInt sw.1.2);
     ("sweep_nmoves", StatInt sw.2); ("level_entropy", StatArray ls.1);
     ("modularity", StatArray ls.2)]));;
  if equilibrate p then
    eq ← from_local "e_dS" (f_equilibrate f);
    modify_nsbm (update_stats (λ d,
      <["equlibrate_nmoves" := StatInt eq.2]>
        (<["equlibrate_nattempts" := StatInt eq.1.2]>
           (<["equlibrate_dS" := StatFloat eq.1.1]> d))));;
    if collect_marginals p then write_mf_entropy else mret tt
  else mret tt.

(** Lines 653-668 of [fast_model]. *)
Definition fast_stats (p : Kwargs) (f : fitted) : M unit :=
  reset_nsbm;;
  eq ← from_local "e_dS" (f_equilibrate f);
  ls ← level_stats (f_graph f);
  modify_nsbm (set_stats (list_to_map
    [("dS", StatFloat eq.1.1); ("nattempts", StatInt eq.1.2);
     ("nmoves", StatInt eq.2); ("level_entropy", StatArray ls.1);
     ("modularity", StatArray ls.2)]));;
  if collect_marginals p then write_mf_entropy else mret tt.

(** Lines 329-333. *)
Definition write_state (p : Kwargs) : M unit :=
  if save_state p then modify_nsbm set_state else mret tt.

(** Lines 340-365: the vertex marginals of every level, then the trimmed
    group marginals. *)
Definition write_marginals (p : Kwargs) (f : fitted) (groups : DataFrame)
  : M unit :=
  modify_nsbm (set_cell_marginals ∅);;
  l0_ngroups ← call (EvNonemptyB 0) (get_nonempty_B E 0);
  l0_counts ← call EvGet2dArray (get_2d_array E l0_ngroups);
  let c0 := transpose l0_counts in
  modify_nsbm (put_cell_marginals 0 c0);;
  for_each (λ nl_level : nat * string,
      cl ← lift (level_marginals (key_added p) c0 groups nl_level.2);
      modify_nsbm (put_cell_marginals (nl_level.1 + 1) cl))
    (imap pair (drop 1 (df_columns groups)));;
  modify_nsbm (set_group_marginals []);;
  gms ← from_local "group_marginals" (f_group_marginals f);
  for_each (λ level_marginals,
      t ← lift (trim_level_marginals level_marginals);
      modify_nsbm (append_group_marginals t)) gms.

(** Lines 370-375. *)
Definition prune_step (p : Kwargs) (groups : DataFrame) : M unit :=
  if prune p then
    let to_remove :=
      prune_groups (adjusted_mutual_info_score E) groups false in
    a ← get_adata;
    o ← lift (df_drop (obs a) to_remove);
    put_adata (set_obs a o)
  else mret tt.

(** Lines 378-387. *)
Definition nested_params (p : Kwargs) : gmap string param_value :=
  list_to_map
    [("sweep_iterations", ParamInt (sweep_iterations p));
     ("epsilon", ParamFloat (epsilon p)); ("wait", ParamInt (wait p));
     ("nbreaks", ParamInt (nbreaks p));
     ("equilibrate", ParamBool (equilibrate p));
     ("collect_marginals", ParamBool (collect_marginals p));
     ("hierarchy_length", ParamInt (hierarchy_length p));
     ("prune", ParamBool (prune p))].

(** Lines 719-726. *)
Definition fast_params (p : Kwargs) : gmap string param_value :=
  list_to_map
    [("epsilon", ParamFloat (epsilon p)); ("wait", ParamInt (wait p));
     ("nbreaks", ParamInt (nbreaks p));
     ("collect_marginals", ParamBool (collect_marginals p));
     ("hierarchy_length", ParamInt (hierarchy_length p));
     ("prune", ParamBool (prune p))].

(** The last message reads [state.get_levels()[1].get_nonempty_B()]. *)
Definition final_message : M unit :=
  call (EvNonemptyB 1) (get_nonempty_B E 1);; mret tt.

Definition nested_publish (p : Kwargs) (f : fitted) (groups : DataFrame)
  : M unit :=
  write_obs p groups;;
  nested_stats p f;;
  write_state p;;
  (if collect_marginals p then write_marginals p f groups else mret tt);;
  prune_step p groups;;
  modify_nsbm (set_params (nested_params p));;
  final_message.

Definition fast_publish (p : Kwargs) (f : fitted) (groups : DataFrame)
  : M unit :=
  write_obs p groups;;
  fast_stats p f;;
  write_state p;;
  (if collect_marginals p then write_marginals p f groups else mret tt);;
  prune_step p groups;;
  modify_nsbm (set_params (fast_params p));;
  final_message.

(** *** The two entry points *)

(** What a call leaves behind: its result ([adata if copy else None], or
    the exception), the caller's container, the outside calls in order and
    the outside world. *)
Record outcome := {
  result : res (option AnnData);
  caller_adata : AnnData;
  events : list event;
  world_after : world E }.

Definition init_state (a : AnnData) (w : world E) : st :=
  {| ext := w; trace := []; adata := a |}.

(** With [copy=True] the run works on [adata.copy()] (line 181); nothing
    before that line touches the container.  The copy is taken to hold what
    the original holds and to succeed; what a version of anndata changes
    while copying (entries of [uns] moved elsewhere) is not represented, so
    statements about the copy are statements about such a copy. *)
Definition run_driver (p : Kwargs) (body : M unit) (a : AnnData) (w : world E)
  : outcome :=
  let '(r, s) := body (init_state a w) in
  {| result := (λ _, if copy p then Some (adata s) else None) <$> r;
     caller_adata := if copy p then a else adata s;
     events := trace s;
     world_after := ext s |}.

Definition nested_model (p : Kwargs) (a : AnnData) (w : world E) : outcome :=
  run_driver p (fg ← nested_prepare p; nested_publish p fg.1 fg.2) a w.

Definition fast_model (p : Kwargs) (a : AnnData) (w : world E) : outcome :=
  run_driver p (fg ← fast_prepare p; fast_publish p fg.1 fg.2) a w.

End Drivers.

Arguments ext {E} s.
Arguments trace {E} s.
Arguments adata {E} s.
Arguments result {E} o.
Arguments caller_adata {E} o.
Arguments events {E} o.
Arguments world_after {E} o.

(** ** A deterministic stand-in for the engine

    Used for closed examples only.  The world is the state of the random
    generators together with the hierarchy the state object holds.  The
    finest partition the stand-in finds depends on the generator state, so
    that seeding is observable. *)

Record stub_world := { gen_state : Z; held_bs : list (list Z); held_n : nat }.

Definition stub_partition (N : nat) (gen : Z) : list Z :=
  (λ i, (Z.of_nat i * gen) mod 2)%Z <$> seq 0 N.

Definition stub_project (w : stub_world) (x : nat) : res (list Z) :=
  match held_bs w !! x with
  | None => Raise (EngineFault x)
  | Some b => if bool_decide (x = 0) then Ok b
              else Ok (replicate (held_n w) 0%Z)
  end.

Definition stub_sweep : sweep_result := (float_zero, 0%Z, 0%Z).

Definition stub_seed (s : Z) (w : stub_world) : stub_world :=
  {| gen_state := s; held_bs := held_bs w; held_n := held_n w |}.

Definition stub_np_seed (s : Z) (w : stub_world) : res unit * stub_world :=
  if bool_decide (0 ≤ s < 2 ^ 32)%Z then (Ok tt, stub_seed s w)
  else (Raise (ValueError "Seed must be between 0 and 2**32 - 1"), w).

Definition stub_restrict (a : AnnData) (key : string) (cats : list string)
    (adj : spmatrix) (w : stub_world) : res (spmatrix * list nat) * stub_world :=
  (Ok (adj, []), w).

Definition stub_graph (adj : spmatrix) (d : bool) (w : stub_world)
  : res Graph * stub_world :=
  if bool_decide ((sp_shape adj).1 = (sp_shape adj).2)
  then (Ok {| num_vertices := (sp_shape adj).1; is_directed := d;
              edge_list := sp_data adj |}, w)
  else (Raise (ValueError "adjacency is not square"), w).

Definition stub_minimize (g : Graph) (dc uw : bool) (w : stub_world)
  : res (list (list Z)) * stub_world :=
  let bs := [stub_partition (num_vertices g) (gen_state w)] in
  (Ok bs, {| gen_state := gen_state w; held_bs := bs;
             held_n := num_vertices g |}).

Definition stub_new_state (g : Graph) (bs : list (list Z)) (dc : option bool)
    (recs : bool) (w : stub_world) : res unit * stub_world :=
  (Ok tt, {| gen_state := gen_state w;
             held_bs := <[0 := stub_partition (num_vertices g) (gen_state w)]> bs;
             held_n := num_vertices g |}).

Definition stub_copy (bs : list (list Z)) (w : stub_world)
  : res unit * stub_world :=
  (Ok tt, {| gen_state := gen_state w; held_bs := bs; held_n := held_n w |}).

Definition stub_nonempty_B (w : stub_world) (l : nat) : res nat :=
  match held_bs w !! l with
  | None => Raise (IndexError "list index out of range")
  | Some _ => (λ b : list Z, length (np_unique b)) <$> stub_project w l
  end.

Definition stub_callback (args : equilibrate_args) (w : stub_world)
  : list (list nat) * (res sweep_result * stub_world) :=
  (replicate (Z.to_nat (default 0%Z (eq_force_niter args)))
     ((λ x, match stub_nonempty_B w x with
            | Ok n => n
            | Raise _ => 0
            end) <$> seq 0 (length (held_bs w))),
   (Ok stub_sweep, w)).

Definition stub_2d_array (n : nat) (w : stub_world) : res ndarray * stub_world :=
  ((λ b : list Z,
      {| ncols := held_n w;
         rows := (λ g, (λ v, if (v =? Z.of_nat g)%Z then 1%Z else 0%Z)
                         <$> b) <$> seq 0 n |})
     <$> stub_project w 0, w).

Definition stub_env : Env :=
  {| world := stub_world;
     import_graph_tool := λ w, (Ok tt, w);
     np_random_seed := stub_np_seed;
     gt_seed_rng := λ s w, (Ok tt, stub_seed s w);
     restrict_adjacency := stub_restrict;
     get_graph_tool_from_adjacency := stub_graph;
     minimize_nested_blockmodel_dl := stub_minimize;
     nested_block_state := stub_new_state;
     state_copy := stub_copy;
     multiflip_mcmc_sweep := λ _ w, (Ok stub_sweep, w);
     mcmc_sweep := λ _ w, (Ok stub_sweep, w);
     mcmc_equilibrate := λ _ w, (Ok stub_sweep, w);
     mcmc_equilibrate_callback := stub_callback;
     get_levels_len := λ w, (Ok (length (held_bs w)), w);
     project_partition := λ x w, (stub_project w x, w);
     level_entropy := λ _ w, (Ok float_zero, w);
     modularity := λ _ _ w, (Ok float_zero, w);
     mf_entropy := λ _ w, (Ok float_zero, w);
     get_nonempty_B := λ l w, (stub_nonempty_B w l, w);
     get_2d_array := stub_2d_array;
     adjusted_mutual_info_score := ami_exact |}.

Definition stub_world0 (gen : Z) : stub_world :=
  {| gen_state := gen; held_bs := []; held_n := 0 |}.

(** Two cells joined by one edge, with the neighbourhood graph in place. *)
Definition two_cells_adjacency : spmatrix :=
  {| sp_shape := (2, 2);
     sp_data := [(0, 1, float_one); (1, 0, float_one)] |}.

Definition two_cells : AnnData :=
  {| obs := [];
     obs_names := ["cell_0"; "cell_1"];
     uns := {[ "neighbors" :=
                 UnsNeighbors {[ "connectivities" := two_cells_adjacency ]} ]} |}.

(** The defaults of the signature of [nested_model], with a short
    collection. *)
Definition default_params : Kwargs :=
  {| sweep_iterations := 10000; max_iterations := 1000000;
     epsilon := S754_finite false 4611686018427388 (-62);
     equilibrate := true; wait := 1000; nbreaks := 2;
     collect_marginals := false; niter_collect := 10000;
     hierarchy_length := 10; deg_corr := false; multiflip := true;
     restrict_to := None; random_seed := None; key_added := "nsbm";
     adjacency := None; directed := false; use_weights := false;
     save_state := false; prune := false; return_low := false;
     copy := false |}.

Definition with_prune (p : Kwargs) (b : bool) : Kwargs :=
  {| sweep_iterations := sweep_iterations p; max_iterations := max_iterations p;
     epsilon := epsilon p; equilibrate := equilibrate p; wait := wait p;
     nbreaks := nbreaks p; collect_marginals := collect_marginals p;
     niter_collect := niter_collect p; hierarchy_length := hierarchy_length p;
     deg_corr := deg_corr p; multiflip := multiflip p;
     restrict_to := restrict_to p; random_seed := random_seed p;
     key_added := key_added p; adjacency := adjacency p;
     directed := directed p; use_weights := use_weights p;
     save_state := save_state p; prune := b;
     return_low := return_low p; copy := copy p |}.

Definition with_marginals (p : Kwargs) (collect equil : bool) : Kwargs :=
  {| sweep_iterations := sweep_iterations p; max_iterations := max_iterations p;
     epsilon := epsilon p; equilibrate := equil; wait := wait p;
     nbreaks := nbreaks p; collect_marginals := collect;
     niter_collect := 3; hierarchy_length := hierarchy_length p;
     deg_corr := deg_corr p; multiflip := multiflip p;
     restrict_to := restrict_to p; random_seed := random_seed p;
     key_added := key_added p; adjacency := adjacency p;
     directed := directed p; use_weights := use_weights p;
     save_state := save_state p; prune := prune p;
     return_low := return_low p; copy := copy p |}.

(** A table of six nodes and two levels: the level-1 group of raw id [7]
    consists of the level-0 groups [0] and [2]. *)
Definition six_nodes : list (list Z) :=
  [[0; 1; 2; 0; 2; 1]%Z; [7; 3; 7; 7; 7; 3]%Z].

Definition six_nodes_c0 : ndarray :=
  {| ncols := 3;
     rows := [[5; 1; 4]%Z; [0; 9; 1]%Z; [3; 0; 7]%Z;
              [6; 2; 2]%Z; [1; 1; 8]%Z; [2; 8; 0]%Z] |}.

(** Two levels that group the two cells identically. *)
Definition twin_levels : DataFrame :=
  name_levels "nsbm" (relabel [[4; 4]%Z; [0; 0]%Z]).

(** A container that already carries output columns of an earlier run. *)
Definition annotated_cells : AnnData :=
  {| obs := [("batch", relabel_column [1; 2]%Z);
             ("nsbm_level_1", relabel_column [0; 1]%Z);
             ("nsbm_level_7", relabel_column [0; 0]%Z)];
     obs_names := ["cell_0"; "cell_1"];
     uns := uns two_cells |}.

(** The defaults with [collect_marginals=True] and [niter_collect=0]: the
    collecting equilibration makes no sweep. *)
Definition no_sweeps_params : Kwargs :=
  {| sweep_iterations := 10000; max_iterations := 1000000;
     epsilon := S754_finite false 4611686018427388 (-62);
     equilibrate := true; wait := 1000; nbreaks := 2;
     collect_marginals := true; niter_collect := 0;
     hierarchy_length := 10; deg_corr := false; multiflip := true;
     restrict_to := None; random_seed := None; key_added := "nsbm";
     adjacency := None; directed := false; use_weights := false;
     save_state := false; prune := false; return_low := false;
     copy := false |}.

(** The defaults with [return_low=True] and a given seed. *)
Definition seeded_params (seed : option Z) : Kwargs :=
  {| sweep_iterations := 10000; max_iterations := 1000000;
     epsilon := S754_finite false 4611686018427388 (-62);
     equilibrate := true; wait := 1000; nbreaks := 2;
     collect_marginals := false; niter_collect := 10000;
     hierarchy_length := 10; deg_corr := false; multiflip := true;
     restrict_to := None; random_seed := seed; key_added := "nsbm";
     adjacency := None; directed := false; use_weights := false;
     save_state := false; prune := false; return_low := true;
     copy := false |}.

(** A seeded run makes both seeding calls, NumPy's first: [evs] starts with
    the import and [np.random.seed(s)], and goes on with [gt.seed_rng(s)]
    when NumPy accepted the seed in the world [w1] the import left. *)
Definition seeds_both (E : Env) (s : Z) (w1 : world E) (evs : list event)
  : Prop :=
  ∃ rest, evs = EvImport :: EvNpSeed s :: rest
          ∧ ∀ w2, np_random_seed E s w1 = (Ok tt, w2) →
                  ∃ rest', rest = EvGtSeed s :: rest'.

(** ** Notions used in the statements

    The counts of the cross-tabulation, the level-0 groups a derived column
    sums, and the accumulators a collection leaves. *)

(** The number of nodes with code [i] in the first column and [j] in the
    second. *)
Definition pair_count (a b : list nat) (i j : nat) : Z :=
  Z.of_nat (length (filter (λ p, p = (i, j)) (zip a b))).

(** The level-0 groups, among the first [B0], that share a node with the
    group [x] of the other column. *)
Definition summed_groups (ca cb : list nat) (B0 x : nat) : list nat :=
  filter (λ i, (0 <? pair_count ca cb i x)%Z = true) (seq 0 B0).

Definition group_sum (row : list Z) (G0 : list nat) : Z :=
  foldr Z.add 0%Z ((λ g0, nth g0 row 0%Z) <$> G0).

(** An accumulator of counts with at least one positive entry. *)
Definition marked (v : list Z) : Prop :=
  Forall (λ c, (0 ≤ c)%Z) v ∧ ∃ k c, v !! k = Some c ∧ (0 < c)%Z.

(** A relation between the state before and after a step that every step
    of a computation keeps. *)
Definition respects {E : Env} (R : relation (st E)) {A} (m : M E A) : Prop :=
  ∀ s r s', m s = (r, s') → R s s'.

(** The container is the one the step started with. *)
Definition same_adata {E : Env} : relation (st E) :=
  λ s s', adata s' = adata s.

(** The trace only grows, by events that satisfy [P]. *)
Definition appends {E : Env} (P : event → Prop) : relation (st E) :=
  λ s s', ∃ evs, trace s' = trace s ++ evs ∧ Forall P evs.

(** ** Notions used in the further properties

    The accumulators as a histogram, the calls the arguments allow, the
    parts of the container a step leaves alone, and the keys and values of
    the statistics. *)

(** The entry [group_marginals[l][B]] of the accumulators. *)
Definition count_at (gm : list (list Z)) (l B : nat) : option Z :=
  gm !! l ≫= λ v, v !! B.

(** [_collect_marginals] invoked once per entry of [invocations], as
    [mcmc_equilibrate] does with its callback. *)
Definition run_callbacks (gm : list (list Z)) (invocations : list (list nat))
  : res (list (list Z)) :=
  foldl (λ acc Bs, gm' ← acc; collect_callback gm' Bs) (Ok gm) invocations.

(** One update of the accumulators, threaded through the exceptions. *)
Definition bump_step (acc : res (list (list Z))) (lB : nat * nat)
  : res (list (list Z)) :=
  gm' ← acc; bump gm' lB.1 lB.2.

(** The outside calls the arguments of a run allow; [nested] tells the two
    drivers apart. *)
Definition expected_call (nested : bool) (p : Kwargs) (ev : event) : bool :=
  match ev with
  | EvImport | EvBuildGraph | EvGetLevels | EvProject _
  | EvLevelEntropy _ | EvModularity _ => true
  | EvNpSeed s | EvGtSeed s =>
      match random_seed p with
      | Some s' => (s' =? s)%Z && negb (s =? 0)%Z
      | None => false
      end
  | EvRestrictAdjacency =>
      match restrict_to p with Some _ => true | None => false end
  | EvMinimize => nested
  | EvSweep multi => nested && Bool.eqb multi (multiflip p)
  | EvStateCopy => nested && negb (use_weights p)
  | EvNestedBlockState => negb nested || use_weights p
  | EvEquilibrate false => negb nested || equilibrate p
  | EvEquilibrate true | EvMfEntropy _ | EvGet2dArray => collect_marginals p
  | EvNonemptyB l => (l =? 1) || ((l =? 0) && collect_marginals p)
  end.

(** A step leaves the part [π] of the container as it was. *)
Definition keeps {E : Env} {X} (π : AnnData → X) : relation (st E) :=
  λ s s', π (adata s') = π (adata s).

(** The dictionary [adata.uns['nsbm']], when there is one. *)
Definition nsbm_of (a : AnnData) : option nsbm_entry :=
  match uns a !! "nsbm" with
  | Some (UnsNsbm d) => Some d
  | _ => None
  end.

(** What a run is not meant to write: the names of the observations and
    every entry of [adata.uns] other than ['nsbm']. *)
Definition outside_outputs (a : AnnData)
  : list string * gmap string uns_value :=
  (obs_names a, delete "nsbm" (uns a)).

(** The container a run has worked on: the copy it returns, or the
    caller's. *)
Definition output_adata {E : Env} (o : outcome E) : AnnData :=
  match result o with
  | Ok (Some c) => c
  | _ => caller_adata o
  end.

(** The keys of [adata.uns['nsbm']['stats']], lines 307-327 and 654-668. *)
Definition nested_stat_keys (p : Kwargs) : list string :=
  ["sweep_dS"; "sweep_nattempts"; "sweep_nmoves"; "level_entropy"; "modularity"]
  ++ (if equilibrate p
      then ["equlibrate_dS"; "equlibrate_nattempts"; "equlibrate_nmoves"]
           ++ (if collect_marginals p then ["mf_entropy"] else [])
      else []).

Definition fast_stat_keys (p : Kwargs) : list string :=
  ["dS"; "nattempts"; "nmoves"; "level_entropy"; "modularity"]
  ++ (if collect_marginals p then ["mf_entropy"] else []).

(** The column of level [l] of a raw table is what the engine projected for
    that level, stretched to [N] entries when it has one (lines 272-276). *)
Definition projected (E : Env) (N : nat) (raw : list (list Z)) : Prop :=
  ∀ l col, raw !! l = Some col →
    ∃ w0 w1 arr, project_partition E l w0 = (Ok arr, w1)
                 ∧ assign_column N arr = Ok col.

(** The arguments of the equilibration without a callback (lines 234-239
    and 580-586). *)
Definition plain_equilibrate_args (p : Kwargs) : equilibrate_args :=
  {| eq_wait := wait p; eq_nbreaks := nbreaks p; eq_epsilon := epsilon p;
     eq_max_niter := max_iterations p; eq_multiflip := multiflip p;
     eq_force_niter := None |}.

(** The three numbers of a sweep or an equilibration under their keys. *)
Definition records (v : gmap string stat_value) (dS nattempts nmoves : string)
    (x : sweep_result) : Prop :=
  v !! dS = Some (StatFloat x.1.1)
  ∧ v !! nattempts = Some (StatInt x.1.2)
  ∧ v !! nmoves = Some (StatInt x.2).

(* ================================================================== *)
(** * Part II: properties                                              *)
(* ================================================================== *)

(** ** The relabelling *)

Lemma py_str_inj n m : py_str n = py_str m → n = m.
Proof.
  unfold py_str. intros H.
  apply (f_equal NilEmpty.uint_of_string) in H.
  rewrite !NilEmpty.usu in H. injection H as H.
  apply (f_equal Nat.of_uint) in H. by rewrite !Unsigned.of_to in H.
Qed.

Lemma elem_of_insert_sorted x y l : x ∈ insert_sorted y l ↔ x = y ∨ x ∈ l.
Proof.
  induction l as [|z l IH]; simpl.
  - rewrite list_elem_of_singleton, elem_of_nil. tauto.
  - destruct (Z.ltb_spec y z); [by rewrite elem_of_cons|].
    destruct (Z.eqb_spec y z) as [->|].
    + rewrite elem_of_cons. tauto.
    + rewrite !elem_of_cons, IH. tauto.
Qed.

Lemma elem_of_np_unique x col : x ∈ np_unique col ↔ x ∈ col.
Proof.
  induction col as [|y col IH]; simpl; [done|].
  by rewrite elem_of_insert_sorted, IH, elem_of_cons.
Qed.

Lemma insert_sorted_sorted y l :
  StronglySorted Z.lt l → StronglySorted Z.lt (insert_sorted y l).
Proof.
  induction 1 as [|z l Hs IH Hz]; simpl.
  - repeat constructor.
  - destruct (Z.ltb_spec y z).
    + constructor; [by constructor|]. constructor; [done|].
      eapply Forall_impl; [exact Hz|]. intros; simpl in *; lia.
    + destruct (Z.eqb_spec y z); [by constructor|].
      constructor; [done|]. apply Forall_forall. intros u Hu.
      apply elem_of_insert_sorted in Hu as [->|Hu]; [lia|].
      by eapply Forall_forall in Hz.
Qed.

Lemma np_unique_sorted col : StronglySorted Z.lt (np_unique col).
Proof. induction col; simpl; [constructor|by apply insert_sorted_sorted]. Qed.

Lemma sorted_lt_NoDup (l : list Z) : StronglySorted Z.lt l → NoDup l.
Proof.
  induction 1 as [|z l Hs IH Hz]; constructor; [|done].
  intros Hin. eapply Forall_forall in Hz; [|done]. lia.
Qed.

Lemma np_unique_NoDup col : NoDup (np_unique col).
Proof. apply sorted_lt_NoDup, np_unique_sorted. Qed.

Lemma index_of_lookup v (l : list Z) : v ∈ l → l !! index_of v l = Some v.
Proof.
  induction l as [|y l IH]; simpl; [by intros ?%elem_of_nil|].
  intros Hin. destruct (Z.eqb_spec v y); [by subst|].
  apply elem_of_cons in Hin as [?|?]; [done|]. by apply IH.
Qed.

Lemma index_of_lt v (l : list Z) : v ∈ l → index_of v l < length l.
Proof. intros H. eapply lookup_lt_Some, index_of_lookup, H. Qed.

Lemma index_of_inj u v (l : list Z) :
  u ∈ l → v ∈ l → index_of u l = index_of v l → u = v.
Proof.
  intros Hu Hv E. apply index_of_lookup in Hu, Hv. congruence.
Qed.

Lemma filter_none {A} (P : A → Prop) `{∀ x, Decision (P x)} (l : list A) :
  Forall (λ x, ¬ P x) l → filter P l = [].
Proof.
  induction 1 as [|x l Hx Hl IH]; [done|].
  by rewrite filter_cons_False.
Qed.

Lemma filter_all {A} (P : A → Prop) `{∀ x, Decision (P x)} (l : list A) :
  Forall P l → filter P l = l.
Proof.
  induction 1 as [|x l Hx Hl IH]; [done|].
  rewrite filter_cons_True by done. by rewrite IH.
Qed.

Lemma index_of_rank v (l : list Z) :
  StronglySorted Z.lt l → v ∈ l →
  index_of v l = length (filter (λ u, (u < v)%Z) l).
Proof.
  induction 1 as [|y l Hs IH Hy]; simpl; [by intros ?%elem_of_nil|].
  intros Hin. destruct (Z.eqb_spec v y) as [->|Hne].
  - rewrite filter_cons_False by lia.
    rewrite filter_none; [done|].
    eapply Forall_impl; [exact Hy|]. intros; simpl in *; lia.
  - apply elem_of_cons in Hin as [?|Hin]; [done|].
    assert (y < v)%Z by (eapply Forall_forall in Hy; [|done]; lia).
    rewrite filter_cons_True by done. simpl. by rewrite IH.
Qed.

(** The dictionary of new names. *)
Lemma py_dict_foldl_notin (pairs : list (label * string))
    (m : gmap label string) k :
  k ∉ pairs.*1 →
  foldl (λ d kv, <[kv.1 := kv.2]> d) m pairs !! k = m !! k.
Proof.
  revert m. induction pairs as [|[k' v'] t IH]; intros m Hk; simpl; [done|].
  rewrite fmap_cons, not_elem_of_cons in Hk. destruct Hk as [Hne Hk].
  rewrite IH by done. simpl. by rewrite lookup_insert_ne.
Qed.

Lemma py_dict_foldl_lookup (pairs : list (label * string))
    (m : gmap label string) k v :
  NoDup pairs.*1 → (k, v) ∈ pairs →
  foldl (λ d kv, <[kv.1 := kv.2]> d) m pairs !! k = Some v.
Proof.
  revert m. induction pairs as [|[k' v'] t IH]; intros m Hnd Hin; simpl.
  - by apply elem_of_nil in Hin.
  - rewrite fmap_cons in Hnd. apply NoDup_cons in Hnd as [Hk' Hnd].
    apply elem_of_cons in Hin as [Heq|Hin].
    + injection Heq as -> ->. rewrite py_dict_foldl_notin by done.
      simpl. by rewrite lookup_insert_eq.
    + by apply IH.
Qed.

Lemma new_cat_names_lookup (c : Categorical) i cx :
  NoDup (categories c) → categories c !! i = Some cx →
  new_cat_names c !! cx = Some (py_str i).
Proof.
  intros Hnd Hi. unfold new_cat_names, py_dict.
  apply py_dict_foldl_lookup.
  - rewrite fmap_imap.
    replace (imap _ (categories c)) with (categories c); [done|].
    apply list_eq. intros j. rewrite list_lookup_imap.
    by destruct (categories c !! j).
  - apply elem_of_lookup_imap. eauto.
Qed.

Lemma relabel_column_codes col :
  codes (relabel_column col) = (λ v, index_of v (np_unique col)) <$> col.
Proof. done. Qed.

Lemma relabel_column_categories col :
  categories (relabel_column col)
  = (λ k, StrLabel (py_str k)) <$> seq 0 (length (np_unique col)).
Proof.
  unfold relabel_column, rename_categories. simpl.
  apply list_eq. intros i.
  rewrite !list_lookup_fmap.
  destruct (np_unique col !! i) as [v|] eqn:Hv; simpl.
  - rewrite lookup_seq_lt by (by eapply lookup_lt_Some). simpl.
    erewrite new_cat_names_lookup; [done| |].
    + simpl. apply NoDup_fmap_2; [|apply np_unique_NoDup]. by intros ?? [=].
    + simpl. by rewrite list_lookup_fmap, Hv.
  - rewrite lookup_seq_ge; [done|]. by apply lookup_ge_None.
Qed.

Lemma cat_values_relabel col n v :
  col !! n = Some v →
  cat_values (relabel_column col) !! n
  = Some (Some (StrLabel (py_str (index_of v (np_unique col))))).
Proof.
  intros Hn. unfold cat_values.
  rewrite relabel_column_categories, relabel_column_codes.
  rewrite !list_lookup_fmap, Hn. simpl.
  rewrite list_lookup_fmap, lookup_seq_lt; [done|].
  apply index_of_lt, elem_of_np_unique. by eapply list_elem_of_lookup_2.
Qed.

Lemma table_label_eq raw l n col v :
  raw !! l = Some col → col !! n = Some v →
  table_label raw l n = Some (StrLabel (py_str (index_of v (np_unique col)))).
Proof.
  intros Hl Hn. unfold table_label, relabel.
  rewrite list_lookup_fmap, Hl. simpl.
  by erewrite cat_values_relabel.
Qed.

Lemma np_unique_length col : length (np_unique col) = length (remove_dups col).
Proof.
  apply Permutation_length, NoDup_Permutation.
  - apply np_unique_NoDup.
  - apply NoDup_remove_dups.
  - intros x. by rewrite elem_of_np_unique, elem_of_remove_dups.
Qed.

(** C7 (relabelling bijection).  In every level column, two nodes carry the
    same canonical label exactly when they carried the same raw group id;
    every node's label is the decimal name of some [k < B_l], and every
    [k < B_l] names the label of some node, where [B_l] is the number of
    distinct raw ids of the level. *)
Theorem relabel_bijection (raw : list (list Z)) (l : nat) (col : list Z) :
  raw !! l = Some col →
  (∀ n m, n < length col → m < length col →
     (table_label raw l n = table_label raw l m ↔ raw_id raw l n = raw_id raw l m))
  ∧ (∀ n, n < length col →
       ∃ k, k < n_groups raw l ∧ table_label raw l n = Some (StrLabel (py_str k)))
  ∧ (∀ k, k < n_groups raw l →
       ∃ n, n < length col ∧ table_label raw l n = Some (StrLabel (py_str k))).
Proof.
  intros Hl. unfold n_groups, raw_id. rewrite Hl. simpl.
  rewrite <- np_unique_length. split; [|split].
  - intros n m Hn Hm.
    destruct (lookup_lt_is_Some_2 col n Hn) as [u Hu].
    destruct (lookup_lt_is_Some_2 col m Hm) as [v Hv].
    rewrite (table_label_eq _ _ _ _ _ Hl Hu), (table_label_eq _ _ _ _ _ Hl Hv).
    rewrite Hu, Hv. split.
    + intros [= E%py_str_inj]. f_equal.
      eapply index_of_inj; [| |exact E]; apply elem_of_np_unique;
        by eapply list_elem_of_lookup_2.
    + by intros [= ->].
  - intros n Hn. destruct (lookup_lt_is_Some_2 col n Hn) as [u Hu].
    exists (index_of u (np_unique col)). split.
    + apply index_of_lt, elem_of_np_unique. by eapply list_elem_of_lookup_2.
    + by eapply table_label_eq.
  - intros k Hk. destruct (lookup_lt_is_Some_2 _ k Hk) as [u Hu].
    assert (u ∈ col) as Hin
      by (apply elem_of_np_unique; by eapply list_elem_of_lookup_2).
    apply list_elem_of_lookup_1 in Hin as [n Hn]. exists n. split.
    + by eapply lookup_lt_Some.
    + erewrite table_label_eq by done. do 3 f_equal.
      eapply NoDup_lookup; [apply np_unique_NoDup| |exact Hu].
      apply index_of_lookup, elem_of_np_unique. by eapply list_elem_of_lookup_2.
Qed.

(** The column [5; 2; 5; 9]: the nodes 0 and 2 share a label, and the
    label ['2'] occurs. *)
Lemma relabel_bijection_witness :
  (table_label [[5; 2; 5; 9]%Z] 0 0 = table_label [[5; 2; 5; 9]%Z] 0 2
   ↔ raw_id [[5; 2; 5; 9]%Z] 0 0 = raw_id [[5; 2; 5; 9]%Z] 0 2)
  ∧ ∃ n, n < 4 ∧ table_label [[5; 2; 5; 9]%Z] 0 n = Some (StrLabel (py_str 2)).
Proof.
  destruct (relabel_bijection [[5; 2; 5; 9]%Z] 0 [5; 2; 5; 9]%Z eq_refl)
    as (Hiff & _ & Honto).
  split.
  - apply (Hiff 0 2); simpl; lia.
  - apply (Honto 2). vm_compute. lia.
Defined.

Lemma np_unique_perm col : np_unique col ≡ₚ remove_dups col.
Proof.
  apply NoDup_Permutation.
  - apply np_unique_NoDup.
  - apply NoDup_remove_dups.
  - intros x. by rewrite elem_of_np_unique, elem_of_remove_dups.
Qed.

(** C3 (Level Relabeler ordering, as amended).  The canonical label of a
    node is the decimal name of the rank of its raw id among the distinct
    raw ids of the column in ascending numeric order: the number of distinct
    raw ids of the column that are smaller.  The order in which the nodes
    are scanned plays no part. *)
Theorem relabel_rank (raw : list (list Z)) (l n : nat) (col : list Z) (v : Z) :
  raw !! l = Some col → col !! n = Some v →
  table_label raw l n
  = Some (StrLabel (py_str (length (filter (λ u, (u < v)%Z) (remove_dups col))))).
Proof.
  intros Hl Hn. erewrite table_label_eq by done. do 3 f_equal.
  rewrite index_of_rank.
  - by rewrite np_unique_perm.
  - apply np_unique_sorted.
  - apply elem_of_np_unique. by eapply list_elem_of_lookup_2.
Qed.

(** In the column [5; 2; 5; 9] the raw id 9 has two smaller ids. *)
Lemma relabel_rank_witness :
  table_label [[5; 2; 5; 9]%Z] 0 3 = Some (StrLabel "2").
Proof. apply (relabel_rank [[5; 2; 5; 9]%Z] 0 3 [5; 2; 5; 9]%Z 9%Z); reflexivity. Defined.

(** The column [5; 2]: the raw id 5 occurs first and is labelled ['1'];
    the columns [5; 2] and [1; 2] group alike and label node 0 differently. *)
Lemma relabel_first_occurrence_counterexample :
  table_label [[5; 2]%Z] 0 0 ≠ first_occurrence_label [5; 2]%Z 0
  ∧ table_label [[5; 2]%Z] 0 0 ≠ table_label [[1; 2]%Z] 0 0.
Proof. split; vm_compute; discriminate. Qed.

(** ** The aggregation *)

Lemma where_from_seq {A} (p : A → bool) (f : nat → A) k n :
  where_from p k (f <$> seq k n) = filter (λ i, p (f i) = true) (seq k n).
Proof.
  revert k. induction n as [|n IH]; intros k; simpl; [done|].
  rewrite IH. destruct (p (f k)) eqn:E.
  - by rewrite filter_cons_True.
  - rewrite filter_cons_False; [done|]. by rewrite E.
Qed.

Lemma observed_all cs n : (∀ i, i < n → i ∈ cs) → observed cs n = seq 0 n.
Proof.
  intros H. unfold observed. apply filter_all, Forall_seq.
  intros j Hj. apply H. lia.
Qed.

Lemma relabel_codes_cover col i :
  i < length (np_unique col) → i ∈ codes (relabel_column col).
Proof.
  intros Hi. destruct (lookup_lt_is_Some_2 _ i Hi) as [v Hv].
  rewrite relabel_column_codes. apply list_elem_of_fmap. exists v. split.
  - symmetry. eapply NoDup_lookup; [apply np_unique_NoDup| |exact Hv].
    apply index_of_lookup. by eapply list_elem_of_lookup_2.
  - apply elem_of_np_unique. by eapply list_elem_of_lookup_2.
Qed.

Lemma mapM_res_ok {A B} (f : A → res B) (g : A → B) (l : list A) :
  (∀ x, x ∈ l → f x = Ok (g x)) → mapM f l = Ok (g <$> l).
Proof.
  induction l as [|x l IH]; intros H; simpl; [done|].
  rewrite H by apply list_elem_of_here.
  simpl. rewrite IH; [done|]. intros y Hy. apply H. by apply list_elem_of_further.
Qed.

Lemma take_columns_ok (a : ndarray) idx :
  Forall (λ i, i < ncols a) idx →
  take_columns a idx
  = Ok {| ncols := length idx;
          rows := (λ r, (λ i, nth i r 0%Z) <$> idx) <$> rows a |}.
Proof.
  intros H. unfold take_columns.
  replace (forallb _ idx) with true; [done|].
  symmetry. apply forallb_forall. intros i Hi.
  apply Nat.ltb_lt. eapply Forall_forall in H; [done|]. by apply list_elem_of_In.
Qed.

Lemma crosstab_relabel col0 coll :
  length col0 = length coll →
  crosstab (relabel_column col0) (relabel_column coll)
  = {| ncols := length (np_unique coll);
       rows := (λ i, (λ j, pair_count (codes (relabel_column col0))
                              (codes (relabel_column coll)) i j)
                       <$> seq 0 (length (np_unique coll)))
                 <$> seq 0 (length (np_unique col0)) |}.
Proof.
  intros Hlen. unfold crosstab.
  rewrite fst_zip, snd_zip
    by (rewrite !relabel_column_codes, !length_fmap; lia).
  rewrite !relabel_column_categories, !length_fmap, !length_seq.
  rewrite !observed_all by apply relabel_codes_cover.
  by rewrite length_seq.
Qed.

Lemma pair_count_pos a b i j :
  (0 <? pair_count a b i j)%Z = true ↔ (i, j) ∈ zip a b.
Proof.
  unfold pair_count. rewrite Z.ltb_lt. split.
  - intros H. destruct (filter _ _) as [|p t] eqn:E; [simpl in H; lia|].
    assert (p ∈ filter (λ p, p = (i, j)) (zip a b)) as Hp
      by (rewrite E; apply list_elem_of_here).
    apply list_elem_of_filter in Hp as [-> ?]. done.
  - intros H.
    assert ((i, j) ∈ filter (λ p, p = (i, j)) (zip a b)) as Hp
      by (by apply list_elem_of_filter).
    destruct (filter _ _); [by apply elem_of_nil in Hp|simpl; lia].
Qed.

Lemma nth_fmap_lookup {A} (f : A → Z) (l : list A) n x :
  l !! n = Some x → nth n (f <$> l) 0%Z = f x.
Proof.
  revert n. induction l as [|y l IH]; intros [|n] H; simplify_eq/=; [done|].
  by apply IH.
Qed.

Lemma nth_fmap_seq (f : nat → Z) n x : x < n → nth x (f <$> seq 0 n) 0%Z = f x.
Proof. intros H. apply nth_fmap_lookup. by rewrite lookup_seq_lt. Qed.

Lemma sorted_filter {A} (R : relation A) (P : A → Prop)
    `{∀ x, Decision (P x)} (l : list A) :
  StronglySorted R l → StronglySorted R (filter P l).
Proof.
  induction 1 as [|y l Hs IH Hy]; [constructor|].
  destruct (decide (P y)).
  - rewrite filter_cons_True by done. constructor; [done|].
    apply Forall_forall. intros z Hz%list_elem_of_filter.
    eapply Forall_forall in Hy; [done|]. by destruct Hz.
  - by rewrite filter_cons_False.
Qed.

Lemma sorted_seq k n : StronglySorted lt (seq k n).
Proof.
  revert k. induction n as [|n IH]; intros k; simpl; constructor; [done|].
  apply Forall_seq. lia.
Qed.

Lemma summed_groups_sorted ca cb B0 x :
  StronglySorted lt (summed_groups ca cb B0 x).
Proof. apply sorted_filter, sorted_seq. Qed.

Lemma derived_column_relabel (c0 : ndarray) col0 coll x :
  length col0 = length coll →
  length (np_unique col0) ≤ ncols c0 →
  x < length (np_unique coll) →
  derived_column c0 (crosstab (relabel_column col0) (relabel_column coll)) x
  = Ok ((λ r, foldr Z.add 0%Z
                ((λ i, nth i r 0%Z)
                   <$> summed_groups (codes (relabel_column col0))
                         (codes (relabel_column coll))
                         (length (np_unique col0)) x))
          <$> rows c0).
Proof.
  intros Hlen Hc0 Hx. unfold derived_column.
  rewrite crosstab_relabel by done. unfold iloc_col. simpl rows.
  rewrite <- list_fmap_compose.
  erewrite (list_fmap_ext _ (λ i, pair_count _ _ i x) (seq 0 _)); last first.
  { intros i y _. simpl. by rewrite nth_fmap_seq. }
  unfold np_where. rewrite (where_from_seq (λ v, (0 <? v)%Z)).
  fold (summed_groups (codes (relabel_column col0)) (codes (relabel_column coll))
          (length (np_unique col0)) x).
  rewrite take_columns_ok.
  - unfold sum_axis1. simpl. by rewrite <- list_fmap_compose.
  - apply Forall_forall. intros i Hi%list_elem_of_filter.
    destruct Hi as [_ Hi]. apply elem_of_seq in Hi. lia.
Qed.

Lemma derive_level_relabel (c0 : ndarray) col0 coll :
  length col0 = length coll →
  length (np_unique col0) ≤ ncols c0 →
  ∃ cl, derive_level c0 (relabel_column col0) (relabel_column coll) = Ok cl
    ∧ ncols cl = length (np_unique coll)
    ∧ nrows cl = nrows c0
    ∧ ∀ n row x, rows c0 !! n = Some row → x < length (np_unique coll) →
        cell cl n x
        = Some (group_sum row
                  (summed_groups (codes (relabel_column col0))
                     (codes (relabel_column coll))
                     (length (np_unique col0)) x)).
Proof.
  intros Hlen Hc0. unfold derive_level.
  erewrite mapM_res_ok; last first.
  { intros x Hx. apply derived_column_relabel; [done..|].
    rewrite crosstab_relabel in Hx by done. simpl in Hx.
    apply elem_of_seq in Hx. lia. }
  rewrite crosstab_relabel by done. simpl.
  eexists. split; [done|]. split; [done|]. split.
  { unfold nrows. simpl. by rewrite length_fmap, length_seq. }
  intros n row x Hn Hx. unfold cell. simpl.
  rewrite list_lookup_fmap, lookup_seq_lt by (by eapply lookup_lt_Some).
  simpl. rewrite list_lookup_fmap, list_lookup_fmap, lookup_seq_lt by done.
  simpl. f_equal. by erewrite nth_fmap_lookup.
Qed.

Lemma table_label_code raw l col m g :
  raw !! l = Some col →
  table_label raw l m = Some (StrLabel (py_str g))
  ↔ codes (relabel_column col) !! m = Some g.
Proof.
  intros Hl. rewrite relabel_column_codes, list_lookup_fmap.
  destruct (col !! m) as [v|] eqn:Hm; simpl.
  - erewrite table_label_eq by done. split.
    + by intros [= ->%py_str_inj].
    + by intros [= ->].
  - unfold table_label, relabel. rewrite list_lookup_fmap, Hl. simpl.
    unfold cat_values. rewrite list_lookup_fmap, relabel_column_codes,
      list_lookup_fmap, Hm. done.
Qed.

Lemma summed_groups_cooccur raw l col0 coll g0 gl :
  raw !! 0 = Some col0 → raw !! l = Some coll →
  g0 ∈ summed_groups (codes (relabel_column col0))
         (codes (relabel_column coll)) (length (np_unique col0)) gl
  ↔ cooccur raw l g0 gl.
Proof.
  intros H0 Hl. unfold summed_groups, cooccur.
  rewrite list_elem_of_filter, pair_count_pos, elem_of_seq.
  split.
  - intros [Hz _]. apply elem_of_lookup_zip_with in Hz as (m & x & y & [= <- <-] & Hx & Hy).
    exists m. by rewrite !table_label_code.
  - intros (m & Hx & Hy).
    rewrite table_label_code in Hx by done.
    rewrite table_label_code in Hy by done. split.
    + apply elem_of_lookup_zip_with. eauto 10.
    + split; [lia|]. simpl.
      rewrite relabel_column_codes, list_lookup_fmap in Hx.
      destruct (col0 !! m) as [v|] eqn:Hm; simplify_eq/=.
      apply index_of_lt, elem_of_np_unique. by eapply list_elem_of_lookup_2.
Qed.

Lemma level_name_inj key : Inj eq eq (level_name key).
Proof.
  intros i j H. unfold level_name in H.
  apply String.app_inj in H. by apply py_str_inj.
Qed.

Lemma filter_imap_named {A} (f : nat → string) (cols : list A) l c :
  Inj eq eq f → cols !! l = Some c →
  filter (λ p, p.1 = f l) (imap (λ i c, (f i, c)) cols) = [(f l, c)].
Proof.
  revert f l. induction cols as [|y cols IH]; intros f l Hf Hl; [done|].
  simpl. destruct l as [|l]; simplify_eq/=.
  - rewrite filter_cons_True by done. f_equal.
    apply filter_none, Forall_forall. intros p Hp Hn.
    apply elem_of_lookup_imap in Hp as (i & z & -> & _).
    simpl in Hn. by apply Hf in Hn.
  - rewrite filter_cons_False by (simpl; intros ?%Hf; done).
    apply (IH (f ∘ S)); [|done]. intros ?? ?%Hf. by simplify_eq.
Qed.

Lemma df_loc_name_levels key cols l c :
  cols !! l = Some c →
  df_loc (name_levels key cols) (level_name key l) = Ok c.
Proof.
  intros Hl. unfold df_loc, name_levels.
  by rewrite (filter_imap_named (level_name key) cols l c
                (level_name_inj key) Hl).
Qed.

Lemma sorted_lt_ext (l k : list nat) :
  StronglySorted lt l → StronglySorted lt k → (∀ x, x ∈ l ↔ x ∈ k) → l = k.
Proof.
  intros Hl. revert k. induction Hl as [|x l Hl IH Hx]; intros k Hk H.
  - destruct k as [|y k]; [done|].
    exfalso. eapply elem_of_nil, H, list_elem_of_here.
  - destruct Hk as [|y k Hk Hy].
    { exfalso. eapply elem_of_nil, H, list_elem_of_here. }
    rewrite Forall_forall in Hx, Hy.
    assert (x = y) as ->.
    { pose proof (proj1 (H x) (list_elem_of_here _ _)) as H1.
      pose proof (proj2 (H y) (list_elem_of_here _ _)) as H2.
      apply elem_of_cons in H1 as [?|H1]; [done|].
      apply elem_of_cons in H2 as [?|H2]; [done|].
      apply Hy in H1. apply Hx in H2. lia. }
    f_equal. apply IH; [done|]. intros z. split; intros Hz.
    + pose proof (proj1 (H z) (list_elem_of_further _ _ _ Hz)) as H1.
      apply elem_of_cons in H1 as [->|?]; [|done]. apply Hx in Hz. lia.
    + pose proof (proj2 (H z) (list_elem_of_further _ _ _ Hz)) as H1.
      apply elem_of_cons in H1 as [->|?]; [|done]. apply Hy in Hz. lia.
Qed.

(** C1 (Marginal Aggregator exactness).  For a raw table whose level-0 and
    level-[l] columns label the same nodes, and a count matrix [c0] with a
    column for every level-0 group, lines 348-355 return a matrix with one
    column per level-[l] group and one row per row of [c0]; its entry for
    node [n] and group [gl] is the sum of [c0[n, g0]] over exactly the
    level-0 groups [g0] that share a node with [gl].  In particular, when
    those are the groups 0 and 2, the entry is [c0[n, 0] + c0[n, 2]]. *)
Theorem marginal_aggregator_exact (key : string) (raw : list (list Z))
    (l : nat) (col0 coll : list Z) (c0 : ndarray) :
  1 ≤ l →
  raw !! 0 = Some col0 → raw !! l = Some coll →
  length col0 = length coll →
  n_groups raw 0 ≤ ncols c0 →
  ∃ cl,
    level_marginals key c0 (name_levels key (relabel raw)) (level_name key l)
      = Ok cl
    ∧ ncols cl = n_groups raw l
    ∧ nrows cl = nrows c0
    ∧ ∀ n row gl, rows c0 !! n = Some row → gl < n_groups raw l →
        (∃ G0, StronglySorted lt G0
               ∧ (∀ g0, g0 ∈ G0 ↔ cooccur raw l g0 gl)
               ∧ cell cl n gl
                 = Some (foldr Z.add 0%Z ((λ g0, nth g0 row 0%Z) <$> G0)))
        ∧ ((∀ g0, cooccur raw l g0 gl ↔ g0 = 0 ∨ g0 = 2) →
           cell cl n gl = Some (nth 0 row 0 + nth 2 row 0)%Z).
Proof.
  intros _ H0 Hl Hlen Hc0. unfold n_groups in *. rewrite H0 in Hc0. rewrite Hl.
  rewrite <- np_unique_length in *.
  destruct (derive_level_relabel c0 col0 coll Hlen Hc0)
    as (cl & Hcl & Hnc & Hnr & Hcell).
  exists cl. unfold level_marginals.
  rewrite (df_loc_name_levels key (relabel raw) 0 (relabel_column col0))
    by (unfold relabel; by rewrite list_lookup_fmap, H0).
  rewrite (df_loc_name_levels key (relabel raw) l (relabel_column coll))
    by (unfold relabel; by rewrite list_lookup_fmap, Hl).
  simpl. split; [done|]. split; [done|]. split; [done|].
  intros n row gl Hn Hgl. specialize (Hcell n row gl Hn Hgl).
  set (G0 := summed_groups _ _ _ gl) in Hcell.
  assert (∀ g0, g0 ∈ G0 ↔ cooccur raw l g0 gl) as HG
    by (intros g0; by apply summed_groups_cooccur).
  split.
  - exists G0. split; [apply summed_groups_sorted|]. done.
  - intros Hex. assert (G0 = [0; 2]) as HG0.
    { apply sorted_lt_ext; [apply summed_groups_sorted| |].
      - repeat constructor; lia.
      - intros g0. rewrite HG, Hex, !elem_of_cons, elem_of_nil. tauto. }
    rewrite Hcell, HG0. unfold group_sum. simpl. f_equal. lia.
Qed.

(** The table [six_nodes]: the level-1 group ['1'] (raw id 7) consists of
    the level-0 groups 0 and 2. *)
Lemma marginal_aggregator_exact_witness :
  ∃ cl, level_marginals "nsbm" six_nodes_c0
          (name_levels "nsbm" (relabel six_nodes)) "nsbm_level_1" = Ok cl
        ∧ cell cl 0 1 = Some 9%Z
        ∧ cell cl 3 1 = Some 8%Z.
Proof.
  destruct (marginal_aggregator_exact "nsbm" six_nodes 1
              [0; 1; 2; 0; 2; 1]%Z [7; 3; 7; 7; 7; 3]%Z six_nodes_c0)
    as (cl & Hcl & _ & _ & Hcell);
    [lia|reflexivity|reflexivity|reflexivity|vm_compute; lia|].
  assert (∀ g0, cooccur six_nodes 1 g0 1 ↔ g0 = 0 ∨ g0 = 2) as Hco.
  { intros g0. split.
    - intros (m & H0 & H1).
      rewrite (table_label_code six_nodes 0 [0; 1; 2; 0; 2; 1]%Z) in H0
        by reflexivity.
      rewrite (table_label_code six_nodes 1 [7; 3; 7; 7; 7; 3]%Z) in H1
        by reflexivity.
      vm_compute in H0, H1.
      destruct m as [|[|[|[|[|[|m]]]]]]; simplify_eq; auto.
    - intros [-> | ->]; [exists 0|exists 2]; split; reflexivity. }
  exists cl. split; [exact Hcl|]. split.
  - apply (proj2 (Hcell 0 [5; 1; 4]%Z 1 eq_refl ltac:(vm_compute; lia)) Hco).
  - apply (proj2 (Hcell 3 [6; 2; 2]%Z 1 eq_refl ltac:(vm_compute; lia)) Hco).
Defined.

(** ** [np.where] and [np.max] *)

Lemma elem_of_where_from {A} (p : A → bool) k (l : list A) i :
  i ∈ where_from p k l ↔ ∃ v, k ≤ i ∧ l !! (i - k) = Some v ∧ p v = true.
Proof.
  revert k. induction l as [|x l IH]; intros k; simpl.
  - rewrite elem_of_nil. split; [done|]. by intros (v & _ & ? & _).
  - assert (i ∈ where_from p (S k) l ↔
            ∃ v, k ≤ i ∧ (x :: l) !! (i - k) = Some v ∧ p v = true ∧ i ≠ k) as Ht.
    { rewrite IH. split.
      - intros (v & Hk & Hv & Hp). exists v.
        replace (i - k) with (S (i - S k)) by lia. repeat split; [lia|done..|lia].
      - intros (v & Hk & Hv & Hp & Hne). exists v.
        replace (i - k) with (S (i - S k)) in Hv by lia. repeat split; [lia|done..]. }
    destruct (p x) eqn:Hx.
    + rewrite elem_of_cons, Ht. split.
      * intros [->|(v & ? & ? & ? & _)]; [|by eauto].
        exists x. rewrite Nat.sub_diag. done.
      * intros (v & Hk & Hv & Hp). destruct (decide (i = k)) as [->|]; [by left|].
        right. eauto 10.
    + rewrite Ht. split.
      * intros (v & ? & ? & ? & _). eauto.
      * intros (v & Hk & Hv & Hp). exists v. repeat split; [done..|].
        intros ->. rewrite Nat.sub_diag in Hv. simplify_eq/=. congruence.
Qed.

Lemma elem_of_np_where {A} (p : A → bool) (l : list A) i :
  i ∈ np_where p l ↔ ∃ v, l !! i = Some v ∧ p v = true.
Proof.
  unfold np_where. rewrite elem_of_where_from.
  rewrite Nat.sub_0_r. split.
  - intros (v & _ & ? & ?). eauto.
  - intros (v & ? & ?). exists v. split; [lia|done].
Qed.

Lemma foldl_max_spec x (t : list nat) :
  foldl Nat.max x t ∈ x :: t ∧ Forall (λ y, y ≤ foldl Nat.max x t) (x :: t).
Proof.
  revert x. induction t as [|y t IH]; intros x; simpl.
  - split; [apply list_elem_of_here|]. by repeat constructor.
  - destruct (IH (Nat.max x y)) as [Hin Hall].
    apply Forall_cons in Hall as [Hm Hall]. split.
    + apply elem_of_cons in Hin as [Hin|Hin].
      * rewrite Hin. destruct (Nat.max_spec x y) as [[_ ->]|[_ ->]].
        -- apply list_elem_of_further, list_elem_of_here.
        -- apply list_elem_of_here.
      * by do 2 apply list_elem_of_further.
    + constructor; [lia|]. constructor; [lia|done].
Qed.

Lemma np_max_spec (l : list nat) m :
  np_max l = Ok m → m ∈ l ∧ Forall (λ y, y ≤ m) l.
Proof.
  destruct l as [|x t]; [done|]. intros [= <-]. apply foldl_max_spec.
Qed.

Lemma np_max_ok (l : list nat) x : x ∈ l → ∃ m, np_max l = Ok m.
Proof. destruct l; [by intros ?%elem_of_nil|]. simpl. eauto. Qed.

(** ** Trimming *)

Lemma trim_highest (acc : list Z) (k : nat) :
  (∃ v, acc !! k = Some v ∧ (0 < v)%Z) →
  (∀ j v, acc !! j = Some v → k < j → (v ≤ 0)%Z) →
  trim_level_marginals acc = Ok (take (k + 1) acc).
Proof.
  intros (v & Hk & Hv) Hhigh. unfold trim_level_marginals.
  set (idx := S <$> np_where _ acc).
  assert (S k ∈ idx) as Hin.
  { apply list_elem_of_fmap. exists k. split; [done|].
    apply elem_of_np_where. exists v. split; [done|]. by apply Z.ltb_lt. }
  destruct (np_max_ok idx _ Hin) as [m Hm]. rewrite Hm. simpl.
  apply np_max_spec in Hm as [Hmin Hall].
  rewrite Forall_forall in Hall. apply Hall in Hin.
  apply list_elem_of_fmap in Hmin as (i & -> & Hi).
  apply elem_of_np_where in Hi as (u & Hu & Hpos). apply Z.ltb_lt in Hpos.
  assert (i = k) as ->.
  { destruct (decide (k < i)) as [Hlt|]; [|lia].
    specialize (Hhigh i u Hu Hlt). lia. }
  by rewrite Nat.add_1_r.
Qed.

(** C6 (group-marginal trimming, as amended).  For an accumulator of counts
    whose highest nonzero entry is at index [k], lines 364-365 return the
    prefix of length [k + 1]; a vector whose nonzero entries are exactly at
    the indices 3 and 7 is trimmed to length 8.  For an accumulator without
    a nonzero entry the index array is empty and [np.max] raises
    [ValueError]: there is no zero-length result. *)
Theorem trim_group_marginals_prefix (acc : list Z) :
  Forall (λ v, (0 ≤ v)%Z) acc →
  (∀ k, (∃ v, acc !! k = Some v ∧ v ≠ 0%Z) →
        (∀ j v, acc !! j = Some v → k < j → v = 0%Z) →
        trim_level_marginals acc = Ok (take (k + 1) acc)
        ∧ length (take (k + 1) acc) = k + 1)
  ∧ (7 < length acc →
     (∀ j v, acc !! j = Some v → (v ≠ 0%Z ↔ j = 3 ∨ j = 7)) →
     ∃ t, trim_level_marginals acc = Ok t ∧ length t = 8)
  ∧ (Forall (λ v, v = 0%Z) acc →
     trim_level_marginals acc
     = Raise (ValueError
         "zero-size array to reduction operation maximum which has no identity")).
Proof.
  intros Hnn. rewrite Forall_forall in Hnn.
  assert (∀ k, (∃ v, acc !! k = Some v ∧ v ≠ 0%Z) →
               (∀ j v, acc !! j = Some v → k < j → v = 0%Z) →
               trim_level_marginals acc = Ok (take (k + 1) acc)
               ∧ length (take (k + 1) acc) = k + 1) as Hgen.
  { intros k (v & Hk & Hv) Hhigh. split.
    - apply trim_highest.
      + exists v. split; [done|].
        assert (0 ≤ v)%Z by (eapply Hnn, list_elem_of_lookup_2; done). lia.
      + intros j u Hu Hlt. rewrite (Hhigh j u Hu Hlt). lia.
    - rewrite length_take. apply lookup_lt_Some in Hk. lia. }
  split; [exact Hgen|]. split.
  - intros H7 H37. destruct (lookup_lt_is_Some_2 acc 7 H7) as [u Hu].
    exists (take (7 + 1) acc). apply Hgen.
    + exists u. split; [done|]. apply (H37 7 u Hu). by right.
    + intros j v Hj Hlt. destruct (decide (v = 0%Z)) as [|Hv]; [done|].
      apply (H37 j v Hj) in Hv. lia.
  - intros Hzero. unfold trim_level_marginals.
    assert (np_where (λ v, (0 <? v)%Z) acc = []) as ->; [|done].
    destruct (np_where _ acc) as [|i idx] eqn:Hw; [done|]. exfalso.
    assert (i ∈ np_where (λ v, (0 <? v)%Z) acc) as Hi
      by (rewrite Hw; apply list_elem_of_here).
    apply elem_of_np_where in Hi as (v & Hv & Hpos).
    eapply Forall_lookup_1 in Hzero; [|done]. simpl in Hzero. by subst.
Qed.

(** Ten entries, nonzero at the indices 3 and 7. *)
Lemma trim_group_marginals_prefix_witness :
  trim_level_marginals [0; 0; 0; 2; 0; 0; 0; 5; 0; 0]%Z
  = Ok [0; 0; 0; 2; 0; 0; 0; 5]%Z.
Proof.
  apply (proj1 (trim_group_marginals_prefix [0; 0; 0; 2; 0; 0; 0; 5; 0; 0]%Z
                  ltac:(repeat constructor; lia)) 7).
  - exists 5%Z. split; [reflexivity|lia].
  - intros j v Hj Hlt.
    do 8 (destruct j as [|j]; [lia|]).
    do 2 (destruct j as [|j]; [by injection Hj|]). discriminate Hj.
Defined.

(** [np.max] of the empty index array raises.  The drivers come to it when
    the collecting equilibration never invokes the callback; the level
    columns are in [adata.obs] by then. *)
Lemma trim_all_zero_counterexample :
  trim_level_marginals [0; 0; 0; 0]%Z ≠ Ok []
  ∧ is_raise (trim_level_marginals [0; 0; 0; 0]%Z) = true
  ∧ result (nested_model stub_env no_sweeps_params two_cells (stub_world0 0))
    = Raise (ValueError
        "zero-size array to reduction operation maximum which has no identity")
  ∧ result (fast_model stub_env no_sweeps_params two_cells (stub_world0 0))
    = Raise (ValueError
        "zero-size array to reduction operation maximum which has no identity")
  ∧ length (obs (caller_adata
                   (nested_model stub_env no_sweeps_params two_cells
                      (stub_world0 0)))) = 9.
Proof.
  split; [discriminate|]. split; [reflexivity|].
  split; [by vm_compute|]. split; by vm_compute.
Qed.

(** ** Padding *)

Lemma pad_bs_depth (bs : list (list Z)) (hierarchy_length : Z) :
  Z.of_nat (length (pad_bs bs hierarchy_length))
  = Z.max (Z.of_nat (length bs)) hierarchy_length
  ∧ take (length bs) (pad_bs bs hierarchy_length) = bs
  ∧ drop (length bs) (pad_bs bs hierarchy_length)
    = replicate (length (pad_bs bs hierarchy_length) - length bs) [0%Z].
Proof.
  unfold pad_bs. destruct (Z.ltb_spec (Z.of_nat (length bs)) hierarchy_length).
  - rewrite length_app, length_replicate, take_app_length, drop_app_length.
    repeat split; [lia|]. f_equal. lia.
  - rewrite firstn_all, drop_all, Nat.sub_diag. repeat split. lia.
Qed.

(** ** The accumulators a collection leaves *)

Lemma trim_marked v : marked v → ∃ t, trim_level_marginals v = Ok t.
Proof.
  intros [_ (k & c & Hk & Hc)]. unfold trim_level_marginals.
  destruct (np_max_ok (S <$> np_where (λ v, (0 <? v)%Z) v) (S k)) as [m ->].
  - apply list_elem_of_fmap. exists k. split; [done|].
    apply elem_of_np_where. exists c. split; [done|]. by apply Z.ltb_lt.
  - simpl. eauto.
Qed.

Lemma bump_spec gm l B gm' :
  bump gm l B = Ok gm' →
  ∃ v c, gm !! l = Some v ∧ v !! B = Some c
         ∧ gm' = <[l := <[B := (c + 1)%Z]> v]> gm.
Proof.
  unfold bump. destruct (gm !! l) as [v|] eqn:Hl; [|done].
  destruct (v !! B) as [c|] eqn:HB; [|done]. intros [= <-]. by exists v, c.
Qed.

Lemma bump_marks gm l B gm' :
  Forall (Forall (λ c, (0 ≤ c)%Z)) gm →
  bump gm l B = Ok gm' →
  length gm' = length gm
  ∧ Forall (Forall (λ c, (0 ≤ c)%Z)) gm'
  ∧ (∃ v, gm' !! l = Some v ∧ marked v)
  ∧ ∀ j v, j ≠ l → gm !! j = Some v → gm' !! j = Some v.
Proof.
  intros Hnn (v & c & Hl & HB & ->)%bump_spec.
  assert (Forall (λ c, (0 ≤ c)%Z) v) as Hv
    by (eapply Forall_lookup_1 in Hnn; done).
  assert (0 ≤ c)%Z as Hc by (eapply Forall_lookup_1 in Hv; done).
  assert (Forall (λ c, (0 ≤ c)%Z) (<[B := (c + 1)%Z]> v)) as Hv'
    by (apply Forall_insert; [done|lia]).
  split; [by rewrite length_insert|]. split; [by apply Forall_insert|]. split.
  - exists (<[B := (c + 1)%Z]> v). split.
    + apply list_lookup_insert_eq. by eapply lookup_lt_Some.
    + split; [done|]. exists B, (c + 1)%Z. split; [|lia].
      apply list_lookup_insert_eq. by eapply lookup_lt_Some.
  - intros j u Hj Hu. by rewrite list_lookup_insert_ne.
Qed.

Lemma bumps_mark (pairs : list (nat * nat)) gm gm' :
  Forall (Forall (λ c, (0 ≤ c)%Z)) gm →
  NoDup pairs.*1 →
  foldl (λ acc lB, g ← acc; bump g lB.1 lB.2) (Ok gm) pairs = Ok gm' →
  length gm' = length gm
  ∧ Forall (Forall (λ c, (0 ≤ c)%Z)) gm'
  ∧ (∀ l, l ∈ pairs.*1 → ∃ v, gm' !! l = Some v ∧ marked v)
  ∧ ∀ j v, j ∉ pairs.*1 → gm !! j = Some v → gm' !! j = Some v.
Proof.
  revert gm. induction pairs as [|[l B] pairs IH]; intros gm Hnn Hnd; simpl.
  - intros [= <-]. repeat split; [done|by intros ? ?%elem_of_nil|done].
  - rewrite fmap_cons in Hnd. apply NoDup_cons in Hnd as [Hl Hnd].
    destruct (bump gm l B) as [e|gm1] eqn:Hb; simpl.
    { intros Hf. exfalso. clear -Hf. induction pairs; simpl in Hf; [done|auto]. }
    intros Hf.
    destruct (bump_marks gm l B gm1 Hnn Hb) as (Hlen1 & Hnn1 & Hm1 & Hk1).
    destruct (IH gm1 Hnn1 Hnd Hf) as (Hlen & Hnn' & Hm & Hk).
    split; [congruence|]. split; [done|]. split.
    + intros j Hj. apply elem_of_cons in Hj as [->|Hj]; [|by apply Hm].
      destruct Hm1 as (v & Hv & Hmv). exists v. split; [|done]. by apply Hk.
    + intros j v Hj Hv. apply not_elem_of_cons in Hj as [Hjl Hj].
      apply Hk; [done|]. by apply Hk1.
Qed.

(** After one invocation of the callback on accumulators of counts, one per
    level, every accumulator holds a positive entry: every trimming of
    lines 363-365 returns. *)
Lemma collect_callback_marks gm Bs gm' :
  Forall (Forall (λ c, (0 ≤ c)%Z)) gm →
  length Bs = length gm →
  collect_callback gm Bs = Ok gm' →
  Forall marked gm'
  ∧ Forall (λ v, ∃ t, trim_level_marginals v = Ok t) gm'.
Proof.
  intros Hnn Hlen Hcb. unfold collect_callback in Hcb.
  assert ((imap pair Bs).*1 = seq 0 (length Bs)) as Hfst.
  { apply list_eq. intros i.
    rewrite list_lookup_fmap, list_lookup_imap.
    destruct (Bs !! i) eqn:Hi; simpl.
    - by rewrite lookup_seq_lt by (by eapply lookup_lt_Some).
    - by rewrite lookup_seq_ge by (by apply lookup_ge_None). }
  destruct (bumps_mark (imap pair Bs) gm gm' Hnn) as (Hl & _ & Hm & _);
    [rewrite Hfst; apply NoDup_seq|done|].
  assert (Forall marked gm') as Hall.
  { apply Forall_lookup. intros l v Hv.
    destruct (Hm l) as (v' & Hv' & Hmv); [|congruence].
    rewrite Hfst. apply elem_of_seq. apply lookup_lt_Some in Hv. lia. }
  split; [done|]. eapply Forall_impl; [exact Hall|]. apply trim_marked.
Qed.

(** ** The pruner *)

Lemma mi_groups_lookup ami (groups : DataFrame) i :
  i + 1 < length groups →
  mi_groups ami groups !! i
  = Some (ami (df_iloc groups i) (df_iloc groups (i + 1))).
Proof.
  intros Hi. unfold mi_groups.
  rewrite list_lookup_fmap, lookup_seq_lt by lia. simpl.
  do 3 f_equal; lia.
Qed.

Lemma mi_groups_length ami (groups : DataFrame) :
  length (mi_groups ami groups) = length groups - 1.
Proof. unfold mi_groups. by rewrite length_fmap, length_seq. Qed.

Lemma elem_of_pruned_positions ami (groups : DataFrame) i :
  i ∈ pruned_positions ami groups false
  ↔ i + 1 < length groups
    ∧ SFeqb (ami (df_iloc groups i) (df_iloc groups (i + 1))) float_one = true.
Proof.
  unfold pruned_positions. rewrite elem_of_np_where. split.
  - intros (v & Hv & Hone).
    assert (i + 1 < length groups) as Hi.
    { apply lookup_lt_Some in Hv. rewrite mi_groups_length in Hv. lia. }
    rewrite mi_groups_lookup in Hv by done. by simplify_eq.
  - intros [Hi Hone]. eexists. by rewrite mi_groups_lookup.
Qed.

Lemma omap_lookup_all {A} (l : list A) (idx : list nat) :
  Forall (λ i, i < length l) idx →
  Forall2 (λ i x, l !! i = Some x) idx (omap (λ i, l !! i) idx).
Proof.
  induction 1 as [|i idx Hi Hidx IH]; simpl; [constructor|].
  destruct (lookup_lt_is_Some_2 l i Hi) as [x Hx]. rewrite Hx.
  by constructor.
Qed.

(** C2 (Level Pruner selection, as amended).  [prune_groups] with
    [inverse=False] picks the position [i] exactly when the adjusted mutual
    information of the columns [i] and [i + 1] compares equal to [1], and
    returns the names of the columns at the picked positions: the earlier
    level of each such pair.  When the score is never [1] on two columns
    that group the nodes differently, a pair of levels [(l - 1, l)] that
    differ in grouping contributes no position. *)
Theorem prune_groups_flags_earlier
    (ami : list (option label) → list (option label) → float)
    (groups : DataFrame) :
  (∀ i, i ∈ pruned_positions ami groups false
        ↔ i + 1 < length groups
          ∧ SFeqb (ami (df_iloc groups i) (df_iloc groups (i + 1))) float_one
            = true)
  ∧ Forall2 (λ i name, df_columns groups !! i = Some name)
      (pruned_positions ami groups false) (prune_groups ami groups false)
  ∧ ((∀ a b, same_grouping a b = false → SFeqb (ami a b) float_one = false) →
     ∀ l, 1 ≤ l →
       same_grouping (df_iloc groups (l - 1)) (df_iloc groups l) = false →
       l - 1 ∉ pruned_positions ami groups false).
Proof.
  split; [apply elem_of_pruned_positions|]. split.
  - unfold prune_groups. apply omap_lookup_all, Forall_forall.
    intros i [Hi _]%elem_of_pruned_positions.
    unfold df_columns. rewrite length_fmap. lia.
  - intros Hami l Hl Hdiff [_ Hone]%elem_of_pruned_positions.
    replace (l - 1 + 1) with l in Hone by lia.
    rewrite Hami in Hone by done. discriminate.
Qed.

(** Two levels with the same grouping: the score is [1.0], and the name
    returned is that of level 0. *)
Lemma prune_groups_later_counterexample :
  SFeqb (ami_exact (df_iloc twin_levels 0) (df_iloc twin_levels 1)) float_one
    = true
  ∧ prune_groups ami_exact twin_levels false = ["nsbm_level_0"]
  ∧ "nsbm_level_1" ∉ prune_groups ami_exact twin_levels false.
Proof.
  split; [reflexivity|]. split; [reflexivity|].
  intros H. vm_compute in H. apply list_elem_of_singleton in H. discriminate H.
Qed.

(** Level 0 splits the two nodes, level 1 does not. *)
Lemma prune_groups_flags_earlier_witness :
  0 ∉ pruned_positions ami_exact
        (name_levels "nsbm" (relabel [[0; 1]%Z; [0; 0]%Z])) false.
Proof.
  apply (proj2 (proj2 (prune_groups_flags_earlier ami_exact
                  (name_levels "nsbm" (relabel [[0; 1]%Z; [0; 0]%Z]))))
           ltac:(intros a b H; unfold ami_exact; rewrite H; reflexivity)
           1 ltac:(lia)).
  reflexivity.
Defined.

(** ** The output columns *)

Lemma prefix_app (p s : string) : String.prefix p (p +:+ s) = true.
Proof.
  induction p as [|a p IH]; simpl; [by destruct s|].
  destruct (Ascii.ascii_dec a a); [done|congruence].
Qed.

Lemma startswith_level_name key l :
  startswith (level_name key l) (level_prefix key) = true.
Proof. apply prefix_app. Qed.

Lemma elem_of_df_loc_list (df : DataFrame) keys c :
  c ∈ df_loc_list df keys ↔ c.1 ∈ keys ∧ c ∈ df.
Proof.
  unfold df_loc_list. rewrite list_elem_of_bind. split.
  - intros (k & [-> ?]%list_elem_of_filter & ?). done.
  - intros [? ?]. exists c.1. split; [|done]. by apply list_elem_of_filter.
Qed.

Lemma level_columns_kept key (obs : DataFrame) :
  level_columns key (df_loc_list obs (keep_columns key obs)) = [].
Proof.
  apply filter_none, Forall_forall. intros c [Hk _]%elem_of_df_loc_list.
  apply list_elem_of_filter in Hk as [Hk _]. by rewrite Hk.
Qed.

Lemma name_levels_columns key cols :
  df_columns (name_levels key cols) = level_name key <$> seq 0 (length cols).
Proof.
  unfold df_columns, name_levels. apply list_eq. intros i.
  rewrite !list_lookup_fmap, list_lookup_imap.
  destruct (cols !! i) eqn:Hi; simpl.
  - rewrite lookup_seq_lt by (by eapply lookup_lt_Some). done.
  - rewrite lookup_seq_ge by (by apply lookup_ge_None). done.
Qed.

Lemma attached_sublist rl (groups : DataFrame) : attached rl groups `sublist_of` groups.
Proof. destruct rl; simpl; [done|]. apply sublist_drop. Qed.

Lemma attached_NoDup key rl cols :
  NoDup (df_columns (attached rl (name_levels key cols))).
Proof.
  eapply sublist_NoDup; [|apply fmap_sublist, attached_sublist].
  fold (df_columns (name_levels key cols)). rewrite name_levels_columns.
  apply NoDup_fmap_2; [apply level_name_inj|apply NoDup_seq].
Qed.

Lemma level_columns_attached key rl cols :
  level_columns key (attached rl (name_levels key cols))
  = attached rl (name_levels key cols).
Proof.
  apply filter_all, Forall_forall. intros c Hc.
  eapply elem_of_sublist in Hc; [|apply attached_sublist].
  apply elem_of_lookup_imap in Hc as (i & y & -> & _).
  apply startswith_level_name.
Qed.

Lemma level_columns_finalize key rl cols (obs : DataFrame) :
  level_columns key (finalize_obs key rl (name_levels key cols) obs)
  = attached rl (name_levels key cols).
Proof.
  unfold finalize_obs, level_columns. rewrite filter_app.
  fold (level_columns key (df_loc_list obs (keep_columns key obs))).
  fold (level_columns key (attached rl (name_levels key cols))).
  by rewrite level_columns_kept, level_columns_attached.
Qed.

Lemma filter_key_unique (df : DataFrame) c :
  NoDup (df_columns df) → c ∈ df → filter (λ c', c'.1 = c.1) df = [c].
Proof.
  unfold df_columns. induction df as [|[k x] df IH]; intros Hnd Hc.
  - by apply elem_of_nil in Hc.
  - rewrite fmap_cons in Hnd. apply NoDup_cons in Hnd as [Hk Hnd].
    apply elem_of_cons in Hc as [->|Hc].
    + rewrite filter_cons_True by done. f_equal.
      apply filter_none, Forall_forall. intros c' Hc' Heq. apply Hk.
      simpl in *. rewrite <- Heq. by apply (list_elem_of_fmap_2 fst).
    + rewrite filter_cons_False; [by apply IH|].
      simpl in *. intros Heq. apply Hk. rewrite Heq.
      by apply (list_elem_of_fmap_2 fst).
Qed.

Lemma df_loc_list_keep_in key (df df' : DataFrame) :
  (∀ c, c ∈ df → filter (λ c', c'.1 = c.1) df' = [c]) →
  df_loc_list df' (keep_columns key df)
  = filter (λ c, startswith c.1 (level_prefix key) = false) df.
Proof.
  unfold df_loc_list, keep_columns, df_columns.
  induction df as [|[k x] df IH]; intros Hdf; [done|].
  rewrite fmap_cons. simpl.
  assert (∀ c, c ∈ df → filter (λ c', c'.1 = c.1) df' = [c]) as Hdf'
    by (intros c Hc; by apply Hdf, list_elem_of_further).
  destruct (startswith k (level_prefix key)) eqn:Hk.
  - rewrite !filter_cons_False by (simpl; congruence). by apply IH.
  - rewrite !filter_cons_True by done.
    pose proof (Hdf (k, x) (list_elem_of_here _ _)) as Hkx. simpl in Hkx.
    rewrite bind_cons, Hkx, IH by done. done.
Qed.

Lemma df_loc_list_keep key (obs : DataFrame) :
  NoDup (df_columns obs) →
  df_loc_list obs (keep_columns key obs)
  = filter (λ c, startswith c.1 (level_prefix key) = false) obs.
Proof.
  intros Hnd. apply df_loc_list_keep_in.
  intros c Hc. by apply filter_key_unique.
Qed.

Lemma finalize_obs_NoDup key rl cols (obs : DataFrame) :
  NoDup (df_columns obs) →
  NoDup (df_columns (finalize_obs key rl (name_levels key cols) obs)).
Proof.
  intros Hnd. unfold finalize_obs. rewrite df_loc_list_keep by done.
  unfold df_columns. rewrite fmap_app. apply NoDup_app. split; [|split].
  - eapply sublist_NoDup; [exact Hnd|]. apply fmap_sublist, sublist_filter.
  - intros k Hk Hk'.
    apply list_elem_of_fmap in Hk as (c & -> & Hc).
    apply list_elem_of_filter in Hc as [Hc _].
    apply list_elem_of_fmap in Hk' as (c' & Heq & Hc').
    eapply elem_of_sublist in Hc'; [|apply attached_sublist].
    apply elem_of_lookup_imap in Hc' as (i & y & -> & _).
    simpl in Heq. rewrite Heq, startswith_level_name in Hc. discriminate.
  - apply attached_NoDup.
Qed.

Lemma kept_not_level key (obs : DataFrame) l :
  level_name key l ∉ df_columns (df_loc_list obs (keep_columns key obs)).
Proof.
  intros (c & Hc & [Hk _]%elem_of_df_loc_list)%list_elem_of_fmap.
  apply list_elem_of_filter in Hk as [Hk _].
  rewrite <- Hc, startswith_level_name in Hk. done.
Qed.

Lemma filter_attached_level key rl cols l c :
  cols !! l = Some c → (rl = false → 1 ≤ l) →
  filter (λ x, x.1 = level_name key l) (attached rl (name_levels key cols))
  = [(level_name key l, c)].
Proof.
  intros Hl Hrl. unfold attached, name_levels. destruct rl.
  - by apply filter_imap_named; [apply level_name_inj|].
  - specialize (Hrl eq_refl). destruct l as [|l]; [lia|].
    destruct cols as [|c0 cols]; [done|]. simpl in Hl. simpl. rewrite drop_0.
    apply (filter_imap_named (level_name key ∘ S) cols l c); [|done].
    intros i j Hij. apply level_name_inj in Hij. lia.
Qed.

Lemma elem_of_attached key rl cols x :
  x ∈ attached rl (name_levels key cols) →
  ∃ l c, cols !! l = Some c ∧ (rl = false → 1 ≤ l) ∧ x = (level_name key l, c).
Proof.
  unfold attached, name_levels. destruct rl.
  - intros (i & y & -> & Hi)%elem_of_lookup_imap. exists i, y. by repeat split.
  - intros [j Hj]%list_elem_of_lookup_1. rewrite lookup_drop in Hj.
    rewrite list_lookup_imap in Hj.
    destruct (cols !! (1 + j)) as [y|] eqn:Hy; simplify_eq/=.
    exists (S j), y. repeat split; [done|]. intros _. lia.
Qed.

(** C8 (Finalize idempotence).  Lines 294-302 keep no column whose name
    starts with the prefix [key_added + "_level_"]; after running them on
    the outcome of an earlier run with the same prefix, the columns with the
    prefix are exactly the level columns attached by the second run, under
    pairwise distinct names: every level of the second table that is
    attached (all of them, or all but level 0) has exactly one column, with
    the labels of that level, and there is no other column with the prefix,
    whatever the earlier run attached; and on a frame with distinct column
    names a second run with the same table changes nothing. *)
Theorem finalize_idempotent (key : string) (rl : bool)
    (cols cols' : list Categorical) (obs : DataFrame) :
  level_columns key (df_loc_list obs (keep_columns key obs)) = []
  ∧ level_columns key
      (finalize_obs key rl (name_levels key cols)
         (finalize_obs key rl (name_levels key cols') obs))
    = attached rl (name_levels key cols)
  ∧ NoDup (df_columns (attached rl (name_levels key cols)))
  ∧ (NoDup (df_columns obs) →
     finalize_obs key rl (name_levels key cols)
       (finalize_obs key rl (name_levels key cols) obs)
     = finalize_obs key rl (name_levels key cols) obs)
  ∧ (∀ l c, cols !! l = Some c → (rl = false → 1 ≤ l) →
       filter (λ x, x.1 = level_name key l)
         (finalize_obs key rl (name_levels key cols)
            (finalize_obs key rl (name_levels key cols') obs))
       = [(level_name key l, c)])
  ∧ (∀ x, x ∈ finalize_obs key rl (name_levels key cols)
                (finalize_obs key rl (name_levels key cols') obs) →
       startswith x.1 (level_prefix key) = true →
       ∃ l c, cols !! l = Some c ∧ (rl = false → 1 ≤ l)
              ∧ x = (level_name key l, c)).
Proof.
  split; [apply level_columns_kept|].
  split; [apply level_columns_finalize|].
  split; [apply attached_NoDup|].
  split.
  { intros Hnd.
    pose proof (finalize_obs_NoDup key rl cols obs Hnd) as Hnd1.
    unfold finalize_obs at 1. rewrite df_loc_list_keep by done.
    unfold finalize_obs. rewrite df_loc_list_keep by done.
    f_equal. rewrite filter_app. rewrite list_filter_filter.
    rewrite (filter_none _ (attached rl _)); last first.
    { apply Forall_forall. intros c Hc.
      eapply elem_of_sublist in Hc; [|apply attached_sublist].
      apply elem_of_lookup_imap in Hc as (i & y & -> & _).
      simpl. by rewrite startswith_level_name. }
    rewrite app_nil_r. apply list_filter_iff. tauto. }
  split.
  - intros l c Hl Hrl. unfold finalize_obs at 1. rewrite filter_app.
    rewrite (filter_none _ (df_loc_list _ _)); last first.
    { apply Forall_forall. intros x Hx Hname.
      apply (kept_not_level key
               (finalize_obs key rl (name_levels key cols') obs) l).
      rewrite <- Hname. by apply (list_elem_of_fmap_2 fst). }
    by apply filter_attached_level.
  - intros x Hx Hpre. unfold finalize_obs at 1 in Hx.
    apply elem_of_app in Hx as [Hx|Hx]; [|by apply elem_of_attached].
    apply elem_of_df_loc_list in Hx as [Hk _].
    apply list_elem_of_filter in Hk as [Hk _]. congruence.
Qed.

(** A container that already carries [nsbm_level_1] and [nsbm_level_7]:
    after two runs [nsbm_level_1] is there once, with the labels of level
    1, and a second run changes nothing. *)
Lemma finalize_idempotent_witness :
  finalize_obs "nsbm" false (name_levels "nsbm" (relabel six_nodes))
    (finalize_obs "nsbm" false (name_levels "nsbm" (relabel six_nodes))
       (obs annotated_cells))
  = finalize_obs "nsbm" false (name_levels "nsbm" (relabel six_nodes))
      (obs annotated_cells)
  ∧ filter (λ x, x.1 = "nsbm_level_1")
      (finalize_obs "nsbm" false (name_levels "nsbm" (relabel six_nodes))
         (finalize_obs "nsbm" false (name_levels "nsbm" (relabel six_nodes))
            (obs annotated_cells)))
    = [("nsbm_level_1", relabel_column [7; 3; 7; 7; 7; 3]%Z)].
Proof.
  split.
  - apply (proj1 (proj2 (proj2 (proj2
      (finalize_idempotent "nsbm" false (relabel six_nodes)
         (relabel six_nodes) (obs annotated_cells)))))).
    apply (bool_decide_unpack _). vm_compute. exact I.
  - apply (proj1 (proj2 (proj2 (proj2 (proj2
      (finalize_idempotent "nsbm" false (relabel six_nodes)
         (relabel six_nodes) (obs annotated_cells))))))
      1 (relabel_column [7; 3; 7; 7; 7; 3]%Z)).
    + reflexivity.
    + intros _. lia.
Defined.

(** ** Runs *)

Section Runs.
Context {E : Env}.

Lemma run_bind {A B} (m : M E A) (k : A → M E B) s :
  (m ≫= k) s = match m s with
               | (Ok a, s') => k a s'
               | (Raise e, s') => (Raise e, s')
               end.
Proof. reflexivity. Qed.

Lemma run_bind_raise {A B} (m : M E A) (k : A → M E B) s e s' :
  m s = (Raise e, s') → (m ≫= k) s = (Raise e, s').
Proof. intros H. by rewrite run_bind, H. Qed.

Lemma run_bind_ok {A B} (m : M E A) (k : A → M E B) s a s' :
  m s = (Ok a, s') → (m ≫= k) s = k a s'.
Proof. intros H. by rewrite run_bind, H. Qed.

Lemma run_bind_inv {A B} (m : M E A) (k : A → M E B) s b s' :
  (m ≫= k) s = (Ok b, s') → ∃ a s1, m s = (Ok a, s1) ∧ k a s1 = (Ok b, s').
Proof.
  rewrite run_bind. destruct (m s) as [[e|a] s1]; [done|]. eauto.
Qed.

Section Respects.
Context (R : relation (st E)) `{!Reflexive R, !Transitive R}.

Lemma respects_ret {A} (a : A) : respects R (mret a : M E A).
Proof. intros s r s' [= <- <-]. reflexivity. Qed.

Lemma respects_raise {A} e : respects R (raise E e : M E A).
Proof. intros s r s' [= <- <-]. reflexivity. Qed.

Lemma respects_lift {A} (x : res A) : respects R (lift E x).
Proof. intros s r s' [= <- <-]. reflexivity. Qed.

Lemma respects_get : respects R (get_adata E).
Proof. intros s r s' [= <- <-]. reflexivity. Qed.

Lemma respects_from_local {A} name (v : option A) :
  respects R (from_local E name v).
Proof. destruct v; [apply respects_ret|apply respects_raise]. Qed.

Lemma respects_bind {A B} (m : M E A) (k : A → M E B) :
  respects R m → (∀ a, respects R (k a)) → respects R (m ≫= k).
Proof.
  intros Hm Hk s r s'. rewrite run_bind.
  destruct (m s) as [[e|a] s1] eqn:Hs.
  - intros [= <- <-]. by eapply Hm.
  - intros Hka. etrans; [by eapply Hm|by eapply Hk].
Qed.

Lemma respects_for_each {A} (f : A → M E unit) l :
  (∀ x, respects R (f x)) → respects R (for_each E f l).
Proof.
  intros Hf. induction l as [|x l IH]; simpl.
  - apply respects_ret.
  - apply respects_bind; [apply Hf|]. by intros _.
Qed.

Lemma respects_collect {A B} (f : A → M E B) l :
  (∀ x, respects R (f x)) → respects R (collect E f l).
Proof.
  intros Hf. induction l as [|x l IH]; simpl.
  - apply respects_ret.
  - apply respects_bind; [apply Hf|]. intros y.
    apply respects_bind; [apply IH|]. intros ys. apply respects_ret.
Qed.
End Respects.

#[global] Instance same_adata_refl : Reflexive (same_adata (E:=E)).
Proof. by intros s. Qed.
#[global] Instance same_adata_trans : Transitive (same_adata (E:=E)).
Proof. intros s1 s2 s3 H1 H2. unfold same_adata in *. congruence. Qed.

Lemma same_adata_call {A} ev (f : world E → res A * world E) :
  respects same_adata (call E ev f).
Proof.
  intros s r s'. unfold call. destruct (f (ext s)). by intros [= <- <-].
Qed.

#[global] Instance appends_refl P : Reflexive (appends (E:=E) P).
Proof. intros s. exists []. by rewrite app_nil_r. Qed.
#[global] Instance appends_trans P : Transitive (appends (E:=E) P).
Proof.
  intros s1 s2 s3 (e1 & H1 & F1) (e2 & H2 & F2). exists (e1 ++ e2).
  split; [by rewrite H2, H1, app_assoc|by apply Forall_app].
Qed.

Lemma appends_call (P : event → Prop) {A} ev (f : world E → res A * world E) :
  P ev → respects (appends P) (call E ev f).
Proof.
  intros Hev s r s'. unfold call. destruct (f (ext s)). intros [= <- <-].
  exists [ev]. split; [done|]. by repeat constructor.
Qed.

Lemma appends_put P a : respects (appends P) (put_adata E a).
Proof. intros s r s' [= <- <-]. exists []. by rewrite app_nil_r. Qed.

Lemma same_adata_collecting p gm :
  respects same_adata (equilibrate_collecting E p gm).
Proof.
  intros s r s'. unfold equilibrate_collecting.
  destruct (mcmc_equilibrate_callback E _ (ext s)) as [inv [r0 w]].
  destruct (foldl _ _ inv); [by intros [= <- <-]|].
  destruct r0; by intros [= <- <-].
Qed.

Lemma appends_collecting (P : event → Prop) p gm :
  P (EvEquilibrate true) →
  respects (appends P) (equilibrate_collecting E p gm).
Proof.
  intros HP s r s'. unfold equilibrate_collecting.
  destruct (mcmc_equilibrate_callback E _ (ext s)) as [inv [r0 w]].
  assert (appends P s {| ext := w; trace := trace s ++ [EvEquilibrate true];
                         adata := adata s |}) as Happ.
  { exists [EvEquilibrate true]. split; [done|]. by repeat constructor. }
  destruct (foldl _ _ inv); [by intros [= <- <-]|].
  destruct r0; by intros [= <- <-].
Qed.

End Runs.

Ltac respects_step :=
  lazymatch goal with
  | |- respects _ (mbind _ _) => apply respects_bind; [apply _ ..| |intros ?]
  | |- respects _ (mret _) => apply respects_ret; apply _
  | |- respects _ (raise _ _) => apply respects_raise; apply _
  | |- respects _ (lift _ _) => apply respects_lift; apply _
  | |- respects _ (get_adata _) => apply respects_get; apply _
  | |- respects _ (from_local _ _ _) => apply respects_from_local; apply _
  | |- respects _ (for_each _ _ _) =>
      apply respects_for_each; [apply _ ..|intros ?]
  | |- respects _ (collect _ _ _) =>
      apply respects_collect; [apply _ ..|intros ?]
  | |- respects same_adata (call _ _ _) => apply same_adata_call
  | |- respects same_adata (equilibrate_collecting _ _ _) =>
      apply same_adata_collecting
  | |- respects (appends _) (call _ _ _) =>
      apply appends_call; first [done | auto]
  | |- respects (appends _) (put_adata _ _) => apply appends_put
  | |- respects (appends _) (equilibrate_collecting _ _ _) =>
      apply appends_collecting; first [done | auto]
  | |- respects _ (if ?b then _ else _) => destruct b
  | |- respects _ (match ?x with _ => _ end) => destruct x
  end.

Section Phases.
Context {E : Env}.

Lemma prepare_same_adata p :
  respects same_adata (nested_prepare E p)
  ∧ respects same_adata (fast_prepare E p).
Proof.
  split.
  - unfold nested_prepare, import_gt, seed_rngs, check_marginals,
      nested_sample, label_table, build_graph, choose_adjacency, restrict,
      sweep_call, equilibrate_call, collect_group_marginals, project_groups,
      set_index.
    repeat respects_step.
  - unfold fast_prepare, import_gt, seed_rngs, fast_sample, label_table,
      build_graph, choose_adjacency, restrict, equilibrate_call,
      collect_group_marginals, project_groups, set_index.
    repeat respects_step.
Qed.

Lemma seed_rngs_appends (P : event → Prop) seed :
  (∀ s, seed = Some s → s ≠ 0%Z → P (EvNpSeed s) ∧ P (EvGtSeed s)) →
  respects (appends P) (seed_rngs E seed).
Proof.
  intros HP. unfold seed_rngs. destruct seed as [s|]; [|respects_step].
  destruct (Z.eqb_spec s 0); [respects_step|].
  destruct (HP s eq_refl) as [H1 H2]; [done|].
  repeat respects_step.
Qed.

Lemma nested_tail_appends (P : event → Prop) p :
  (∀ ev, is_seeding ev = false → P ev) →
  respects (appends P)
    (check_marginals E p;;
     f ← nested_sample E p;
     groups ← label_table E p (f_graph f) (f_bs f);
     mret (f, groups)).
Proof.
  intros HP.
  unfold check_marginals, nested_sample, label_table, build_graph,
    choose_adjacency, restrict, sweep_call, equilibrate_call,
    collect_group_marginals, project_groups, set_index.
  repeat respects_step.
Qed.

Lemma fast_tail_appends (P : event → Prop) p :
  (∀ ev, is_seeding ev = false → P ev) →
  respects (appends P)
    (f ← fast_sample E p;
     groups ← label_table E p (f_graph f) (f_bs f);
     mret (f, groups)).
Proof.
  intros HP.
  unfold fast_sample, label_table, build_graph, choose_adjacency, restrict,
    equilibrate_call, collect_group_marginals, project_groups, set_index.
  repeat respects_step.
Qed.

Lemma publish_appends (P : event → Prop) p f groups :
  (∀ ev, is_seeding ev = false → P ev) →
  respects (appends P) (nested_publish E p f groups)
  ∧ respects (appends P) (fast_publish E p f groups).
Proof.
  intros HP. split.
  - unfold nested_publish, write_obs, nested_stats, reset_nsbm, level_stats,
      write_mf_entropy, write_state, write_marginals, prune_step,
      final_message, modify_nsbm.
    repeat respects_step.
  - unfold fast_publish, write_obs, fast_stats, reset_nsbm, level_stats,
      write_mf_entropy, write_state, write_marginals, prune_step,
      final_message, modify_nsbm.
    repeat respects_step.
Qed.

Lemma import_appends (P : event → Prop) :
  P EvImport → respects (appends P) (import_gt E).
Proof. intros HP. unfold import_gt. respects_step. Qed.

Lemma drivers_append (P : event → Prop) p :
  (∀ ev, is_seeding ev = false → P ev) →
  (∀ s, random_seed p = Some s → s ≠ 0%Z → P (EvNpSeed s) ∧ P (EvGtSeed s)) →
  respects (appends P) (fg ← nested_prepare E p; nested_publish E p fg.1 fg.2)
  ∧ respects (appends P) (fg ← fast_prepare E p; fast_publish E p fg.1 fg.2).
Proof.
  intros HP Hseed.
  pose proof (seed_rngs_appends P (random_seed p) Hseed) as Hs.
  pose proof (import_appends P (HP EvImport eq_refl)) as Hi.
  split.
  - apply respects_bind;
      [apply _..| |intros fg; exact (proj1 (publish_appends P p _ _ HP))].
    unfold nested_prepare.
    apply respects_bind; [apply _..|exact Hi|intros _].
    apply respects_bind; [apply _..|exact Hs|intros _].
    apply nested_tail_appends, HP.
  - apply respects_bind;
      [apply _..| |intros fg; exact (proj2 (publish_appends P p _ _ HP))].
    unfold fast_prepare.
    apply respects_bind; [apply _..|exact Hi|intros _].
    apply respects_bind; [apply _..|exact Hs|intros _].
    apply fast_tail_appends, HP.
Qed.

(** The events of a run are the trace of its last state. *)
Lemma run_driver_events p (body : M E unit) a w :
  events (run_driver E p body a w) = trace (body (init_state E a w)).2
  ∧ result (run_driver E p body a w)
    = (λ _, if copy p then Some (adata (body (init_state E a w)).2) else None)
        <$> (body (init_state E a w)).1
  ∧ caller_adata (run_driver E p body a w)
    = if copy p then a else adata (body (init_state E a w)).2.
Proof. unfold run_driver. by destruct (body _). Qed.

End Phases.

Section Claims.
Context {E : Env}.

Lemma run_bind_assoc {A B C} (m : M E A) (f : A → M E B) (g : B → M E C) s :
  (m ≫= λ x, f x ≫= g) s = ((m ≫= f) ≫= g) s.
Proof.
  rewrite !run_bind. destruct (m s) as [[e|a] s1]; [done|]. by rewrite run_bind.
Qed.

Lemma preamble_quiet seed :
  respects same_adata (import_gt E;; seed_rngs E seed)
  ∧ respects (appends (λ ev, is_engine_call ev = false))
      (import_gt E;; seed_rngs E seed).
Proof.
  split.
  - unfold import_gt, seed_rngs. repeat respects_step.
  - apply respects_bind; [apply _..|by apply import_appends|intros _].
    apply seed_rngs_appends. by intros s _ _.
Qed.

Lemma nested_body_split p (publish : fitted * DataFrame → M E unit) s :
  (nested_prepare E p ≫= publish) s
  = ((import_gt E;; seed_rngs E (random_seed p))
       ≫= λ _, check_marginals E p
                 ≫= λ _, (f ← nested_sample E p;
                          groups ← label_table E p (f_graph f) (f_bs f);
                          mret (f, groups)) ≫= publish) s.
Proof.
  unfold nested_prepare. rewrite !run_bind.
  destruct (import_gt E s) as [[e|[]] s1]; [done|].
  rewrite !run_bind.
  destruct (seed_rngs E (random_seed p) s1) as [[e|[]] s2]; [done|].
  rewrite !run_bind. by destruct (check_marginals E p s2) as [[e|[]] s3].
Qed.
End Claims.

(** C4 (marginal-collection precondition, as amended).  With
    [collect_marginals=True] and [equilibrate=False], [nested_model] raises
    for every other argument, container and outside world; the caller's
    container is untouched, and the only outside calls made are the import
    of the engine and the seeding of the generators: no graph is built,
    nothing is minimised or sampled.  The check of line 171 comes after the
    import and the seeding: whenever they return, the exception is the
    [ValueError] of line 174; when one of them raises, the call raises that
    exception instead. *)
Theorem marginals_need_equilibrate (E : Env) (p : Kwargs) (a : AnnData)
    (w : world E) :
  collect_marginals p = true → equilibrate p = false →
  is_raise (result (nested_model E p a w)) = true
  ∧ caller_adata (nested_model E p a w) = a
  ∧ Forall (λ ev, is_engine_call ev = false) (events (nested_model E p a w))
  ∧ (∀ s1, (import_gt E;; seed_rngs E (random_seed p)) (init_state E a w)
           = (Ok tt, s1) →
           result (nested_model E p a w) = Raise (ValueError marginals_message)
           ∧ events (nested_model E p a w) = trace s1)
  ∧ ∀ e s1, (import_gt E;; seed_rngs E (random_seed p)) (init_state E a w)
            = (Raise e, s1) →
            result (nested_model E p a w) = Raise e
            ∧ events (nested_model E p a w) = trace s1.
Proof.
  intros Hc He. unfold nested_model.
  destruct (run_driver_events (E:=E) p
              (fg ← nested_prepare E p; nested_publish E p fg.1 fg.2) a w)
    as (-> & -> & ->).
  rewrite nested_body_split, run_bind.
  destruct (preamble_quiet (E:=E) (random_seed p)) as [Hsame Happ].
  destruct ((import_gt E;; seed_rngs E (random_seed p)) (init_state E a w))
    as [[e|[]] s1] eqn:Hpre.
  - specialize (Hsame _ _ _ Hpre). destruct (Happ _ _ _ Hpre) as (evs & Ht & Hev).
    simpl in *. rewrite Hsame, Ht.
    split; [done|]. split; [by destruct (copy p)|]. split; [done|].
    split; [intros s1' [=]|]. by intros e' s1' [= <- <-].
  - specialize (Hsame _ _ _ Hpre). destruct (Happ _ _ _ Hpre) as (evs & Ht & Hev).
    rewrite run_bind. unfold check_marginals. rewrite Hc, He. simpl in *.
    rewrite Hsame, Ht.
    split; [done|]. split; [by destruct (copy p)|]. split; [done|].
    split; [by intros s1' [= <-]|]. intros e' s1' [=].
Qed.

(** The stand-in engine, the defaults with [collect_marginals=True] and
    [equilibrate=False]. *)
Lemma marginals_need_equilibrate_witness :
  result (nested_model stub_env (with_marginals default_params true false)
            two_cells (stub_world0 0))
  = Raise (ValueError marginals_message).
Proof.
  apply (proj1 (proj2 (proj2 (proj2
    (marginals_need_equilibrate stub_env
       (with_marginals default_params true false) two_cells (stub_world0 0)
       eq_refl eq_refl))))
    (Build_st stub_env (stub_world0 0) [EvImport] two_cells)).
  reflexivity.
Defined.

(** A seed NumPy refuses: the call raises at line 168, before the check of
    line 171, and the exception is NumPy's. *)
Lemma marginals_check_after_seeding_counterexample :
  result (nested_model stub_env
            (with_random_seed (with_marginals default_params true false)
               (Some (-1)%Z))
            two_cells (stub_world0 0))
  = Raise (ValueError "Seed must be between 0 and 2**32 - 1")
  ∧ result (nested_model stub_env
              (with_random_seed (with_marginals default_params true false)
                 (Some (-1)%Z))
              two_cells (stub_world0 0))
    ≠ Raise (ValueError marginals_message)
  ∧ events (nested_model stub_env
              (with_random_seed (with_marginals default_params true false)
                 (Some (-1)%Z))
              two_cells (stub_world0 0))
    = [EvImport; EvNpSeed (-1)].
Proof.
  split; [by vm_compute|]. split; [|by vm_compute].
  intros H. vm_compute in H. discriminate H.
Qed.

(** C5 (failure atomicity, as amended).  When [nested_model] or
    [fast_model] raises in any step up to the construction of the label
    table (lines 155-291 and 523-638: import, seeding, precondition, graph
    construction, minimisation, sweep, equilibration, collection of
    marginals, projection, relabelling), the call raises that exception and
    the caller's container is the one passed in; with [copy=True] the
    caller's container is never modified. *)
Theorem failure_before_write_keeps_container (E : Env) (p : Kwargs)
    (a : AnnData) (w : world E) :
  (∀ e s1, nested_prepare E p (init_state E a w) = (Raise e, s1) →
     result (nested_model E p a w) = Raise e
     ∧ caller_adata (nested_model E p a w) = a)
  ∧ (∀ e s1, fast_prepare E p (init_state E a w) = (Raise e, s1) →
       result (fast_model E p a w) = Raise e
       ∧ caller_adata (fast_model E p a w) = a)
  ∧ (copy p = true →
     caller_adata (nested_model E p a w) = a
     ∧ caller_adata (fast_model E p a w) = a).
Proof.
  destruct (prepare_same_adata (E:=E) p) as [Hn Hf].
  unfold nested_model, fast_model. split; [|split].
  - intros e s1 Hs.
    destruct (run_driver_events (E:=E) p
                (fg ← nested_prepare E p; nested_publish E p fg.1 fg.2) a w)
      as (_ & -> & ->).
    rewrite (run_bind_raise _ _ _ _ _ Hs). simpl.
    specialize (Hn _ _ _ Hs). unfold same_adata in Hn. simpl in Hn.
    rewrite Hn. split; [done|by destruct (copy p)].
  - intros e s1 Hs.
    destruct (run_driver_events (E:=E) p
                (fg ← fast_prepare E p; fast_publish E p fg.1 fg.2) a w)
      as (_ & -> & ->).
    rewrite (run_bind_raise _ _ _ _ _ Hs). simpl.
    specialize (Hf _ _ _ Hs). unfold same_adata in Hf. simpl in Hf.
    rewrite Hf. split; [done|by destruct (copy p)].
  - intros Hcopy. split.
    + destruct (run_driver_events (E:=E) p
                (fg ← nested_prepare E p; nested_publish E p fg.1 fg.2) a w)
        as (_ & _ & ->). by rewrite Hcopy.
    + destruct (run_driver_events (E:=E) p
                (fg ← fast_prepare E p; fast_publish E p fg.1 fg.2) a w)
        as (_ & _ & ->). by rewrite Hcopy.
Qed.

(** A run that stops at the precondition of line 173. *)
Lemma failure_before_write_keeps_container_witness :
  caller_adata (nested_model stub_env (with_marginals default_params true false)
                  annotated_cells (stub_world0 0))
  = annotated_cells.
Proof.
  apply (proj1 (failure_before_write_keeps_container stub_env
                  (with_marginals default_params true false)
                  annotated_cells (stub_world0 0))
           (ValueError marginals_message)
           (Build_st stub_env (stub_world0 0) [EvImport] annotated_cells)).
  reflexivity.
Defined.

(** [prune=True] and [return_low=False] on two cells that the two lowest
    levels group alike: [adata.obs.drop] raises [KeyError] for
    [nsbm_level_0], after [adata.obs] has received the new columns. *)
Lemma failure_atomicity_counterexample :
  result (nested_model stub_env (with_prune default_params true)
            two_cells (stub_world0 0))
  = Raise (KeyError "nsbm_level_0")
  ∧ caller_adata (nested_model stub_env (with_prune default_params true)
                    two_cells (stub_world0 0))
    ≠ two_cells.
Proof.
  split; [by vm_compute|].
  intros H. apply (f_equal (λ x, length (obs x))) in H.
  vm_compute in H. discriminate H.
Qed.

Section Seeding.
Context {E : Env}.

Lemma seeded_run_events {A} (tail : M E A) (publish : A → M E unit)
    seed s a w w1 :
  respects (appends (λ _, True)) tail →
  (∀ x, respects (appends (λ _, True)) (publish x)) →
  seed = Some s → s ≠ 0%Z →
  import_graph_tool E w = (Ok tt, w1) →
  seeds_both E s w1
    (trace (((import_gt E;; seed_rngs E seed;; tail) ≫= publish)
              (init_state E a w)).2).
Proof.
  intros Htail Hpub -> Hs Himp. unfold seeds_both.
  rewrite !run_bind. unfold import_gt at 1. unfold call at 1.
  simpl. rewrite Himp. rewrite !run_bind.
  destruct (Z.eqb_spec s 0); [done|].
  rewrite !run_bind. unfold call at 1. simpl.
  destruct (np_random_seed E s w1) as [[e|[]] w2].
  { simpl. exists []. split; [done|]. intros ? [=]. }
  unfold call at 1. simpl.
  destruct (gt_seed_rng E s w2) as [[e|[]] w3].
  { simpl. eexists. split; [done|]. intros ? _. eauto. }
  match goal with
  | |- context [tail ?s3] =>
      destruct (tail s3) as [[e|x] s4] eqn:Ht;
      destruct (Htail _ _ _ Ht) as (evs & Hevs & _); simpl in Hevs
  end.
  { simpl. rewrite Hevs. eexists. split; [done|]. intros ? _. eauto. }
  destruct (publish x s4) as [r s5] eqn:Hp.
  destruct (Hpub x _ _ _ Hp) as (evs' & Hevs' & _).
  simpl. rewrite Hevs', Hevs. simpl. eexists. split; [done|]. intros ? _. eauto.
Qed.

Lemma seeded_run_rejected {A} (tail : M E A) (publish : A → M E unit)
    seed s a w w1 e w2 :
  seed = Some s → s ≠ 0%Z →
  import_graph_tool E w = (Ok tt, w1) →
  np_random_seed E s w1 = (Raise e, w2) →
  ((import_gt E;; seed_rngs E seed;; tail) ≫= publish) (init_state E a w)
  = (Raise e, {| ext := w2; trace := [EvImport; EvNpSeed s]; adata := a |}).
Proof.
  intros -> Hs Himp Hnp.
  rewrite !run_bind. unfold import_gt at 1. unfold call at 1.
  simpl. rewrite Himp. rewrite !run_bind.
  destruct (Z.eqb_spec s 0); [done|].
  rewrite !run_bind. unfold call at 1. simpl. by rewrite Hnp.
Qed.

End Seeding.

(** C10 (seed zero, as amended).  With [random_seed=0] both drivers behave
    exactly as with [random_seed=None] and make no seeding call.  With a
    nonzero seed [s], once the import has returned, the first outside call
    is [np.random.seed(s)], followed by [gt.seed_rng(s)] when NumPy accepted
    the seed; when NumPy refuses the seed the call raises NumPy's exception
    and the engine's generator is not seeded.  On the stand-in engine, two
    runs with seed [0] from different generator states end with different
    labels, two runs with seed [7] with the same. *)
Theorem seed_zero_skips_seeding (E : Env) (p : Kwargs) (a : AnnData)
    (w : world E) :
  (random_seed p = Some 0%Z →
     nested_model E p a w = nested_model E (with_random_seed p None) a w
     ∧ fast_model E p a w = fast_model E (with_random_seed p None) a w
     ∧ Forall (λ ev, is_seeding ev = false) (events (nested_model E p a w))
     ∧ Forall (λ ev, is_seeding ev = false) (events (fast_model E p a w)))
  ∧ (∀ s w1, random_seed p = Some s → s ≠ 0%Z →
       import_graph_tool E w = (Ok tt, w1) →
       seeds_both E s w1 (events (nested_model E p a w))
       ∧ seeds_both E s w1 (events (fast_model E p a w)))
  ∧ (∀ s w1 e w2, random_seed p = Some s → s ≠ 0%Z →
       import_graph_tool E w = (Ok tt, w1) →
       np_random_seed E s w1 = (Raise e, w2) →
       result (nested_model E p a w) = Raise e
       ∧ events (nested_model E p a w) = [EvImport; EvNpSeed s]
       ∧ result (fast_model E p a w) = Raise e
       ∧ events (fast_model E p a w) = [EvImport; EvNpSeed s])
  ∧ (caller_adata (nested_model stub_env (seeded_params (Some 0%Z))
                     two_cells (stub_world0 0))
     ≠ caller_adata (nested_model stub_env (seeded_params (Some 0%Z))
                       two_cells (stub_world0 1))
     ∧ caller_adata (nested_model stub_env (seeded_params (Some 7%Z))
                       two_cells (stub_world0 0))
       = caller_adata (nested_model stub_env (seeded_params (Some 7%Z))
                         two_cells (stub_world0 1))).
Proof.
  split; [|split; [|split]].
  - intros Hseed. split; [|split; [|split]].
    + destruct p; simpl in Hseed; subst; reflexivity.
    + destruct p; simpl in Hseed; subst; reflexivity.
    + unfold nested_model.
      destruct (run_driver_events (E:=E) p
                  (fg ← nested_prepare E p; nested_publish E p fg.1 fg.2) a w)
        as (-> & _ & _).
      destruct ((fg ← nested_prepare E p; nested_publish E p fg.1 fg.2)
                  (init_state E a w)) as [r s1] eqn:Hrun.
      eapply (proj1 (drivers_append (λ ev, is_seeding ev = false) p
                ltac:(done) ltac:(intros s Hs; rewrite Hseed in Hs; by simplify_eq)))
        in Hrun as (evs & Ht & Hevs).
      simpl in *. by rewrite Ht.
    + unfold fast_model.
      destruct (run_driver_events (E:=E) p
                  (fg ← fast_prepare E p; fast_publish E p fg.1 fg.2) a w)
        as (-> & _ & _).
      destruct ((fg ← fast_prepare E p; fast_publish E p fg.1 fg.2)
                  (init_state E a w)) as [r s1] eqn:Hrun.
      eapply (proj2 (drivers_append (λ ev, is_seeding ev = false) p
                ltac:(done) ltac:(intros s Hs; rewrite Hseed in Hs; by simplify_eq)))
        in Hrun as (evs & Ht & Hevs).
      simpl in *. by rewrite Ht.
  - intros s w1 Hseed Hs Himp. split.
    + unfold nested_model.
      destruct (run_driver_events (E:=E) p
                  (fg ← nested_prepare E p; nested_publish E p fg.1 fg.2) a w)
        as (-> & _ & _).
      unfold nested_prepare.
      apply seeded_run_events; [|intros fg|done..].
      * by apply nested_tail_appends.
      * exact (proj1 (publish_appends _ p _ _ (λ _ _, I))).
    + unfold fast_model.
      destruct (run_driver_events (E:=E) p
                  (fg ← fast_prepare E p; fast_publish E p fg.1 fg.2) a w)
        as (-> & _ & _).
      unfold fast_prepare.
      apply seeded_run_events; [|intros fg|done..].
      * by apply fast_tail_appends.
      * exact (proj2 (publish_appends _ p _ _ (λ _ _, I))).
  - intros s w1 e w2 Hseed Hs Himp Hnp.
    unfold nested_model, fast_model.
    destruct (run_driver_events (E:=E) p
                (fg ← nested_prepare E p; nested_publish E p fg.1 fg.2) a w)
      as (-> & -> & _).
    destruct (run_driver_events (E:=E) p
                (fg ← fast_prepare E p; fast_publish E p fg.1 fg.2) a w)
      as (-> & -> & _).
    unfold nested_prepare, fast_prepare.
    rewrite !(seeded_run_rejected _ _ (random_seed p) s a w w1 e w2
                Hseed Hs Himp Hnp).
    done.
  - split.
    + intros H. apply (f_equal obs) in H. vm_compute in H. discriminate H.
    + vm_compute. reflexivity.
Qed.

(** Seed 0 against no seed, and seed 7, on the stand-in engine. *)
Lemma seed_zero_skips_seeding_witness :
  nested_model stub_env (seeded_params (Some 0%Z)) two_cells (stub_world0 1)
  = nested_model stub_env (with_random_seed (seeded_params (Some 0%Z)) None)
      two_cells (stub_world0 1)
  ∧ seeds_both stub_env 7 (stub_world0 1)
      (events (fast_model stub_env (seeded_params (Some 7%Z)) two_cells
                 (stub_world0 1))).
Proof.
  split.
  - apply (proj1 (seed_zero_skips_seeding stub_env (seeded_params (Some 0%Z))
                    two_cells (stub_world0 1))).
    reflexivity.
  - apply (proj1 (proj2 (seed_zero_skips_seeding stub_env
                           (seeded_params (Some 7%Z)) two_cells (stub_world0 1)))
             7%Z (stub_world0 1)); [reflexivity|lia|reflexivity].
Defined.

(** A seed NumPy refuses: [np.random.seed] raises and [gt.seed_rng] is not
    called. *)
Lemma seed_rejected_counterexample :
  events (fast_model stub_env (seeded_params (Some (-1)%Z)) two_cells
            (stub_world0 0))
  = [EvImport; EvNpSeed (-1)]
  ∧ events (nested_model stub_env (seeded_params (Some (-1)%Z)) two_cells
              (stub_world0 0))
    = [EvImport; EvNpSeed (-1)]
  ∧ result (fast_model stub_env (seeded_params (Some (-1)%Z)) two_cells
              (stub_world0 0))
    = Raise (ValueError "Seed must be between 0 and 2**32 - 1").
Proof. split; [by vm_compute|]. split; by vm_compute. Qed.

Section Padding.
Context {E : Env}.

Lemma run_call_inv {A} ev (f : world E → res A * world E) s x s' :
  call E ev f s = (Ok x, s') → ∃ w', f (ext s) = (Ok x, w').
Proof.
  unfold call. destruct (f (ext s)) as [r w'] eqn:Hf. intros [= -> _]. eauto.
Qed.

Lemma nested_sample_bs p s f s' :
  nested_sample E p s = (Ok f, s') →
  ∃ g w bs0 w',
    minimize_nested_blockmodel_dl E g (deg_corr p) (use_weights p) w
      = (Ok bs0, w')
    ∧ f_bs f = pad_bs bs0 (hierarchy_length p).
Proof.
  unfold nested_sample. intros H.
  apply run_bind_inv in H as (g & s1 & _ & H).
  apply run_bind_inv in H as (bs0 & s2 & Hmin & H).
  apply run_call_inv in Hmin as (w' & Hmin).
  exists g, (ext s1), bs0, w'. split; [done|].
  apply run_bind_inv in H as (? & s3 & _ & H).
  apply run_bind_inv in H as (sw & s4 & _ & H).
  destruct (equilibrate p).
  - apply run_bind_inv in H as (eq & s5 & _ & H).
    destruct (collect_marginals p).
    + apply run_bind_inv in H as (gm & s6 & _ & H). by injection H as <- _.
    + by injection H as <- _.
  - by injection H as <- _.
Qed.
End Padding.

(** C9 (hierarchy padding).  The padded hierarchy has depth
    [max (len bs) hierarchy_length]; it starts with the discovered levels,
    unchanged, and continues with singleton levels only; and the hierarchy
    [nested_model] works with after the minimisation is the padding of the
    one the minimisation returned. *)
Theorem hierarchy_padding (E : Env) (p : Kwargs) (bs : list (list Z)) :
  Z.of_nat (length (pad_bs bs (hierarchy_length p)))
  = Z.max (Z.of_nat (length bs)) (hierarchy_length p)
  ∧ take (length bs) (pad_bs bs (hierarchy_length p)) = bs
  ∧ drop (length bs) (pad_bs bs (hierarchy_length p))
    = replicate (length (pad_bs bs (hierarchy_length p)) - length bs) [0%Z]
  ∧ ∀ s f s', nested_sample E p s = (Ok f, s') →
      ∃ g w bs0 w',
        minimize_nested_blockmodel_dl E g (deg_corr p) (use_weights p) w
          = (Ok bs0, w')
        ∧ f_bs f = pad_bs bs0 (hierarchy_length p).
Proof.
  destruct (pad_bs_depth bs (hierarchy_length p)) as (H1 & H2 & H3).
  repeat split; [done..|]. apply nested_sample_bs.
Qed.

(** One level found for two cells, ten asked for. *)
Lemma hierarchy_padding_witness :
  ∃ g w bs0 w',
    minimize_nested_blockmodel_dl stub_env g false false w = (Ok bs0, w')
    ∧ [0; 0]%Z :: replicate 9 [0%Z] = pad_bs bs0 10.
Proof.
  apply (proj2 (proj2 (proj2 (hierarchy_padding stub_env default_params [])))
           (init_state stub_env two_cells (stub_world0 0))
           {| f_graph := {| num_vertices := 2; is_directed := false;
                            edge_list := sp_data two_cells_adjacency |};
              f_bs := [0; 0]%Z :: replicate 9 [0%Z];
              f_sweep := Some stub_sweep;
              f_equilibrate := Some stub_sweep;
              f_group_marginals := None |}
           (Build_st stub_env
              {| gen_state := 0; held_bs := [0; 0]%Z :: replicate 9 [0%Z];
                 held_n := 2 |}
              [EvBuildGraph; EvMinimize; EvStateCopy; EvSweep true;
               EvEquilibrate false]
              two_cells)).
  reflexivity.
Defined.

(* ================================================================== *)
(** * Part III: further properties                                    *)
(* ================================================================== *)

(** ** The relabelling depends on the order of the raw ids only *)

Lemma insert_sorted_fmap (f : Z → Z) x l :
  (∀ a b, (a < b)%Z → (f a < f b)%Z) →
  insert_sorted (f x) (f <$> l) = f <$> insert_sorted x l.
Proof.
  intros Hf. induction l as [|y l IH]; csimpl; [done|].
  destruct (Z.ltb_spec x y) as [Hxy|Hxy].
  - apply Hf in Hxy. by rewrite (proj2 (Z.ltb_lt _ _) Hxy).
  - destruct (Z.eqb_spec x y) as [->|Hne].
    + by rewrite Z.ltb_irrefl, Z.eqb_refl.
    + assert (f y < f x)%Z as Hlt by (apply Hf; lia).
      rewrite (proj2 (Z.ltb_ge _ _)) by lia.
      rewrite (proj2 (Z.eqb_neq _ _)) by lia.
      csimpl. by rewrite IH.
Qed.

Lemma np_unique_fmap (f : Z → Z) col :
  (∀ a b, (a < b)%Z → (f a < f b)%Z) →
  np_unique (f <$> col) = f <$> np_unique col.
Proof.
  intros Hf. induction col as [|x col IH]; csimpl; [done|].
  by rewrite IH, insert_sorted_fmap.
Qed.

Lemma index_of_fmap (f : Z → Z) v l :
  (∀ a b, (a < b)%Z → (f a < f b)%Z) →
  index_of (f v) (f <$> l) = index_of v l.
Proof.
  intros Hf. induction l as [|y l IH]; csimpl; [done|].
  destruct (Z.eqb_spec v y) as [->|Hne]; [by rewrite Z.eqb_refl|].
  rewrite (proj2 (Z.eqb_neq _ _)); [by rewrite IH|].
  destruct (Z.lt_total v y) as [H|[H|H]]; [|done|]; apply Hf in H; lia.
Qed.

Lemma relabel_column_eq col :
  relabel_column col
  = {| codes := (λ v, index_of v (np_unique col)) <$> col;
       categories := (λ k, StrLabel (py_str k))
                       <$> seq 0 (length (np_unique col)) |}.
Proof.
  rewrite <- relabel_column_categories, <- relabel_column_codes.
  by destruct (relabel_column col).
Qed.

(** X1.  Relabelling sees the raw ids through their order only: renaming
    the raw ids of a column by any strictly increasing map leaves the
    categorical of lines 278-283 unchanged, codes and category names. *)
Theorem relabel_order_invariant (f : Z → Z) (col : list Z) :
  (∀ a b, (a < b)%Z → (f a < f b)%Z) →
  relabel_column (f <$> col) = relabel_column col.
Proof.
  intros Hf. rewrite !relabel_column_eq, np_unique_fmap by done.
  rewrite length_fmap. f_equal.
  rewrite <- list_fmap_compose. apply list_fmap_ext.
  intros i v _. simpl. by apply index_of_fmap.
Qed.

(** The engine's ids doubled and shifted. *)
Lemma relabel_order_invariant_witness :
  relabel_column [13; 7; 13; 21]%Z = relabel_column [5; 2; 5; 9]%Z.
Proof.
  apply (relabel_order_invariant (λ x, 2 * x + 3)%Z [5; 2; 5; 9]%Z).
  intros a b H. lia.
Defined.

(** ** The two modes of the pruner *)

Lemma where_from_sorted {A} (p : A → bool) k (l : list A) :
  StronglySorted lt (where_from p k l)
  ∧ Forall (λ i, k ≤ i) (where_from p k l).
Proof.
  revert k. induction l as [|x l IH]; intros k; simpl.
  - split; constructor.
  - destruct (IH (S k)) as [Hs Hge].
    assert (Forall (λ i, k < i) (where_from p (S k) l)) as Hlt
      by (eapply Forall_impl; [exact Hge|]; intros; simpl in *; lia).
    destruct (p x).
    + split; [by constructor|]. constructor; [lia|].
      eapply Forall_impl; [exact Hlt|]. intros; simpl in *; lia.
    + split; [done|]. eapply Forall_impl; [exact Hlt|]. intros; simpl in *; lia.
Qed.

Lemma sorted_lt_nat_NoDup (l : list nat) : StronglySorted lt l → NoDup l.
Proof.
  induction 1 as [|z l Hs IH Hz]; constructor; [|done].
  intros Hin. eapply Forall_forall in Hz; [|done]. lia.
Qed.

Lemma np_where_split {A} (p : A → bool) (l : list A) :
  np_where p l ++ np_where (λ v, negb (p v)) l ≡ₚ seq 0 (length l).
Proof.
  apply NoDup_Permutation.
  - apply NoDup_app. split; [|split].
    + apply sorted_lt_nat_NoDup, where_from_sorted.
    + intros i (v & Hv & Hp)%elem_of_np_where (v' & Hv' & Hp')%elem_of_np_where.
      simplify_eq. rewrite Hp in Hp'. done.
    + apply sorted_lt_nat_NoDup, where_from_sorted.
  - apply NoDup_seq.
  - intros i. rewrite elem_of_app, !elem_of_np_where, elem_of_seq. split.
    + intros [(v & Hv & _)|(v & Hv & _)]; apply lookup_lt_Some in Hv; lia.
    + intros [_ Hi]. destruct (lookup_lt_is_Some_2 l i) as [v Hv]; [lia|].
      destruct (p v) eqn:Hp; [left|right]; exists v; by rewrite ?Hp.
Qed.

Lemma omap_lookup_seq_from {A} (l : list A) k m :
  omap (λ i, l !! i) (seq k m) = take m (drop k l).
Proof.
  revert k. induction m as [|m IH]; intros k; [by rewrite take_0|].
  simpl. rewrite IH. destruct (l !! k) as [x|] eqn:Hk.
  - by rewrite (drop_S _ _ _ Hk).
  - apply lookup_ge_None in Hk.
    by rewrite !drop_ge, take_nil by lia.
Qed.

Lemma omap_lookup_seq {A} (l : list A) m :
  omap (λ i, l !! i) (seq 0 m) = take m l.
Proof. by rewrite omap_lookup_seq_from, drop_0. Qed.

(** X2.  The two modes of [prune_groups] split the levels but the last:
    the names returned with [inverse=False] and with [inverse=True] are,
    together, the names of all columns except the last one, each once; the
    last level is returned in neither mode, and a table of fewer than two
    levels gives the empty answer in both. *)
Theorem prune_groups_modes
    (ami : list (option label) → list (option label) → float)
    (groups : DataFrame) :
  prune_groups ami groups false ++ prune_groups ami groups true
    ≡ₚ take (length groups - 1) (df_columns groups)
  ∧ (∀ i b, i ∈ pruned_positions ami groups b → i + 1 < length groups)
  ∧ (length groups < 2 → ∀ b, prune_groups ami groups b = []).
Proof.
  assert (∀ b i, i ∈ pruned_positions ami groups b → i + 1 < length groups)
    as Hpos.
  { intros b i. unfold pruned_positions.
    destruct b; intros (v & Hv & _)%elem_of_np_where;
      apply lookup_lt_Some in Hv; rewrite mi_groups_length in Hv; lia. }
  split; [|split].
  - unfold prune_groups. rewrite <- omap_app.
    rewrite <- omap_lookup_seq. apply omap_Permutation.
    unfold pruned_positions. rewrite <- (mi_groups_length ami).
    apply (np_where_split (λ s, SFeqb s float_one)).
  - intros i b. apply Hpos.
  - intros Hlt b. unfold prune_groups.
    destruct (pruned_positions ami groups b) as [|i t] eqn:E; [done|].
    specialize (Hpos b i). rewrite E in Hpos.
    specialize (Hpos (list_elem_of_here _ _)). lia.
Qed.

(** ** Trimming loses no count *)

Lemma total_zeros (l : list Z) :
  Forall (λ c, c = 0%Z) l → foldr Z.add 0%Z l = 0%Z.
Proof. induction 1 as [|x l -> _ IH]; simpl; [done|]. by rewrite IH. Qed.

(** X3.  For an accumulator of counts that the trimming of lines 364-365
    accepts, the trimmed vector has the same total, ends with a positive
    count, and is left as it is by a second trimming. *)
Theorem trim_keeps_counts (acc t : list Z) :
  Forall (λ c, (0 ≤ c)%Z) acc →
  trim_level_marginals acc = Ok t →
  foldr Z.add 0%Z t = foldr Z.add 0%Z acc
  ∧ (∃ c, last t = Some c ∧ (0 < c)%Z)
  ∧ trim_level_marginals t = Ok t.
Proof.
  intros Hnn Htrim. unfold trim_level_marginals in Htrim.
  destruct (np_max _) as [e|m] eqn:Hm; [done|]. simpl in Htrim.
  injection Htrim as <-.
  apply np_max_spec in Hm as [Hin Hall]. rewrite Forall_forall in Hall.
  apply list_elem_of_fmap in Hin as (k & -> & Hk).
  apply elem_of_np_where in Hk as (c & Hc & Hpos). apply Z.ltb_lt in Hpos.
  assert (∀ j v, acc !! j = Some v → k < j → v = 0%Z) as Hhigh.
  { intros j v Hj Hlt. destruct (decide (0 < v)%Z) as [Hv|Hv].
    - assert (S j ≤ S k); [|lia]. apply Hall, list_elem_of_fmap.
      exists j. split; [done|]. apply elem_of_np_where. exists v.
      split; [done|]. by apply Z.ltb_lt.
    - rewrite Forall_forall in Hnn.
      assert (0 ≤ v)%Z by (eapply Hnn, list_elem_of_lookup_2; done). lia. }
  assert (take (S k) acc !! k = Some c) as Hkt
    by (rewrite lookup_take_lt by lia; done).
  split; [|split].
  - rewrite <- (take_drop (S k) acc) at 2. rewrite foldr_app.
    rewrite (total_zeros (drop (S k) acc)); [done|].
    apply Forall_lookup. intros j v Hj. rewrite lookup_drop in Hj.
    apply (Hhigh _ _ Hj). lia.
  - exists c. split; [|done]. rewrite last_lookup.
    rewrite length_take. apply lookup_lt_Some in Hc.
    replace (Init.Nat.pred (S k `min` length acc)) with k by lia. done.
  - replace (take (S k) acc) with (take (k + 1) (take (S k) acc)) at 2
      by (rewrite take_take; f_equal; lia).
    apply trim_highest.
    + eauto.
    + intros j v Hj Hlt. apply lookup_lt_Some in Hj.
      rewrite length_take in Hj. lia.
Qed.

Lemma trim_keeps_counts_witness :
  foldr Z.add 0%Z [0; 0; 0; 2; 0; 0; 0; 5]%Z
  = foldr Z.add 0%Z [0; 0; 0; 2; 0; 0; 0; 5; 0; 0]%Z.
Proof.
  apply (trim_keeps_counts [0; 0; 0; 2; 0; 0; 0; 5; 0; 0]%Z
           [0; 0; 0; 2; 0; 0; 0; 5]%Z).
  - repeat constructor; lia.
  - reflexivity.
Defined.

(** ** Counts are conserved along a nested hierarchy *)

Lemma sum_indicator (X : list nat) (P : nat → Prop) `{∀ x, Decision (P x)}
    (c : Z) x0 :
  NoDup X → x0 ∈ X → P x0 → (∀ x, x ∈ X → P x → x = x0) →
  foldr Z.add 0%Z ((λ x, if decide (P x) then c else 0%Z) <$> X) = c.
Proof.
  intros Hnd. revert x0. induction Hnd as [|x X Hx Hnd IH]; intros x0 Hin HP Huniq.
  - by apply elem_of_nil in Hin.
  - csimpl. destruct (decide (P x)) as [HPx|HPx].
    + assert (x = x0) as -> by (apply Huniq; [apply list_elem_of_here|done]).
      rewrite (total_zeros (_ <$> X)); [lia|].
      apply Forall_fmap, Forall_forall. intros y Hy. simpl.
      destruct (decide (P y)) as [HPy|]; [|done].
      exfalso. apply Hx. rewrite <- (Huniq y); [done| |done].
      by apply list_elem_of_further.
    + apply elem_of_cons in Hin as [->|Hin]; [done|].
      rewrite (IH x0); [lia|done..|].
      intros y Hy. apply Huniq. by apply list_elem_of_further.
Qed.

Lemma sum_partition (X L : list nat) (P : nat → nat → Prop)
    `{∀ i x, Decision (P i x)} (f : nat → Z) :
  NoDup X →
  (∀ i, i ∈ L → ∃ x0, x0 ∈ X ∧ P i x0 ∧ ∀ x, x ∈ X → P i x → x = x0) →
  foldr Z.add 0%Z
    ((λ x, foldr Z.add 0%Z (f <$> filter (λ i, P i x) L)) <$> X)
  = foldr Z.add 0%Z (f <$> L).
Proof.
  intros HX. induction L as [|i L IH]; intros HL.
  - csimpl. apply total_zeros, Forall_fmap, Forall_forall. by intros.
  - csimpl. rewrite <- IH by (intros j Hj; apply HL; by apply list_elem_of_further).
    destruct (HL i (list_elem_of_here _ _)) as (x0 & Hx0 & HP0 & Huniq).
    rewrite <- (sum_indicator X (P i) (f i) x0 HX Hx0 HP0 Huniq) at 1.
    clear. induction X as [|x X IHX]; csimpl; [done|].
    rewrite IHX. destruct (decide (P i x)).
    + rewrite filter_cons_True by done. csimpl. lia.
    + rewrite filter_cons_False by done. lia.
Qed.

Lemma fmap_nth_seq (row : list Z) :
  (λ i, nth i row 0%Z) <$> seq 0 (length row) = row.
Proof.
  apply list_eq. intros i. rewrite list_lookup_fmap.
  destruct (row !! i) as [v|] eqn:Hi.
  - rewrite lookup_seq_lt by (by eapply lookup_lt_Some). simpl. f_equal.
    by apply nth_lookup_Some.
  - rewrite lookup_seq_ge; [done|]. by apply lookup_ge_None.
Qed.

Lemma derive_level_rows (c0 : ndarray) col0 coll cl n row :
  length col0 = length coll →
  length (np_unique col0) ≤ ncols c0 →
  derive_level c0 (relabel_column col0) (relabel_column coll) = Ok cl →
  rows c0 !! n = Some row →
  rows cl !! n
  = Some ((λ x, group_sum row
                  (summed_groups (codes (relabel_column col0))
                     (codes (relabel_column coll))
                     (length (np_unique col0)) x))
            <$> seq 0 (length (np_unique coll))).
Proof.
  intros Hlen Hc0 Hcl Hn. revert Hcl. unfold derive_level.
  erewrite mapM_res_ok; last first.
  { intros x Hx. apply derived_column_relabel; [done..|].
    rewrite crosstab_relabel in Hx by done. simpl in Hx.
    apply elem_of_seq in Hx. lia. }
  rewrite crosstab_relabel by done. simpl. intros [= <-]. simpl.
  rewrite list_lookup_fmap, lookup_seq_lt by (by eapply lookup_lt_Some).
  simpl. f_equal. rewrite <- list_fmap_compose. apply list_fmap_ext.
  intros i x _. simpl. by erewrite nth_fmap_lookup.
Qed.

(** X4.  In a nested hierarchy (nodes that share their level-0 group share
    their level-[l] group) the aggregation of lines 348-355 conserves the
    counts of every node: when [c0] has exactly one column per level-0
    group, each row of the derived matrix has the same total as the row of
    [c0]. *)
Theorem marginals_conserved (key : string) (raw : list (list Z)) (l : nat)
    (col0 coll : list Z) (c0 : ndarray) :
  raw !! 0 = Some col0 → raw !! l = Some coll →
  length col0 = length coll →
  ncols c0 = n_groups raw 0 →
  (∀ m m' u, col0 !! m = Some u → col0 !! m' = Some u →
             coll !! m = coll !! m') →
  ∃ cl,
    level_marginals key c0 (name_levels key (relabel raw)) (level_name key l)
      = Ok cl
    ∧ ∀ n row, rows c0 !! n = Some row → length row = ncols c0 →
        ∃ row', rows cl !! n = Some row'
                ∧ foldr Z.add 0%Z row' = foldr Z.add 0%Z row.
Proof.
  intros H0 Hl Hlen Hc0 Hnest. unfold n_groups in Hc0. rewrite H0 in Hc0.
  rewrite <- np_unique_length in Hc0.
  assert (length (np_unique col0) ≤ ncols c0) as Hle by lia.
  destruct (derive_level_relabel c0 col0 coll Hlen Hle) as (cl & Hcl & _).
  exists cl. split.
  { unfold level_marginals.
    rewrite (df_loc_name_levels key (relabel raw) 0 (relabel_column col0))
      by (unfold relabel; by rewrite list_lookup_fmap, H0).
    rewrite (df_loc_name_levels key (relabel raw) l (relabel_column coll))
      by (unfold relabel; by rewrite list_lookup_fmap, Hl).
    done. }
  intros n row Hn Hrow. eexists. split.
  { by apply (derive_level_rows c0 col0 coll cl n row Hlen Hle Hcl). }
  unfold group_sum, summed_groups.
  set (ca := codes (relabel_column col0)).
  set (cb := codes (relabel_column coll)).
  rewrite (list_fmap_ext _
             (λ x, foldr Z.add 0%Z
                     ((λ g0, nth g0 row 0%Z)
                        <$> filter (λ i, (i, x) ∈ zip ca cb)
                              (seq 0 (length (np_unique col0)))))
             (seq 0 (length (np_unique coll)))); last first.
  { intros i x _. do 2 f_equal. apply list_filter_iff. intros g0.
    apply pair_count_pos. }
  rewrite (sum_partition _ _ (λ i x, (i, x) ∈ zip ca cb)).
  - rewrite <- Hc0, <- Hrow. by rewrite fmap_nth_seq.
  - apply NoDup_seq.
  - intros i Hi. apply elem_of_seq in Hi.
    assert (i ∈ ca) as Hica by (apply relabel_codes_cover; lia).
    apply list_elem_of_lookup_1 in Hica as [m Hm].
    assert (m < length cb) as Hmb.
    { apply lookup_lt_Some in Hm. unfold ca, cb in *.
      rewrite relabel_column_codes, length_fmap in *. lia. }
    destruct (lookup_lt_is_Some_2 cb m Hmb) as [x0 Hx0].
    exists x0. split; [|split].
    + apply elem_of_seq. split; [lia|]. simpl.
      unfold cb in Hx0. rewrite relabel_column_codes, list_lookup_fmap in Hx0.
      destruct (coll !! m) as [v|] eqn:Hv; simplify_eq/=.
      apply index_of_lt, elem_of_np_unique. by eapply list_elem_of_lookup_2.
    + apply elem_of_lookup_zip_with. eauto 10.
    + intros x _ Hx.
      apply elem_of_lookup_zip_with in Hx as (m' & i' & x' & [= <- <-] & Hi' & Hx').
      unfold ca, cb in *.
      rewrite relabel_column_codes, list_lookup_fmap in Hm, Hi', Hx0, Hx'.
      destruct (col0 !! m) as [u|] eqn:Hu; simplify_eq/=.
      destruct (col0 !! m') as [u'|] eqn:Hu'; simplify_eq/=.
      assert (u' = u) as ->.
      { eapply index_of_inj; [| |done]; apply elem_of_np_unique;
          by eapply list_elem_of_lookup_2. }
      specialize (Hnest m m' u Hu Hu').
      destruct (coll !! m) as [v|] eqn:Hv; simplify_eq/=.
      rewrite <- Hnest in Hx'. by simplify_eq/=.
Qed.

(** The table [six_nodes] is nested; node 0 has counts 5, 1 and 4. *)
Lemma marginals_conserved_witness :
  ∃ cl row',
    level_marginals "nsbm" six_nodes_c0
      (name_levels "nsbm" (relabel six_nodes)) "nsbm_level_1" = Ok cl
    ∧ rows cl !! 0 = Some row'
    ∧ foldr Z.add 0%Z row' = 10%Z.
Proof.
  destruct (marginals_conserved "nsbm" six_nodes 1
              [0; 1; 2; 0; 2; 1]%Z [7; 3; 7; 7; 7; 3]%Z six_nodes_c0)
    as (cl & Hcl & Hrows); [reflexivity..| |].
  { intros m m' u Hm Hm'.
    do 6 (destruct m as [|m]; [do 6 (destruct m' as [|m']; [by simplify_eq/=|]);
                               by simplify_eq/=|]).
    by simplify_eq/=. }
  destruct (Hrows 0 [5; 1; 4]%Z eq_refl eq_refl) as (row' & Hr & Hsum).
  exists cl, row'. split; [exact Hcl|]. split; [exact Hr|exact Hsum].
Defined.

(** ** The callback as a histogram *)

Lemma foldl_bump_raise e pairs : foldl bump_step (Raise e) pairs = Raise e.
Proof. induction pairs; simpl; auto. Qed.

Lemma run_callbacks_flat gm invocations :
  run_callbacks gm invocations
  = foldl bump_step (Ok gm) (invocations ≫= imap pair).
Proof.
  unfold run_callbacks. generalize (Ok gm : res (list (list Z))).
  induction invocations as [|Bs inv IH]; intros acc; [done|].
  csimpl. rewrite foldl_app, IH. f_equal.
  destruct acc as [e|g]; simpl; [|done].
  by rewrite foldl_bump_raise.
Qed.

Lemma bump_count_at gm l B gm' :
  bump gm l B = Ok gm' →
  ∀ l' B', count_at gm' l' B'
           = (λ c, if decide ((l', B') = (l, B)) then (c + 1)%Z else c)
               <$> count_at gm l' B'.
Proof.
  intros (v & c & Hl & HB & ->)%bump_spec l' B'. unfold count_at.
  destruct (decide (l' = l)) as [->|Hne].
  - rewrite list_lookup_insert_eq by (by eapply lookup_lt_Some).
    rewrite Hl. simpl. destruct (decide (B' = B)) as [->|HneB].
    + rewrite list_lookup_insert_eq by (by eapply lookup_lt_Some).
      rewrite HB. simpl. by rewrite decide_True.
    + rewrite list_lookup_insert_ne by done.
      destruct (v !! B'); simpl; [|done].
      rewrite decide_False; [done|congruence].
  - rewrite list_lookup_insert_ne by done.
    destruct (gm !! l') as [u|]; simpl; [|done].
    destruct (u !! B'); simpl; [|done].
    rewrite decide_False; [done|congruence].
Qed.

Lemma bump_ok_iff gm l B :
  (∃ gm', bump gm l B = Ok gm') ↔ is_Some (count_at gm l B).
Proof.
  unfold bump, count_at. destruct (gm !! l) as [v|]; simpl.
  - destruct (v !! B); simpl; split; eauto.
    + by intros [? ?].
    + by intros [? ?].
  - split; [by intros [? ?]|by intros [? ?]].
Qed.

Lemma foldl_bump_spec pairs gm :
  ((∃ gm', foldl bump_step (Ok gm) pairs = Ok gm')
   ↔ Forall (λ lB, is_Some (count_at gm lB.1 lB.2)) pairs)
  ∧ ∀ gm', foldl bump_step (Ok gm) pairs = Ok gm' →
      ∀ l B, count_at gm' l B
             = (λ c, (c + Z.of_nat (length (filter (λ lB, lB = (l, B)) pairs)))%Z)
                 <$> count_at gm l B.
Proof.
  revert gm. induction pairs as [|[l0 B0] pairs IH]; intros gm.
  - split; [split; [constructor|eauto]|].
    simpl. intros gm' [= <-] l B.
    destruct (count_at gm l B); simpl; [|done]. f_equal. lia.
  - simpl. destruct (bump gm l0 B0) as [e|gm1] eqn:Hb; simpl.
    + rewrite foldl_bump_raise. split.
      * split; [by intros [? ?]|]. intros H. apply Forall_cons in H as [H _].
        apply bump_ok_iff in H as [? ?]. simpl in *. congruence.
      * done.
    + pose proof (bump_count_at _ _ _ _ Hb) as Hc.
      destruct (IH gm1) as [Hiff Hcnt]. split.
      * rewrite Hiff, Forall_cons. simpl. split.
        -- intros H. split; [apply bump_ok_iff; eauto|].
           eapply Forall_impl; [exact H|]. intros [l B]. simpl.
           rewrite Hc. by rewrite fmap_is_Some.
        -- intros [_ H]. eapply Forall_impl; [exact H|]. intros [l B]. simpl.
           rewrite Hc. by rewrite fmap_is_Some.
      * intros gm' Hf l B. rewrite (Hcnt gm' Hf), Hc.
        destruct (count_at gm l B) as [c|]; simpl; [|done]. f_equal.
        destruct (decide ((l, B) = (l0, B0))) as [Heq|Hne].
        -- rewrite filter_cons_True by done. simpl. lia.
        -- rewrite filter_cons_False by done. done.
Qed.

Lemma count_pairs_invocations (invocations : list (list nat)) l B :
  length (filter (λ lB, lB = (l, B)) (invocations ≫= imap pair))
  = length (filter (λ Bs, Bs !! l = Some B) invocations).
Proof.
  induction invocations as [|Bs inv IH]; [done|].
  csimpl. rewrite filter_app, length_app, IH.
  assert (∀ k (Bs : list nat),
            length (filter (λ lB, lB = (l, B)) (imap (λ i, pair (k + i)) Bs))
            = if decide (k ≤ l ∧ Bs !! (l - k) = Some B) then 1 else 0) as H.
  { clear. intros k Bs. revert k. induction Bs as [|b Bs IH]; intros k.
    - simpl. rewrite decide_False; [done|]. by intros [_ ?].
    - simpl. rewrite (imap_ext _ (λ i, pair (S k + i))) by (intros; simpl; f_equal; lia).
      destruct (decide ((k + 0, b) = (l, B))) as [Heq|Hne].
      + rewrite filter_cons_True by done. cbn [length]. rewrite IH.
        injection Heq as <- <-.
        replace (k + 0 - k) with 0 by lia.
        rewrite decide_False by (intros [? _]; lia).
        by rewrite decide_True by (split; [lia|done]).
      + rewrite filter_cons_False by done. rewrite IH.
        destruct (decide (S k ≤ l ∧ Bs !! (l - S k) = Some B)) as [[Hle Hi]|Hno].
        * rewrite decide_True; [done|]. split; [lia|].
          replace (l - k) with (S (l - S k)) by lia. done.
        * rewrite decide_False; [done|]. intros [Hle Hi].
          destruct (decide (l = k)) as [->|Hlk].
          -- rewrite Nat.sub_diag in Hi. simpl in Hi.
             apply Hne. rewrite Nat.add_0_r. congruence.
          -- apply Hno. split; [lia|].
             replace (l - k) with (S (l - S k)) in Hi by lia. done. }
  specialize (H 0 Bs).
  change (imap (λ i, pair (0 + i)) Bs) with (imap pair Bs) in H.
  rewrite Nat.sub_0_r in H. rewrite H.
  destruct (decide (Bs !! l = Some B)) as [Hl|Hl].
  - rewrite filter_cons_True by done. cbn [length].
    rewrite decide_True; [done|]. split; [lia|done].
  - rewrite filter_cons_False by done.
    rewrite decide_False; [done|]. by intros [_ ?].
Qed.

Lemma count_at_zeros nlev n l B :
  count_at (replicate nlev (replicate n 0%Z)) l B
  = if decide (l < nlev ∧ B < n) then Some 0%Z else None.
Proof.
  unfold count_at. destruct (decide (l < nlev)) as [Hl|Hl].
  - rewrite lookup_replicate_2 by done. simpl.
    destruct (decide (B < n)) as [HB|HB].
    + rewrite lookup_replicate_2 by done. by rewrite decide_True.
    + rewrite decide_False by lia. apply lookup_ge_None.
      rewrite length_replicate. lia.
  - rewrite decide_False by lia.
    rewrite (proj2 (lookup_ge_None _ _)); [done|]. rewrite length_replicate. lia.
Qed.

Lemma foldl_bump_length pairs gm gm' :
  foldl bump_step (Ok gm) pairs = Ok gm' → length gm' = length gm.
Proof.
  revert gm. induction pairs as [|[l B] pairs IH]; intros gm; simpl.
  - by intros [= <-].
  - destruct (bump gm l B) as [e|gm1] eqn:Hb; simpl.
    + by rewrite foldl_bump_raise.
    + intros H. rewrite (IH _ H).
      apply bump_spec in Hb as (v & c & _ & _ & ->). apply length_insert.
Qed.

Lemma run_callbacks_zeros (nlev N : nat) (invocations : list (list nat)) :
  ((∃ gm, run_callbacks (replicate nlev (replicate (N + 1) 0%Z)) invocations
          = Ok gm)
   ↔ Forall (λ Bs, length Bs ≤ nlev ∧ Forall (λ B, B ≤ N) Bs) invocations)
  ∧ ∀ gm, run_callbacks (replicate nlev (replicate (N + 1) 0%Z)) invocations
          = Ok gm →
      ∀ l B, l < nlev → B ≤ N →
        count_at gm l B
        = Some (Z.of_nat
                  (length (filter (λ Bs, Bs !! l = Some B) invocations))).
Proof.
  rewrite run_callbacks_flat.
  destruct (foldl_bump_spec (invocations ≫= imap pair)
              (replicate nlev (replicate (N + 1) 0%Z))) as [Hiff Hcnt].
  split.
  - rewrite Hiff. rewrite !Forall_forall. split.
    + intros H Bs HBs. split.
      * destruct (decide (length Bs ≤ nlev)) as [|Hgt]; [done|].
        destruct (lookup_lt_is_Some_2 Bs nlev ltac:(lia)) as [B HB].
        specialize (H (nlev, B)). simpl in H.
        rewrite count_at_zeros, decide_False in H by lia.
        destruct H as [? H]; [|done].
        apply list_elem_of_bind. exists Bs. split; [|done].
        apply list_elem_of_lookup_2 with nlev.
        by rewrite list_lookup_imap, HB.
      * apply Forall_forall. intros B HB.
        apply list_elem_of_lookup_1 in HB as [l HB].
        specialize (H (l, B)). simpl in H. rewrite count_at_zeros in H.
        destruct (decide (l < nlev ∧ B < N + 1)) as [[_ ?]|]; [lia|].
        destruct H as [? H]; [|done].
        apply list_elem_of_bind. exists Bs. split; [|done].
        apply list_elem_of_lookup_2 with l.
        by rewrite list_lookup_imap, HB.
    + intros H [l B] (Bs & Hin & HBs)%list_elem_of_bind. simpl.
      apply list_elem_of_lookup_1 in Hin as [i Hi].
      rewrite list_lookup_imap in Hi.
      destruct (Bs !! i) as [b|] eqn:Hb; simplify_eq/=.
      destruct (H Bs HBs) as [Hlen HB].
      rewrite count_at_zeros, decide_True; [done|].
      split; [apply lookup_lt_Some in Hb; lia|].
      eapply Forall_lookup_1 in HB; [|done]. simpl in HB. lia.
  - intros gm Hf l B Hl HB. rewrite (Hcnt gm Hf), count_at_zeros.
    rewrite decide_True by lia. simpl.
    by rewrite count_pairs_invocations.
Qed.

Lemma run_callbacks_length gm invocations gm' :
  run_callbacks gm invocations = Ok gm' → length gm' = length gm.
Proof. rewrite run_callbacks_flat. apply foldl_bump_length. Qed.

(** X5.  The callback of lines 245-249 keeps a histogram.  From the fresh
    accumulators of [nlev] levels and [N + 1] zeros each, the invocations
    return exactly when every invocation hands in at most [nlev] levels with
    at most [N] nonempty groups each (otherwise an index is out of range and
    the callback raises), and then entry [B] of level [l] is the number of
    invocations in which level [l] had [B] nonempty groups. *)
Theorem callback_histogram (nlev N : nat) (invocations : list (list nat)) :
  ((∃ gm, run_callbacks (replicate nlev (replicate (N + 1) 0%Z)) invocations
          = Ok gm)
   ↔ Forall (λ Bs, length Bs ≤ nlev ∧ Forall (λ B, B ≤ N) Bs) invocations)
  ∧ ∀ gm, run_callbacks (replicate nlev (replicate (N + 1) 0%Z)) invocations
          = Ok gm →
      ∀ l B, l < nlev → B ≤ N →
        count_at gm l B
        = Some (Z.of_nat
                  (length (filter (λ Bs, Bs !! l = Some B) invocations))).
Proof. apply run_callbacks_zeros. Qed.


(** Three sweeps over two levels of a graph with three nodes. *)
Lemma callback_histogram_witness :
  ∃ gm, run_callbacks (replicate 2 (replicate (3 + 1) 0%Z))
          [[3; 1]; [2; 1]; [3; 1]] = Ok gm
        ∧ count_at gm 0 3 = Some 2%Z ∧ count_at gm 1 1 = Some 3%Z.
Proof.
  destruct (callback_histogram 2 3 [[3; 1]; [2; 1]; [3; 1]]) as [Hiff Hcnt].
  destruct (proj2 Hiff) as [gm Hgm].
  { repeat constructor; simpl; lia. }
  exists gm. split; [exact Hgm|]. split.
  - apply (Hcnt gm Hgm 0 3); lia.
  - apply (Hcnt gm Hgm 1 1); lia.
Defined.

(** ** Pruning after the write of the level columns *)

Lemma omap_lookup_fmap_seq {A} (f : nat → A) n (idx : list nat) :
  Forall (λ i, i < n) idx →
  omap (λ i, (f <$> seq 0 n) !! i) idx = f <$> idx.
Proof.
  induction 1 as [|i idx Hi _ IH]; [done|].
  csimpl. rewrite list_lookup_fmap, lookup_seq_lt by done. simpl.
  by rewrite IH.
Qed.

Lemma pruned_positions_lt ami (groups : DataFrame) b i :
  i ∈ pruned_positions ami groups b → i + 1 < length groups.
Proof.
  unfold pruned_positions.
  destruct b; intros (v & Hv & _)%elem_of_np_where;
    apply lookup_lt_Some in Hv; rewrite mi_groups_length in Hv; lia.
Qed.

Lemma pruned_positions_sorted ami (groups : DataFrame) b :
  StronglySorted lt (pruned_positions ami groups b).
Proof. unfold pruned_positions, np_where. destruct b; apply where_from_sorted. Qed.

Lemma prune_groups_names ami key cols b :
  prune_groups ami (name_levels key cols) b
  = level_name key <$> pruned_positions ami (name_levels key cols) b.
Proof.
  unfold prune_groups. rewrite name_levels_columns.
  apply omap_lookup_fmap_seq, Forall_forall. intros i Hi.
  apply pruned_positions_lt in Hi.
  unfold name_levels in Hi. rewrite length_imap in Hi. lia.
Qed.

Lemma attached_columns key rl cols :
  df_columns (attached rl (name_levels key cols))
  = level_name key <$> seq (if rl then 0 else 1)
                         (length cols - (if rl then 0 else 1)).
Proof.
  unfold attached. destruct rl.
  - by rewrite name_levels_columns, Nat.sub_0_r.
  - unfold df_columns. rewrite fmap_drop.
    fold (df_columns (name_levels key cols)). rewrite name_levels_columns.
    rewrite <- fmap_drop. f_equal.
    destruct (length cols) as [|n]; [done|]. simpl. by rewrite Nat.sub_0_r.
Qed.

Lemma level_in_finalize key rl cols (obs : DataFrame) l :
  level_name key l ∈ df_columns (finalize_obs key rl (name_levels key cols) obs)
  ↔ l < length cols ∧ (rl = false → 1 ≤ l).
Proof.
  unfold finalize_obs, df_columns. rewrite fmap_app, elem_of_app.
  fold (df_columns (df_loc_list obs (keep_columns key obs))).
  fold (df_columns (attached rl (name_levels key cols))).
  rewrite attached_columns. split.
  - intros [H|H]; [by apply kept_not_level in H|].
    apply list_elem_of_fmap in H as (i & Heq & Hi).
    apply level_name_inj in Heq as <-. apply elem_of_seq in Hi.
    destruct rl; split; (lia || done || intros; lia).
  - intros [Hl Hrl]. right. apply list_elem_of_fmap. exists l. split; [done|].
    apply elem_of_seq. destruct rl; [lia|]. specialize (Hrl eq_refl). lia.
Qed.

(** X6.  Pruning after the level columns were written (lines 294-302, then
    370-375).  [adata.obs.drop] raises [KeyError] exactly when level 0 was
    not attached ([return_low=False]) and the pruner names it (the first two
    levels score 1); the label is that of level 0.  In every other case the
    drop returns, the level columns left are the attached ones the pruner
    did not name, and the other columns are the ones kept at line 295. *)
Theorem prune_after_write
    (ami : list (option label) → list (option label) → float)
    (key : string) (rl : bool) (cols : list Categorical) (obs : DataFrame) :
  let groups := name_levels key cols in
  let written := finalize_obs key rl groups obs in
  let to_remove := prune_groups ami groups false in
  (rl = false ∧ 0 ∈ pruned_positions ami groups false →
     df_drop written to_remove = Raise (KeyError (level_name key 0)))
  ∧ (¬ (rl = false ∧ 0 ∈ pruned_positions ami groups false) →
     ∃ o, df_drop written to_remove = Ok o
          ∧ level_columns key o
            = filter (λ c, c.1 ∉ to_remove) (attached rl groups)
          ∧ filter (λ c, startswith c.1 (level_prefix key) = false) o
            = df_loc_list obs (keep_columns key obs)).
Proof.
  intros groups written to_remove.
  assert (to_remove = level_name key <$> pruned_positions ami groups false)
    as Hnames by apply prune_groups_names.
  pose proof (pruned_positions_sorted ami groups false) as Hsorted.
  assert (∀ i, i ∈ pruned_positions ami groups false → i < length cols) as Hlt.
  { intros i Hi%pruned_positions_lt. unfold groups, name_levels in Hi.
    rewrite length_imap in Hi. lia. }
  split.
  - intros [-> H0]. unfold df_drop. fold to_remove. rewrite Hnames.
    destruct (pruned_positions ami groups false) as [|i idx] eqn:Hpos;
      [by apply elem_of_nil in H0|].
    assert (i = 0) as ->.
    { apply elem_of_cons in H0 as [->|H0]; [done|].
      apply StronglySorted_inv in Hsorted as [_ Hall].
      eapply Forall_forall in Hall; [|done]. lia. }
    csimpl. rewrite filter_cons_True; [done|].
    unfold written, groups. rewrite level_in_finalize. intros [_ H].
    specialize (H eq_refl). lia.
  - intros Hno. unfold df_drop. fold to_remove.
    rewrite (filter_none _ to_remove); last first.
    { apply Forall_forall. intros k Hk Hnot. apply Hnot. clear Hnot.
      rewrite Hnames in Hk. apply list_elem_of_fmap in Hk as (i & -> & Hi).
      unfold written, groups. apply level_in_finalize.
      split; [by apply Hlt|]. intros ->.
      destruct (decide (i = 0)) as [->|]; [|lia]. exfalso. by apply Hno. }
    eexists. split; [done|]. unfold written, finalize_obs.
    rewrite filter_app. split.
    + unfold level_columns. rewrite filter_app.
      rewrite (filter_none _ (filter _ (df_loc_list _ _))); last first.
      { apply Forall_forall. intros c [_ Hc]%list_elem_of_filter.
        apply elem_of_df_loc_list in Hc as [Hk _].
        apply list_elem_of_filter in Hk as [Hk _]. by rewrite Hk. }
      simpl. apply filter_all, Forall_forall.
      intros c [_ Hc]%list_elem_of_filter.
      eapply elem_of_sublist in Hc; [|apply attached_sublist].
      apply elem_of_lookup_imap in Hc as (i & y & -> & _).
      apply startswith_level_name.
    + rewrite filter_app.
      rewrite (filter_none _ (filter _ (attached _ _))); last first.
      { apply Forall_forall. intros c [_ Hc]%list_elem_of_filter.
        eapply elem_of_sublist in Hc; [|apply attached_sublist].
        apply elem_of_lookup_imap in Hc as (i & y & -> & _).
        simpl. by rewrite startswith_level_name. }
      rewrite app_nil_r.
      rewrite (filter_all _ (df_loc_list _ _)); last first.
      { apply Forall_forall. intros c Hc Hin. rewrite Hnames in Hin.
        apply list_elem_of_fmap in Hin as (i & Heq & _).
        apply elem_of_df_loc_list in Hc as [Hk _].
        apply list_elem_of_filter in Hk as [Hk _].
        rewrite Heq, startswith_level_name in Hk. done. }
      apply filter_all, Forall_forall. intros c Hc.
      apply elem_of_df_loc_list in Hc as [Hk _].
      by apply list_elem_of_filter in Hk as [Hk _].
Qed.

(** Two identical lowest levels, level 0 hidden: the drop raises. *)
Lemma prune_after_write_witness :
  df_drop (finalize_obs "nsbm" false twin_levels (obs annotated_cells))
    (prune_groups ami_exact twin_levels false)
  = Raise (KeyError "nsbm_level_0").
Proof.
  apply (proj1 (prune_after_write ami_exact "nsbm" false
                  (relabel [[4; 4]%Z; [0; 0]%Z]) (obs annotated_cells))).
  split; [reflexivity|]. vm_compute. apply list_elem_of_here.
Defined.

(** ** Runs that stop before the graph *)

Section Graph.
Context {E : Env}.

Lemma fast_body_split p (publish : fitted * DataFrame → M E unit) s :
  (fast_prepare E p ≫= publish) s
  = ((import_gt E;; seed_rngs E (random_seed p))
       ≫= λ _, (f ← fast_sample E p;
                groups ← label_table E p (f_graph f) (f_bs f);
                mret (f, groups)) ≫= publish) s.
Proof.
  unfold fast_prepare. rewrite !run_bind.
  destruct (import_gt E s) as [[e|[]] s1]; [done|].
  rewrite !run_bind.
  by destruct (seed_rngs E (random_seed p) s1) as [[e|[]] s2].
Qed.

Lemma build_graph_no_neighbors p s :
  adjacency p = None → uns (adata s) !! "neighbors" = None →
  build_graph E p s = (Raise (ValueError neighbors_message), s).
Proof.
  intros Ha Hu. unfold build_graph, choose_adjacency. rewrite Ha.
  rewrite !run_bind. unfold get_adata. by rewrite Hu.
Qed.

End Graph.

(** X7.  Without an [adjacency] argument and without
    [adata.uns['neighbors']], both drivers raise for every other argument
    and outside world, before any graph is built (lines 183-190 and
    545-552): the caller's container is untouched and no engine call is
    made.  Whenever the import and the seeding return (and, for
    [nested_model], the precondition of line 173 holds), the exception is
    the [ValueError] that asks for [pp.neighbors]. *)
Theorem neighbors_required (E : Env) (p : Kwargs) (a : AnnData) (w : world E) :
  adjacency p = None → uns a !! "neighbors" = None →
  (is_raise (result (fast_model E p a w)) = true
   ∧ caller_adata (fast_model E p a w) = a
   ∧ Forall (λ ev, is_engine_call ev = false) (events (fast_model E p a w))
   ∧ ∀ s1, (import_gt E;; seed_rngs E (random_seed p)) (init_state E a w)
           = (Ok tt, s1) →
       result (fast_model E p a w) = Raise (ValueError neighbors_message))
  ∧ (is_raise (result (nested_model E p a w)) = true
     ∧ caller_adata (nested_model E p a w) = a
     ∧ Forall (λ ev, is_engine_call ev = false) (events (nested_model E p a w))
     ∧ ∀ s1, (import_gt E;; seed_rngs E (random_seed p)) (init_state E a w)
             = (Ok tt, s1) →
         (collect_marginals p = true → equilibrate p = true) →
         result (nested_model E p a w) = Raise (ValueError neighbors_message)).
Proof.
  intros Ha Hu.
  destruct (preamble_quiet (E:=E) (random_seed p)) as [Hsame Happ].
  split.
  - unfold fast_model.
    destruct (run_driver_events (E:=E) p
                (fg ← fast_prepare E p; fast_publish E p fg.1 fg.2) a w)
      as (-> & -> & ->).
    rewrite fast_body_split, run_bind.
    destruct ((import_gt E;; seed_rngs E (random_seed p)) (init_state E a w))
      as [[e|[]] s1] eqn:Hpre;
      specialize (Hsame _ _ _ Hpre);
      destruct (Happ _ _ _ Hpre) as (evs & Ht & Hev);
      unfold same_adata in Hsame; simpl in Hsame, Ht.
    + simpl. rewrite Hsame, Ht.
      split; [done|]. split; [by destruct (copy p)|]. split; [done|].
      intros s1' [=].
    + rewrite run_bind. unfold fast_sample. rewrite !run_bind.
      rewrite build_graph_no_neighbors by (by rewrite ?Hsame).
      simpl. rewrite Hsame, Ht.
      split; [done|]. split; [by destruct (copy p)|]. split; [done|].
      by intros s1' [= <-].
  - unfold nested_model.
    destruct (run_driver_events (E:=E) p
                (fg ← nested_prepare E p; nested_publish E p fg.1 fg.2) a w)
      as (-> & -> & ->).
    rewrite nested_body_split, run_bind.
    destruct ((import_gt E;; seed_rngs E (random_seed p)) (init_state E a w))
      as [[e|[]] s1] eqn:Hpre;
      specialize (Hsame _ _ _ Hpre);
      destruct (Happ _ _ _ Hpre) as (evs & Ht & Hev);
      unfold same_adata in Hsame; simpl in Hsame, Ht.
    + simpl. rewrite Hsame, Ht.
      split; [done|]. split; [by destruct (copy p)|]. split; [done|].
      intros s1' [=].
    + rewrite run_bind. unfold check_marginals.
      destruct (collect_marginals p) eqn:Hc; [destruct (equilibrate p) eqn:He|];
        simpl; rewrite ?run_bind; unfold nested_sample; rewrite ?run_bind;
        rewrite ?build_graph_no_neighbors by (by rewrite ?Hsame);
        simpl; rewrite Hsame, Ht;
        (split; [done|]); (split; [by destruct (copy p)|]); (split; [done|]);
        intros s1' [= <-] Hpre'; try done.
      by specialize (Hpre' eq_refl).
Qed.

(** The stand-in engine on a container that has no neighbourhood graph. *)
Lemma neighbors_required_witness :
  result (fast_model stub_env default_params
            {| obs := []; obs_names := ["cell_0"; "cell_1"]; uns := ∅ |}
            (stub_world0 0))
  = Raise (ValueError neighbors_message).
Proof.
  apply (proj2 (proj2 (proj2 (proj1
    (neighbors_required stub_env default_params
       {| obs := []; obs_names := ["cell_0"; "cell_1"]; uns := ∅ |}
       (stub_world0 0) eq_refl (lookup_empty "neighbors")))))
    (Build_st stub_env (stub_world0 0) [EvImport]
       {| obs := []; obs_names := ["cell_0"; "cell_1"]; uns := ∅ |})).
  reflexivity.
Defined.

(** ** The calls a run makes *)

Ltac solve_expected :=
  simpl;
  repeat match goal with
         | H : ?x = _ |- context [?x] => rewrite H
         end;
  simpl; done.

Ltac expected_step :=
  lazymatch goal with
  | |- respects _ (if ?b then _ else _) => destruct b eqn:?
  | |- respects _ (match ?x with _ => _ end) => destruct x eqn:?
  | |- respects (appends _) (call _ _ _) => apply appends_call; solve_expected
  | |- respects (appends _) (equilibrate_collecting _ _ _) =>
      apply appends_collecting; solve_expected
  | _ => respects_step
  end.

Section Calls.
Context {E : Env}.

Lemma seeds_expected nested p :
  respects (appends (λ ev, expected_call nested p ev = true))
    (seed_rngs E (random_seed p)).
Proof.
  apply seed_rngs_appends. intros s Hs Hne. simpl. rewrite Hs, Z.eqb_refl.
  by rewrite (proj2 (Z.eqb_neq s 0) Hne).
Qed.

Lemma nested_prepare_expected p :
  respects (appends (λ ev, expected_call true p ev = true))
    (nested_prepare E p).
Proof.
  unfold nested_prepare.
  apply respects_bind; [apply _..|by apply import_appends|intros _].
  apply respects_bind; [apply _..|apply seeds_expected|intros _].
  unfold check_marginals, nested_sample, label_table, build_graph,
    choose_adjacency, restrict, sweep_call, equilibrate_call,
    collect_group_marginals, project_groups, set_index.
  repeat expected_step.
Qed.

Lemma fast_prepare_expected p :
  respects (appends (λ ev, expected_call false p ev = true))
    (fast_prepare E p).
Proof.
  unfold fast_prepare.
  apply respects_bind; [apply _..|by apply import_appends|intros _].
  apply respects_bind; [apply _..|apply seeds_expected|intros _].
  unfold fast_sample, label_table, build_graph, choose_adjacency, restrict,
    equilibrate_call, collect_group_marginals, project_groups, set_index.
  repeat expected_step.
Qed.

Lemma nested_publish_expected p f groups :
  respects (appends (λ ev, expected_call true p ev = true))
    (nested_publish E p f groups).
Proof.
  unfold nested_publish, write_obs, nested_stats, reset_nsbm, level_stats,
    write_mf_entropy, write_state, write_marginals, prune_step,
    final_message, modify_nsbm.
  repeat expected_step.
Qed.

Lemma fast_publish_expected p f groups :
  respects (appends (λ ev, expected_call false p ev = true))
    (fast_publish E p f groups).
Proof.
  unfold fast_publish, write_obs, fast_stats, reset_nsbm, level_stats,
    write_mf_entropy, write_state, write_marginals, prune_step,
    final_message, modify_nsbm.
  repeat expected_step.
Qed.

End Calls.

(** X8.  Every outside call of a run is one its arguments allow, whatever
    the outcome.  [fast_model] never minimises, never copies the state and
    never sweeps; [nested_model] sweeps with the sweep [multiflip] names and
    builds a [NestedBlockState] of its own only with [use_weights];
    [restrict_adjacency] is called only with [restrict_to]; the
    equilibration of [nested_model] only with [equilibrate]; the collecting
    equilibration, [mf_entropy], [get_2d_array] and the group count of
    level 0 only with [collect_marginals]; the generators are seeded only
    with the nonzero [random_seed]. *)
Theorem calls_follow_arguments (E : Env) (p : Kwargs) (a : AnnData)
    (w : world E) :
  Forall (λ ev, expected_call true p ev = true) (events (nested_model E p a w))
  ∧ Forall (λ ev, expected_call false p ev = true)
      (events (fast_model E p a w)).
Proof.
  split.
  - unfold nested_model.
    destruct (run_driver_events (E:=E) p
                (fg ← nested_prepare E p; nested_publish E p fg.1 fg.2) a w)
      as (-> & _).
    assert (respects (appends (λ ev, expected_call true p ev = true))
              (fg ← nested_prepare E p; nested_publish E p fg.1 fg.2)) as H.
    { apply respects_bind; [apply _..|apply nested_prepare_expected|].
      intros fg. apply nested_publish_expected. }
    destruct (nested_prepare E p ≫= _) as [r s] eqn:Hrun.
    destruct (H _ _ _ Hrun) as (evs & Ht & Hev). simpl in *. by rewrite Ht.
  - unfold fast_model.
    destruct (run_driver_events (E:=E) p
                (fg ← fast_prepare E p; fast_publish E p fg.1 fg.2) a w)
      as (-> & _).
    assert (respects (appends (λ ev, expected_call false p ev = true))
              (fg ← fast_prepare E p; fast_publish E p fg.1 fg.2)) as H.
    { apply respects_bind; [apply _..|apply fast_prepare_expected|].
      intros fg. apply fast_publish_expected. }
    destruct (fast_prepare E p ≫= _) as [r s] eqn:Hrun.
    destruct (H _ _ _ Hrun) as (evs & Ht & Hev). simpl in *. by rewrite Ht.
Qed.

(** ** What the write-out leaves alone *)

Section Keeps.
Context {E : Env} {X : Type} (π : AnnData → X).

#[global] Instance keeps_refl : Reflexive (keeps (E:=E) π).
Proof. by intros s. Qed.
#[global] Instance keeps_trans : Transitive (keeps (E:=E) π).
Proof. intros s1 s2 s3 H1 H2. unfold keeps in *. congruence. Qed.

Lemma keeps_same {A} (m : M E A) :
  respects same_adata m → respects (keeps π) m.
Proof. intros H s r s' Hs. unfold keeps. by rewrite (H _ _ _ Hs). Qed.

Lemma keeps_write_obs p groups :
  (∀ a o, π (set_obs a o) = π a) →
  respects (keeps π) (write_obs E p groups).
Proof. intros Hπ s r s' [= <- <-]. apply Hπ. Qed.

Lemma keeps_prune p groups :
  (∀ a o, π (set_obs a o) = π a) →
  respects (keeps π) (prune_step E p groups).
Proof.
  intros Hπ s r s'. unfold prune_step. destruct (prune p); [|by intros [= <- <-]].
  rewrite run_bind. unfold get_adata. rewrite run_bind. unfold lift.
  destruct (df_drop _ _); intros [= <- <-]; [done|apply Hπ].
Qed.

Lemma keeps_reset :
  (∀ a u, π (set_uns a (<["nsbm" := u]> (uns a))) = π a) →
  respects (keeps π) (reset_nsbm E).
Proof. intros Hπ s r s' [= <- <-]. apply Hπ. Qed.

Lemma keeps_modify (f : nsbm_entry → res nsbm_entry) :
  (∀ a d d', nsbm_of a = Some d → f d = Ok d' →
     π (set_uns a (<["nsbm" := UnsNsbm d']> (uns a))) = π a) →
  respects (keeps π) (modify_nsbm E f).
Proof.
  intros Hπ s r s'. unfold modify_nsbm. rewrite run_bind. unfold get_adata.
  destruct (uns (adata s) !! "nsbm") as [[d|d|t]|] eqn:Hd;
    try (by intros [= <- <-]).
  rewrite run_bind. unfold lift. destruct (f d) as [e|d'] eqn:Hf;
    intros [= <- <-]; [done|].
  apply Hπ with d; [|done]. unfold nsbm_of. by rewrite Hd.
Qed.

End Keeps.

Lemma outside_set_obs a o : outside_outputs (set_obs a o) = outside_outputs a.
Proof. done. Qed.

Lemma outside_set_nsbm a u :
  outside_outputs (set_uns a (<["nsbm" := u]> (uns a))) = outside_outputs a.
Proof. unfold outside_outputs. simpl. by rewrite delete_insert_eq. Qed.

Ltac keeps_step tac :=
  lazymatch goal with
  | |- respects (keeps _) (call _ _ _) => apply keeps_same, same_adata_call
  | |- respects (keeps _) (equilibrate_collecting _ _ _) =>
      apply keeps_same, same_adata_collecting
  | |- respects (keeps _) (write_obs _ _ _) => apply keeps_write_obs; tac
  | |- respects (keeps _) (prune_step _ _ _) => apply keeps_prune; tac
  | |- respects (keeps _) (reset_nsbm _) => apply keeps_reset; tac
  | |- respects (keeps _) (modify_nsbm _ _) => apply keeps_modify; tac
  | _ => respects_step
  end.

Section Outside.
Context {E : Env}.

Lemma drivers_keep_outside p :
  respects (keeps outside_outputs)
    (fg ← nested_prepare E p; nested_publish E p fg.1 fg.2)
  ∧ respects (keeps outside_outputs)
      (fg ← fast_prepare E p; fast_publish E p fg.1 fg.2).
Proof.
  destruct (prepare_same_adata (E:=E) p) as [Hn Hf].
  split.
  - apply respects_bind; [apply _..|by apply keeps_same|intros fg].
    unfold nested_publish, nested_stats, level_stats, write_mf_entropy,
      write_state, write_marginals, final_message.
    repeat keeps_step
      ltac:(first [exact outside_set_obs
                  |exact outside_set_nsbm
                  |intros; apply outside_set_nsbm]).
  - apply respects_bind; [apply _..|by apply keeps_same|intros fg].
    unfold fast_publish, fast_stats, level_stats, write_mf_entropy,
      write_state, write_marginals, final_message.
    repeat keeps_step
      ltac:(first [exact outside_set_obs
                  |exact outside_set_nsbm
                  |intros; apply outside_set_nsbm]).
Qed.

Lemma run_driver_outputs p (body : M E unit) a w :
  respects (keeps outside_outputs) body →
  outside_outputs (caller_adata (run_driver E p body a w)) = outside_outputs a.
Proof.
  intros H. unfold run_driver.
  destruct (body (init_state E a w)) as [r s] eqn:Hrun.
  specialize (H _ _ _ Hrun). unfold keeps in H. simpl in *.
  by destruct (copy p).
Qed.

End Outside.

Lemma outside_outputs_spec a c :
  outside_outputs c = outside_outputs a ↔
  obs_names c = obs_names a ∧ ∀ k, k ≠ "nsbm" → uns c !! k = uns a !! k.
Proof.
  unfold outside_outputs. split.
  - intros [= Hn Hu]. split; [done|]. intros k Hk.
    by rewrite <- (lookup_delete_ne (uns c) "nsbm" k),
                 <- (lookup_delete_ne (uns a) "nsbm" k), Hu by done.
  - intros [Hn Hu]. f_equal; [done|]. apply map_eq. intros k.
    destruct (decide (k = "nsbm")) as [->|Hk].
    + by rewrite !lookup_delete_eq.
    + rewrite !lookup_delete_ne by done. by apply Hu.
Qed.

(** X9.  In the caller's container the drivers write [adata.obs] and
    [adata.uns['nsbm']] and nothing else: whatever the arguments, the
    outside world and the outcome, after the call the caller's container
    has the observation names it had and, under every key other than
    ['nsbm'], the entry of [adata.uns] it had (in particular
    [adata.uns['neighbors']]).  With [copy=False] this is the container the
    run worked on; what [adata.copy()] returns with [copy=True] is not
    covered. *)
Theorem drivers_write_outputs_only (E : Env) (p : Kwargs) (a : AnnData)
    (w : world E) (c : AnnData) :
  c ∈ [caller_adata (nested_model E p a w);
       caller_adata (fast_model E p a w)] →
  obs_names c = obs_names a ∧ ∀ k, k ≠ "nsbm" → uns c !! k = uns a !! k.
Proof.
  intros Hc. apply outside_outputs_spec.
  destruct (drivers_keep_outside (E:=E) p) as [Hn Hf].
  pose proof (run_driver_outputs p _ a w Hn) as Hn1.
  pose proof (run_driver_outputs p _ a w Hf) as Hf1.
  repeat (apply elem_of_cons in Hc as [->|Hc]; [done|]).
  by apply elem_of_nil in Hc.
Qed.

(** A complete run of the stand-in engine with [copy=False] keeps the
    neighbourhood graph. *)
Lemma drivers_write_outputs_only_witness :
  uns (caller_adata (nested_model stub_env default_params two_cells
                       (stub_world0 0))) !! "neighbors"
  = uns two_cells !! "neighbors".
Proof.
  apply (drivers_write_outputs_only stub_env default_params two_cells
           (stub_world0 0)
           (caller_adata (nested_model stub_env default_params two_cells
                            (stub_world0 0)))).
  - apply list_elem_of_here.
  - done.
Defined.

(** ** The label table and the columns a run attaches *)

Section Table.
Context {E : Env}.

Lemma collect_inv {A B} (f : A → M E B) (Q : B → Prop) l s ys s' :
  (∀ x s a s', f x s = (Ok a, s') → Q a) →
  collect E f l s = (Ok ys, s') →
  length ys = length l ∧ Forall Q ys.
Proof.
  intros Hf. revert s ys s'. induction l as [|x l IH]; intros s ys s'; simpl.
  - intros [= <- _]. by split.
  - intros H. apply run_bind_inv in H as (y & s1 & Hy & H).
    apply run_bind_inv in H as (ys' & s2 & Hys & H).
    injection H as <- _. destruct (IH _ _ _ Hys) as [Hlen Hall].
    split; [simpl; by rewrite Hlen|]. constructor; [by eapply Hf|done].
Qed.

Lemma assign_column_length N a c : assign_column N a = Ok c → length c = N.
Proof.
  unfold assign_column. case_bool_decide as Hlen; [by intros [= <-]|].
  destruct a as [|v [|? ?]]; try done. intros [= <-]. apply length_replicate.
Qed.

Lemma collect_inv_lookup {A B} (f : A → M E B) l s ys s' :
  collect E f l s = (Ok ys, s') →
  ∀ i y, ys !! i = Some y →
    ∃ x s1 s2, l !! i = Some x ∧ f x s1 = (Ok y, s2).
Proof.
  revert s ys s'. induction l as [|x l IH]; intros s ys s'; simpl.
  - by intros [= <- _] i y ?.
  - intros H. apply run_bind_inv in H as (y0 & s1 & Hy & H).
    apply run_bind_inv in H as (ys' & s2 & Hys & H).
    injection H as <- _. intros [|i] y Hi; simpl in Hi.
    + injection Hi as <-. by exists x, s, s1.
    + by eapply IH.
Qed.

Lemma project_groups_inv g bs s raw s' :
  project_groups E g bs s = (Ok raw, s') →
  length raw = length bs
  ∧ Forall (λ col, length col = num_vertices g) raw
  ∧ adata s' = adata s
  ∧ projected E (num_vertices g) raw.
Proof.
  intros H.
  assert (respects same_adata (project_groups E g bs)) as Hsame
    by (unfold project_groups; repeat respects_step).
  specialize (Hsame _ _ _ H).
  pose proof (collect_inv_lookup _ _ _ _ _ H) as Hlook.
  apply collect_inv with (Q := λ col, length col = num_vertices g) in H.
  - destruct H as [Hlen Hall]. rewrite length_seq in Hlen.
    do 3 (split; [done|]). intros l col Hl.
    destruct (Hlook l col Hl) as (x & s1 & s2 & Hx & Hrun).
    apply lookup_seq in Hx as [-> _]. simpl in Hrun.
    apply run_bind_inv in Hrun as (arr & s3 & Hcall & Hlift).
    apply run_call_inv in Hcall as (w1 & Hcall).
    unfold lift in Hlift. injection Hlift as Hlift _.
    by exists (ext s1), w1, arr.
  - intros x s1 a s1' Hx. apply run_bind_inv in Hx as (a0 & s2 & _ & Hx).
    unfold lift in Hx. injection Hx as Hx _. by eapply assign_column_length.
Qed.

Lemma set_index_inv p g s s' :
  set_index E p g s = (Ok tt, s') →
  length (obs_names (adata s)) = num_vertices g ∧ s' = s.
Proof.
  unfold set_index. rewrite run_bind. unfold get_adata. rewrite run_bind.
  destruct (restrict_to p) as [[k c]|].
  - case_bool_decide; [|done]. simpl.
    case_bool_decide; [|done]. by intros [= <-].
  - simpl. case_bool_decide; [|done]. by intros [= <-].
Qed.

Lemma label_table_inv p g bs s groups s' :
  label_table E p g bs s = (Ok groups, s') →
  ∃ raw, groups = name_levels (key_added p) (relabel raw)
         ∧ length raw = length bs
         ∧ Forall (λ col, length col = length (obs_names (adata s))) raw
         ∧ length (obs_names (adata s)) = num_vertices g
         ∧ adata s' = adata s
         ∧ projected E (length (obs_names (adata s))) raw.
Proof.
  unfold label_table. intros H.
  apply run_bind_inv in H as (raw & s1 & Hraw & H).
  apply run_bind_inv in H as ([] & s2 & Hidx & H).
  injection H as <- <-.
  apply project_groups_inv in Hraw as (Hlen & Hall & Hsame & Hproj).
  apply set_index_inv in Hidx as [HN ->]. rewrite Hsame in HN.
  exists raw. rewrite HN. done.
Qed.

End Table.

(** X10.  The label table needs one observation per vertex (lines 270-288).
    When the graph does not have exactly [len(adata.obs_names)] vertices
    (as after a restriction to a proper subset of the cells), the
    assignment of [groups.index] cannot succeed: [label_table] raises and
    leaves the container as it was. *)
Theorem label_table_needs_every_cell (E : Env) (p : Kwargs) (g : Graph)
    (bs : list (list Z)) (s : st E) :
  length (obs_names (adata s)) ≠ num_vertices g →
  ∃ e s', label_table E p g bs s = (Raise e, s') ∧ adata s' = adata s.
Proof.
  intros Hne.
  assert (respects same_adata (label_table E p g bs)) as Hsame
    by (unfold label_table, project_groups, set_index; repeat respects_step).
  destruct (label_table E p g bs s) as [[e|groups] s'] eqn:H.
  - exists e, s'. split; [done|]. by apply (Hsame _ _ _ H).
  - apply label_table_inv in H as (raw & _ & _ & _ & HN & _). done.
Qed.

(** Two observations, a graph of one vertex. *)
Lemma label_table_needs_every_cell_witness :
  ∃ e s', label_table stub_env default_params
            {| num_vertices := 1; is_directed := false; edge_list := [] |}
            [[0%Z]] (init_state stub_env two_cells (stub_world0 0))
          = (Raise e, s')
          ∧ adata s' = two_cells.
Proof.
  apply (label_table_needs_every_cell stub_env default_params
           {| num_vertices := 1; is_directed := false; edge_list := [] |}
           [[0%Z]] (init_state stub_env two_cells (stub_world0 0))).
  simpl. lia.
Defined.

Section Columns.
Context {E : Env}.

Lemma fast_sample_bs p s f s' :
  fast_sample E p s = (Ok f, s') →
  f_bs f = singleton_bs (hierarchy_length p).
Proof.
  unfold fast_sample. intros H.
  apply run_bind_inv in H as (g & s1 & _ & H).
  apply run_bind_inv in H as (? & s2 & _ & H).
  apply run_bind_inv in H as (eq & s3 & _ & H).
  destruct (collect_marginals p).
  - apply run_bind_inv in H as (gm & s4 & _ & H). by injection H as <- _.
  - by injection H as <- _.
Qed.

Lemma write_obs_run p groups s :
  write_obs E p groups s
  = (Ok tt, {| ext := ext s; trace := trace s;
               adata := set_obs (adata s)
                          (finalize_obs (key_added p) (return_low p) groups
                             (obs (adata s))) |}).
Proof. done. Qed.

Lemma prune_step_inv p groups s s' :
  prune_step E p groups s = (Ok tt, s') →
  obs (adata s')
  = if prune p
    then filter (λ c, c.1 ∉ prune_groups (adjusted_mutual_info_score E)
                              groups false) (obs (adata s))
    else obs (adata s).
Proof.
  unfold prune_step. destruct (prune p); [|by intros [= <-]].
  rewrite run_bind. unfold get_adata. rewrite run_bind. unfold lift.
  destruct (df_drop _ _) as [e|o] eqn:Hd; [done|]. intros [= <-]. simpl.
  unfold df_drop in Hd. destruct (filter _ _); [|done]. by injection Hd as <-.
Qed.

Lemma marginals_keep_obs p f groups :
  respects (keeps obs) (write_state E p)
  ∧ respects (keeps obs)
      (if collect_marginals p then write_marginals E p f groups else mret tt)
  ∧ respects (keeps obs) (final_message E)
  ∧ ∀ h, respects (keeps obs) (modify_nsbm E h).
Proof.
  unfold write_state, write_marginals, final_message.
  split; [|split; [|split; [|intros h]]]; repeat keeps_step ltac:(done).
Qed.

Lemma stats_keep_obs p f :
  respects (keeps obs) (nested_stats E p f)
  ∧ respects (keeps obs) (fast_stats E p f).
Proof.
  unfold nested_stats, fast_stats, level_stats, write_mf_entropy.
  split; repeat keeps_step ltac:(done).
Qed.

(** The write-out, whatever the statistics and the parameters are. *)
Lemma publish_obs (stats : M E unit) (h : nsbm_entry → res nsbm_entry)
    p f groups s s' :
  respects (keeps obs) stats →
  (write_obs E p groups;; stats;; write_state E p;;
   (if collect_marginals p then write_marginals E p f groups else mret tt);;
   prune_step E p groups;; modify_nsbm E h;; final_message E) s = (Ok tt, s') →
  obs (adata s')
  = (if prune p
     then filter (λ c, c.1 ∉ prune_groups (adjusted_mutual_info_score E)
                               groups false)
     else id)
      (finalize_obs (key_added p) (return_low p) groups (obs (adata s))).
Proof.
  intros Hstats H.
  destruct (marginals_keep_obs p f groups) as (Hst & Hm & Hfin & Hmod).
  apply run_bind_inv in H as ([] & s1 & H1 & H).
  rewrite write_obs_run in H1. injection H1 as <-.
  apply run_bind_inv in H as ([] & s2 & H2 & H). apply Hstats in H2.
  apply run_bind_inv in H as ([] & s3 & H3 & H). apply Hst in H3.
  apply run_bind_inv in H as ([] & s4 & H4 & H). apply Hm in H4.
  apply run_bind_inv in H as ([] & s5 & H5 & H). apply prune_step_inv in H5.
  apply run_bind_inv in H as ([] & s6 & H6 & H). apply Hmod in H6.
  apply Hfin in H. unfold keeps in *. simpl in *.
  rewrite H, H6, H5, H4, H3, H2. by destruct (prune p).
Qed.

Lemma run_driver_ok p (body : M E unit) a w r :
  result (run_driver E p body a w) = Ok r →
  ∃ s', body (init_state E a w) = (Ok tt, s')
        ∧ output_adata (run_driver E p body a w) = adata s'.
Proof.
  unfold output_adata, run_driver.
  destruct (body (init_state E a w)) as [[e|[]] s'] eqn:Hrun; [done|].
  simpl. intros _. exists s'. split; [done|]. by destruct (copy p).
Qed.

End Columns.

Section Success.
Context {E : Env}.

(** A run that returns has built the label table and written it out. *)
Lemma driver_ok_inv (nested : bool) p a w r :
  result (if nested then nested_model E p a w else fast_model E p a w) = Ok r →
  ∃ f raw s0 s',
    (if nested then Z.to_nat (hierarchy_length p) ≤ length raw
     else length raw = Z.to_nat (hierarchy_length p))
    ∧ Forall (λ col, length col = length (obs_names a)) raw
    ∧ adata s0 = a
    ∧ (∃ sa sb, (if nested then nested_sample E p sa else fast_sample E p sa)
                = (Ok f, sb))
    ∧ ((if nested then nested_prepare E p else fast_prepare E p)
         (init_state E a w)
       = (Ok (f, name_levels (key_added p) (relabel raw)), s0)
       ∧ projected E (length (obs_names a)) raw
       ∧ num_vertices (f_graph f) = length (obs_names a))
    ∧ (if nested
       then nested_publish E p f (name_levels (key_added p) (relabel raw)) s0
       else fast_publish E p f (name_levels (key_added p) (relabel raw)) s0)
      = (Ok tt, s')
    ∧ output_adata (if nested then nested_model E p a w
                    else fast_model E p a w) = adata s'.
Proof.
  destruct (prepare_same_adata (E:=E) p) as [Hn Hf].
  destruct nested; intros Hok.
  - unfold nested_model in *.
    apply run_driver_ok in Hok as (s' & Hrun & ->).
    apply run_bind_inv in Hrun as ([f groups] & s0 & Hprep & Hpub).
    specialize (Hn _ _ _ Hprep). unfold same_adata in Hn. simpl in Hn, Hpub.
    pose proof Hprep as Hprep0.
    unfold nested_prepare in Hprep.
    apply run_bind_inv in Hprep as ([] & s1 & _ & Hprep).
    apply run_bind_inv in Hprep as ([] & s2 & _ & Hprep).
    apply run_bind_inv in Hprep as ([] & s3 & _ & Hprep).
    apply run_bind_inv in Hprep as (f' & s4 & Hsample & Hprep).
    apply run_bind_inv in Hprep as (groups' & s5 & Htable & Hprep).
    injection Hprep as -> -> ->.
    pose proof Hsample as Hsample'.
    apply nested_sample_bs in Hsample as (g0 & w0 & bs0 & w0' & _ & Hbs).
    apply label_table_inv
      in Htable as (raw & -> & Hlen & Hall & HN & Hsame & Hproj).
    rewrite <- Hsame, Hn in Hall, Hproj, HN.
    exists f, raw, s0, s'. split; [|by eauto 10].
    rewrite Hlen, Hbs. unfold pad_bs.
    destruct (Z.ltb_spec (Z.of_nat (length bs0)) (hierarchy_length p)).
    + rewrite length_app, length_replicate. lia.
    + lia.
  - unfold fast_model in *.
    apply run_driver_ok in Hok as (s' & Hrun & ->).
    apply run_bind_inv in Hrun as ([f groups] & s0 & Hprep & Hpub).
    specialize (Hf _ _ _ Hprep). unfold same_adata in Hf. simpl in Hf, Hpub.
    pose proof Hprep as Hprep0.
    unfold fast_prepare in Hprep.
    apply run_bind_inv in Hprep as ([] & s1 & _ & Hprep).
    apply run_bind_inv in Hprep as ([] & s2 & _ & Hprep).
    apply run_bind_inv in Hprep as (f' & s4 & Hsample & Hprep).
    apply run_bind_inv in Hprep as (groups' & s5 & Htable & Hprep).
    injection Hprep as -> -> ->.
    pose proof Hsample as Hsample'.
    apply fast_sample_bs in Hsample as Hbs.
    apply label_table_inv
      in Htable as (raw & -> & Hlen & Hall & HN & Hsame & Hproj).
    rewrite <- Hsame, Hf in Hall, Hproj, HN.
    exists f, raw, s0, s'. split; [|by eauto 10].
    rewrite Hlen, Hbs. unfold singleton_bs. apply length_replicate.
Qed.

End Success.

(** X11.  The columns of a run that returns (lines 270-302 and 370-375,
    617-649 and 711-716).  There is a raw table with one column per level
    of the hierarchy ([hierarchy_length] of them for [fast_model], at least
    that many for [nested_model]) and one row per observation such that
    [adata.obs] is the input's [adata.obs] without its old level columns,
    followed by the relabelled level columns (without level 0 unless
    [return_low]), less the columns the pruner names when [prune] is
    set. *)
Theorem attached_levels (E : Env) (p : Kwargs) (a : AnnData) (w : world E)
    (nested : bool) (r : option AnnData) :
  let o := if nested then nested_model E p a w else fast_model E p a w in
  result o = Ok r →
  ∃ raw, let groups := name_levels (key_added p) (relabel raw) in
    (if nested then Z.to_nat (hierarchy_length p) ≤ length raw
     else length raw = Z.to_nat (hierarchy_length p))
    ∧ Forall (λ col, length col = length (obs_names a)) raw
    ∧ obs (output_adata o)
      = (if prune p
         then filter (λ c, c.1 ∉ prune_groups (adjusted_mutual_info_score E)
                                   groups false)
         else id)
          (finalize_obs (key_added p) (return_low p) groups (obs a)).
Proof.
  intros o Hok. unfold o in *.
  apply driver_ok_inv
    in Hok as (f & raw & s0 & s' & Hlen & Hall & Ha & _ & _ & Hpub & ->).
  exists raw. split; [done|]. split; [done|]. rewrite <- Ha.
  destruct nested.
  - exact (publish_obs (nested_stats E p f) (set_params (nested_params p))
             p f _ _ _ (proj1 (stats_keep_obs p f)) Hpub).
  - exact (publish_obs (fast_stats E p f) (set_params (fast_params p))
             p f _ _ _ (proj2 (stats_keep_obs p f)) Hpub).
Qed.

(** A complete run of the stand-in engine with the defaults
    ([hierarchy_length=10], level 0 hidden): nine columns. *)
Lemma attached_levels_witness :
  length (obs (output_adata (fast_model stub_env default_params two_cells
                               (stub_world0 0)))) = 9.
Proof.
  destruct (attached_levels stub_env default_params two_cells (stub_world0 0)
              false None) as (raw & Hlen & _ & Hobs).
  { vm_compute. reflexivity. }
  rewrite Hobs. change (prune default_params) with false. cbv iota.
  unfold id, finalize_obs. rewrite length_app.
  change (return_low default_params) with false. unfold attached.
  rewrite length_drop. unfold name_levels. rewrite length_imap.
  unfold relabel. rewrite length_fmap, Hlen. reflexivity.
Defined.

(** ** The entry [adata.uns['nsbm']] *)

Section Uns.
Context {E : Env}.

Lemma nsbm_of_set a d :
  nsbm_of (set_uns a (<["nsbm" := UnsNsbm d]> (uns a))) = Some d.
Proof. unfold nsbm_of. simpl. by rewrite lookup_insert_eq. Qed.

Lemma modify_nsbm_inv f s s' :
  modify_nsbm E f s = (Ok tt, s') →
  ∃ d d', nsbm_of (adata s) = Some d ∧ f d = Ok d'
          ∧ nsbm_of (adata s') = Some d'.
Proof.
  unfold modify_nsbm. rewrite run_bind. unfold get_adata.
  destruct (uns (adata s) !! "nsbm") as [[d0|d|t]|] eqn:Hd; try done.
  rewrite run_bind. unfold lift. destruct (f d) as [e|d'] eqn:Hf; [done|].
  intros [= <-]. exists d, d'. unfold nsbm_of at 1. rewrite Hd.
  split; [done|]. split; [done|]. apply nsbm_of_set.
Qed.

Lemma modify_nsbm_ext f s r s' :
  modify_nsbm E f s = (r, s') → ext s' = ext s.
Proof.
  unfold modify_nsbm. rewrite run_bind. unfold get_adata.
  destruct (uns (adata s) !! "nsbm") as [[d0|d|t]|];
    try (by intros [= <- <-]).
  rewrite run_bind. unfold lift. by destruct (f d); intros [= <- <-].
Qed.

Lemma call_adata {A} ev (f : world E → res A * world E) s r s' :
  call E ev f s = (r, s') → adata s' = adata s.
Proof. apply same_adata_call. Qed.

Lemma call_inv {A} ev (f : world E → res A * world E) s x s' :
  call E ev f s = (Ok x, s') →
  f (ext s) = (Ok x, ext s') ∧ adata s' = adata s.
Proof.
  unfold call. destruct (f (ext s)) as [r w'] eqn:Hf. by intros [= -> <-].
Qed.

Lemma for_each_inv {A} (f : A → M E unit) (I : list A → st E → Prop) l s s' :
  I [] s →
  (∀ pre x post s1 s2, l = pre ++ x :: post → I pre s1 →
     f x s1 = (Ok tt, s2) → I (pre ++ [x]) s2) →
  for_each E f l s = (Ok tt, s') → I l s'.
Proof.
  intros H0 Hstep.
  assert (∀ post pre s1, l = pre ++ post → I pre s1 →
            for_each E f post s1 = (Ok tt, s') → I l s') as Hgen.
  { induction post as [|x post IH]; intros pre s1 Hl Hpre; simpl.
    - intros [= <-]. by rewrite Hl, app_nil_r.
    - intros H. apply run_bind_inv in H as ([] & s2 & Hx & H).
      apply (IH (pre ++ [x]) s2); [by rewrite <- app_assoc| |done].
      by eapply Hstep. }
  by apply (Hgen l [] s).
Qed.

Lemma imap_pair_fst {A} (l : list A) : (imap pair l).*1 = seq 0 (length l).
Proof.
  apply list_eq. intros i. rewrite list_lookup_fmap, list_lookup_imap.
  destruct (l !! i) eqn:Hi; simpl.
  - by rewrite lookup_seq_lt by (by eapply lookup_lt_Some).
  - by rewrite lookup_seq_ge by (by apply lookup_ge_None).
Qed.

Lemma write_marginals_inv p f groups s s' :
  write_marginals E p f groups s = (Ok tt, s') →
  ∃ d d' l0c gms ts m,
    nsbm_of (adata s) = Some d ∧ nsbm_of (adata s') = Some d'
    ∧ nsbm_stats d' = nsbm_stats d ∧ nsbm_state d' = nsbm_state d
    ∧ nsbm_params d' = nsbm_params d
    ∧ nsbm_cell_marginals d' = Some m
    ∧ m !! 0 = Some (transpose l0c)
    ∧ (∀ nl level, drop 1 (df_columns groups) !! nl = Some level →
         ∃ cl, level_marginals (key_added p) (transpose l0c) groups level
               = Ok cl
               ∧ m !! (nl + 1) = Some cl)
    ∧ (∀ k, length (drop 1 (df_columns groups)) < k → m !! k = None)
    ∧ f_group_marginals f = Some gms
    ∧ Forall2 (λ acc t, trim_level_marginals acc = Ok t) gms ts
    ∧ nsbm_group_marginals d' = Some ts
    ∧ ∃ B0 w1 w2, get_nonempty_B E 0 (ext s) = (Ok B0, w1)
                  ∧ get_2d_array E B0 w1 = (Ok l0c, w2).
Proof.
  unfold write_marginals. intros H.
  apply run_bind_inv in H as ([] & s1 & H1 & H).
  pose proof (modify_nsbm_ext _ _ _ _ H1) as Hext1.
  apply modify_nsbm_inv in H1 as (d & d1 & Hd & Hf1 & Hd1).
  injection Hf1 as <-.
  apply run_bind_inv in H as (B0 & s2 & H2 & H).
  apply call_inv in H2 as [Hcall2 H2]. rewrite Hext1 in Hcall2.
  apply run_bind_inv in H as (l0c & s3 & H3 & H).
  apply call_inv in H3 as [Hcall3 H3].
  apply run_bind_inv in H as ([] & s4 & H4 & H).
  apply modify_nsbm_inv in H4 as (d3 & d4 & Hd3 & Hf4 & Hd4).
  rewrite H3, H2, Hd1 in Hd3. injection Hd3 as <-.
  injection Hf4 as <-.
  set (c0 := transpose l0c) in *.
  set (cols := drop 1 (df_columns groups)) in *.
  apply run_bind_inv in H as ([] & s5 & H5 & H).
  apply (for_each_inv _
           (λ pre s, ∃ dd m,
              nsbm_of (adata s) = Some dd
              ∧ nsbm_stats dd = nsbm_stats d ∧ nsbm_state dd = nsbm_state d
              ∧ nsbm_params dd = nsbm_params d
              ∧ nsbm_cell_marginals dd = Some m
              ∧ m !! 0 = Some c0
              ∧ (∀ x : nat * string, x ∈ pre →
                   ∃ cl, level_marginals (key_added p) c0 groups x.2 = Ok cl
                         ∧ m !! (x.1 + 1) = Some cl)
              ∧ (∀ k, 0 < k → (∀ x : nat * string, x ∈ pre → x.1 + 1 ≠ k) →
                   m !! k = None))) in H5.
  2:{ eexists _, _. split; [exact Hd4|]. simpl.
      do 4 (split; [done|]). split; [by rewrite lookup_insert_eq|].
      split; [by intros ? ?%elem_of_nil|].
      intros k Hk _. rewrite lookup_insert_ne by lia. apply lookup_empty. }
  2:{ intros pre x post t1 t2 Hl (dd & m & Hdd & Hs1 & Hs2 & Hs3 & Hm & Hm0 & Hin & Hout) Hx.
      apply run_bind_inv in Hx as (cl & t1' & Hcl & Hx).
      unfold lift in Hcl. injection Hcl as Hcl <-.
      apply modify_nsbm_inv in Hx as (dd' & dd2 & Hdd' & Hput & Hdd2).
      rewrite Hdd in Hdd'. injection Hdd' as <-.
      unfold put_cell_marginals in Hput. rewrite Hm in Hput.
      injection Hput as <-.
      assert (NoDup (pre ++ x :: post).*1) as Hnd
        by (rewrite <- Hl, imap_pair_fst; apply NoDup_seq).
      rewrite fmap_app, fmap_cons in Hnd.
      apply NoDup_app in Hnd as (_ & Hdis & _).
      eexists _, _. split; [exact Hdd2|]. simpl.
      do 4 (split; [done|]). split; [by rewrite lookup_insert_ne by lia|].
      split.
      - intros y [Hy | ->%list_elem_of_singleton]%elem_of_app.
        + destruct (Hin y Hy) as (cly & Hcly & Hmy). exists cly.
          split; [done|]. rewrite lookup_insert_ne; [done|].
          intros Heq. apply (Hdis y.1).
          * by apply (list_elem_of_fmap_2 fst).
          * replace y.1 with x.1 by lia. apply list_elem_of_here.
        + exists cl. split; [done|]. by rewrite lookup_insert_eq.
      - intros k Hk Hne. rewrite lookup_insert_ne.
        + apply Hout; [done|]. intros y Hy. apply Hne, elem_of_app. by left.
        + apply Hne, elem_of_app. right. apply list_elem_of_here. }
  destruct H5 as (d5 & m & Hd5 & Hs1 & Hs2 & Hs3 & Hm & Hm0 & Hin & Hout).
  apply run_bind_inv in H as ([] & s6 & H6 & H).
  apply modify_nsbm_inv in H6 as (d5' & d6 & Hd5' & Hf6 & Hd6).
  rewrite Hd5 in Hd5'. injection Hd5' as <-. injection Hf6 as <-.
  apply run_bind_inv in H as (gms & s7 & H7 & H).
  destruct (f_group_marginals f) as [gms'|] eqn:Hgm; [|done].
  injection H7 as -> <-.
  apply (for_each_inv _
           (λ pre s, ∃ dd ts,
              nsbm_of (adata s) = Some dd
              ∧ nsbm_stats dd = nsbm_stats d ∧ nsbm_state dd = nsbm_state d
              ∧ nsbm_params dd = nsbm_params d
              ∧ nsbm_cell_marginals dd = Some m
              ∧ nsbm_group_marginals dd = Some ts
              ∧ Forall2 (λ acc t, trim_level_marginals acc = Ok t) pre ts))
    in H.
  2:{ eexists _, []. split; [exact Hd6|]. simpl.
      do 5 (split; [done|]). constructor. }
  2:{ intros pre x post t1 t2 _ (dd & ts & Hdd & Ht1 & Ht2 & Ht3 & Ht4 & Hts & Hall) Hx.
      apply run_bind_inv in Hx as (t & t1' & Ht & Hx).
      unfold lift in Ht. injection Ht as Ht <-.
      apply modify_nsbm_inv in Hx as (dd' & dd2 & Hdd' & Happ & Hdd2).
      rewrite Hdd in Hdd'. injection Hdd' as <-.
      unfold append_group_marginals in Happ. rewrite Hts in Happ.
      injection Happ as <-.
      eexists _, _. split; [exact Hdd2|]. simpl.
      do 5 (split; [done|]). apply Forall2_app; [done|].
      by repeat constructor. }
  destruct H as (d' & ts & Hd' & Ht1 & Ht2 & Ht3 & Ht4 & Hts & Hall).
  exists d, d', l0c, gms, ts, m. do 7 (split; [done|]).
  split; [|split; [|by eauto 10]].
  - intros nl level Hnl. apply (Hin (nl, level)).
    apply list_elem_of_lookup_2 with nl. by rewrite list_lookup_imap, Hnl.
  - intros k Hk. apply Hout; [lia|]. intros [i c] Hx. simpl.
    apply list_elem_of_lookup_1 in Hx as [j Hj].
    rewrite list_lookup_imap in Hj.
    destruct (cols !! j) eqn:Hc; simplify_eq/=.
    apply lookup_lt_Some in Hc. lia.
Qed.

Lemma reset_nsbm_inv s s' :
  reset_nsbm E s = (Ok tt, s') → nsbm_of (adata s') = Some nsbm_empty.
Proof. intros [= <-]. apply nsbm_of_set. Qed.

Lemma level_stats_adata g s r s' :
  level_stats E g s = (r, s') → adata s' = adata s.
Proof.
  assert (respects same_adata (level_stats E g)) as H
    by (unfold level_stats; repeat respects_step).
  apply H.
Qed.

Lemma collect_calls_adata {A B} (ev : A → event)
    (f : A → world E → res B * world E) l s r s' :
  collect E (λ x, call E (ev x) (f x)) l s = (r, s') → adata s' = adata s.
Proof.
  assert (respects same_adata (collect E (λ x, call E (ev x) (f x)) l)) as H
    by repeat respects_step.
  apply H.
Qed.

Lemma write_mf_entropy_inv s s' d v :
  nsbm_of (adata s) = Some d → nsbm_stats d = Some v →
  write_mf_entropy E s = (Ok tt, s') →
  ∃ mf, nsbm_of (adata s')
        = Some {| nsbm_stats := Some (<["mf_entropy" := StatArray mf]> v);
                  nsbm_state := nsbm_state d;
                  nsbm_cell_marginals := nsbm_cell_marginals d;
                  nsbm_group_marginals := nsbm_group_marginals d;
                  nsbm_params := nsbm_params d |}.
Proof.
  intros Hd Hv. unfold write_mf_entropy. intros H.
  apply run_bind_inv in H as (n & s1 & H1 & H). apply call_adata in H1.
  apply run_bind_inv in H as (mf & s2 & H2 & H). apply collect_calls_adata in H2.
  apply modify_nsbm_inv in H as (d0 & d' & Hd0 & Hf & Hd').
  rewrite H2, H1, Hd in Hd0. injection Hd0 as <-.
  unfold update_stats in Hf. rewrite Hv in Hf. injection Hf as <-.
  by exists mf.
Qed.

Lemma stat_keys_insert (v : gmap string stat_value) (keys : list string) k x :
  (∀ j, is_Some (v !! j) ↔ j ∈ keys) →
  ∀ j, is_Some (<[k := x]> v !! j) ↔ j ∈ keys ++ [k].
Proof.
  intros Hv j. rewrite lookup_insert_is_Some', elem_of_app, Hv.
  rewrite list_elem_of_singleton. split; intros [H|H]; subst; auto.
Qed.

Lemma stat_keys_first (pairs : list (string * stat_value)) :
  ∀ j, is_Some ((list_to_map pairs : gmap string stat_value) !! j)
       ↔ j ∈ pairs.*1.
Proof.
  intros j. induction pairs as [|[k x] pairs IH].
  - rewrite list_to_map_nil, lookup_empty. split; [by intros [? ?]|].
    by intros ?%elem_of_nil.
  - rewrite list_to_map_cons, lookup_insert_is_Some', IH, fmap_cons, elem_of_cons.
    simpl. split; intros [H|H]; subst; auto.
Qed.

Lemma nested_stats_inv p f s s' :
  nested_stats E p f s = (Ok tt, s') →
  ∃ d v, nsbm_of (adata s') = Some d
         ∧ nsbm_state d = None ∧ nsbm_cell_marginals d = None
         ∧ nsbm_group_marginals d = None ∧ nsbm_params d = None
         ∧ nsbm_stats d = Some v
         ∧ ∀ k, is_Some (v !! k) ↔ k ∈ nested_stat_keys p.
Proof.
  unfold nested_stats, nested_stat_keys. intros H.
  apply run_bind_inv in H as ([] & s1 & H1 & H). apply reset_nsbm_inv in H1.
  apply run_bind_inv in H as (sw & s2 & H2 & H).
  destruct (f_sweep f) as [sw'|]; [|done]. injection H2 as -> <-.
  apply run_bind_inv in H as (ls & s3 & H3 & H). apply level_stats_adata in H3.
  apply run_bind_inv in H as ([] & s4 & H4 & H).
  apply modify_nsbm_inv in H4 as (d0 & d4 & Hd0 & Hf & Hd4).
  rewrite H3, H1 in Hd0. injection Hd0 as <-. injection Hf as <-.
  pose proof (stat_keys_first
    [("sweep_dS", StatFloat sw.1.1); ("sweep_nattempts", StatInt sw.1.2);
     ("sweep_nmoves", StatInt sw.2); ("level_entropy", StatArray ls.1);
     ("modularity", StatArray ls.2)]) as Hkeys.
  destruct (equilibrate p).
  - apply run_bind_inv in H as (eq & s5 & H5 & H).
    destruct (f_equilibrate f) as [eq'|]; [|done]. injection H5 as -> <-.
    apply run_bind_inv in H as ([] & s6 & H6 & H).
    apply modify_nsbm_inv in H6 as (d0 & d6 & Hd0 & Hf & Hd6).
    rewrite Hd4 in Hd0. injection Hd0 as <-. injection Hf as <-.
    pose proof (stat_keys_insert _ _ "equlibrate_dS" (StatFloat eq.1.1) Hkeys) as Hkeys';
      clear Hkeys; rename Hkeys' into Hkeys.
    pose proof (stat_keys_insert _ _ "equlibrate_nattempts" (StatInt eq.1.2) Hkeys) as Hkeys';
      clear Hkeys; rename Hkeys' into Hkeys.
    pose proof (stat_keys_insert _ _ "equlibrate_nmoves" (StatInt eq.2) Hkeys) as Hkeys';
      clear Hkeys; rename Hkeys' into Hkeys.
    destruct (collect_marginals p).
    + eapply write_mf_entropy_inv in H as (mf & Hd'); [|exact Hd6|done].
      pose proof (stat_keys_insert _ _ "mf_entropy" (StatArray mf) Hkeys) as Hkeys';
      clear Hkeys; rename Hkeys' into Hkeys.
      eexists _, _. split; [exact Hd'|]. simpl. do 5 (split; [done|]).
      intros k. by rewrite Hkeys.
    + injection H as <-.
      eexists _, _. split; [exact Hd6|]. simpl. do 5 (split; [done|]).
      intros k. by rewrite Hkeys.
  - injection H as <-.
    eexists _, _. split; [exact Hd4|]. simpl. do 5 (split; [done|]).
    intros k. by rewrite Hkeys.
Qed.

Lemma fast_stats_inv p f s s' :
  fast_stats E p f s = (Ok tt, s') →
  ∃ d v, nsbm_of (adata s') = Some d
         ∧ nsbm_state d = None ∧ nsbm_cell_marginals d = None
         ∧ nsbm_group_marginals d = None ∧ nsbm_params d = None
         ∧ nsbm_stats d = Some v
         ∧ ∀ k, is_Some (v !! k) ↔ k ∈ fast_stat_keys p.
Proof.
  unfold fast_stats, fast_stat_keys. intros H.
  apply run_bind_inv in H as ([] & s1 & H1 & H). apply reset_nsbm_inv in H1.
  apply run_bind_inv in H as (eq & s2 & H2 & H).
  destruct (f_equilibrate f) as [eq'|]; [|done]. injection H2 as -> <-.
  apply run_bind_inv in H as (ls & s3 & H3 & H). apply level_stats_adata in H3.
  apply run_bind_inv in H as ([] & s4 & H4 & H).
  apply modify_nsbm_inv in H4 as (d0 & d4 & Hd0 & Hf & Hd4).
  rewrite H3, H1 in Hd0. injection Hd0 as <-. injection Hf as <-.
  pose proof (stat_keys_first
    [("dS", StatFloat eq.1.1); ("nattempts", StatInt eq.1.2);
     ("nmoves", StatInt eq.2); ("level_entropy", StatArray ls.1);
     ("modularity", StatArray ls.2)]) as Hkeys.
  destruct (collect_marginals p).
  - eapply write_mf_entropy_inv in H as (mf & Hd'); [|exact Hd4|done].
    pose proof (stat_keys_insert _ _ "mf_entropy" (StatArray mf) Hkeys) as Hkeys';
      clear Hkeys; rename Hkeys' into Hkeys.
    eexists _, _. split; [exact Hd'|]. simpl. do 5 (split; [done|]).
    intros k. by rewrite Hkeys.
  - injection H as <-.
    eexists _, _. split; [exact Hd4|]. simpl. do 5 (split; [done|]).
    intros k. by rewrite Hkeys.
Qed.

End Uns.

Section Entry.
Context {E : Env}.

(** What a returning write-out leaves in [adata.uns['nsbm']], whatever the
    statistics are. *)
Lemma publish_nsbm (stats : M E unit) (pv : gmap string param_value)
    (Q : gmap string stat_value → Prop) p f groups s s' :
  (∀ t t', stats t = (Ok tt, t') →
     ∃ d v, nsbm_of (adata t') = Some d
            ∧ nsbm_state d = None ∧ nsbm_cell_marginals d = None
            ∧ nsbm_group_marginals d = None ∧ nsbm_params d = None
            ∧ nsbm_stats d = Some v
            ∧ Q v) →
  (write_obs E p groups;; stats;; write_state E p;;
   (if collect_marginals p then write_marginals E p f groups else mret tt);;
   prune_step E p groups;; modify_nsbm E (set_params pv);;
   final_message E) s = (Ok tt, s') →
  ∃ d v, nsbm_of (adata s') = Some d
    ∧ nsbm_params d = Some pv
    ∧ nsbm_state d
      = (if save_state p then Some NestedBlockStateRef else None)
    ∧ nsbm_stats d = Some v
    ∧ Q v
    ∧ if collect_marginals p
      then ∃ l0c gms ts m,
             nsbm_cell_marginals d = Some m
             ∧ m !! 0 = Some (transpose l0c)
             ∧ (∀ nl level, drop 1 (df_columns groups) !! nl = Some level →
                  ∃ cl, level_marginals (key_added p) (transpose l0c) groups
                          level = Ok cl
                        ∧ m !! (nl + 1) = Some cl)
             ∧ (∀ k, length (drop 1 (df_columns groups)) < k → m !! k = None)
             ∧ f_group_marginals f = Some gms
             ∧ Forall2 (λ acc t, trim_level_marginals acc = Ok t) gms ts
             ∧ nsbm_group_marginals d = Some ts
             ∧ ∃ s2 B0 w1 w2,
                 (write_obs E p groups;; stats) s = (Ok tt, s2)
                 ∧ get_nonempty_B E 0 (ext s2) = (Ok B0, w1)
                 ∧ get_2d_array E B0 w1 = (Ok l0c, w2)
      else nsbm_cell_marginals d = None ∧ nsbm_group_marginals d = None.
Proof.
  intros Hstats H.
  apply run_bind_inv in H as ([] & s1 & H1 & H).
  apply run_bind_inv in H as ([] & s2 & H2 & H).
  assert ((write_obs E p groups;; stats) s = (Ok tt, s2)) as Hrun2
    by (by rewrite run_bind, H1).
  apply Hstats in H2 as (d2 & v & Hd2 & Hst & Hcm & Hgm & _ & Hv & Hkeys).
  apply run_bind_inv in H as ([] & s3 & H3 & H).
  assert (ext s3 = ext s2) as Hext3.
  { unfold write_state in H3. destruct (save_state p).
    - by eapply modify_nsbm_ext.
    - by injection H3 as <-. }
  assert (∃ d3, nsbm_of (adata s3) = Some d3
                ∧ nsbm_state d3
                  = (if save_state p then Some NestedBlockStateRef else None)
                ∧ nsbm_cell_marginals d3 = None
                ∧ nsbm_group_marginals d3 = None
                ∧ nsbm_stats d3 = Some v) as (d3 & Hd3 & Hst3 & Hcm3 & Hgm3 & Hv3).
  { unfold write_state in H3. destruct (save_state p).
    - apply modify_nsbm_inv in H3 as (d0 & d3 & Hd0 & Hf & Hd3).
      rewrite Hd2 in Hd0. injection Hd0 as <-. injection Hf as <-.
      by eexists.
    - injection H3 as <-. by exists d2. }
  apply run_bind_inv in H as ([] & s4 & H4 & H).
  apply run_bind_inv in H as ([] & s5 & H5 & H).
  apply (keeps_prune nsbm_of p groups (λ _ _, eq_refl)) in H5.
  apply run_bind_inv in H as ([] & s6 & H6 & H).
  apply modify_nsbm_inv in H6 as (d5 & d6 & Hd5 & Hf & Hd6).
  injection Hf as <-.
  assert (nsbm_of (adata s') = nsbm_of (adata s6)) as Hfin.
  { unfold final_message in H. apply run_bind_inv in H as (B & s7 & H7 & H).
    apply call_adata in H7. injection H as <-. by rewrite H7. }
  unfold keeps in H5. rewrite H5 in Hd5. rewrite Hfin, Hd6. clear Hfin Hd6 H.
  destruct (collect_marginals p).
  - apply write_marginals_inv in H4
      as (d3' & d4 & l0c & gms & ts & m & Hd3' & Hd4 & Hs1 & Hs2 & Hs3 & Hm
          & Hm0 & Hin & Hout & Hgms & Hall & Hts & Hl0c).
    rewrite Hd3 in Hd3'. injection Hd3' as <-.
    rewrite Hd4 in Hd5. injection Hd5 as <-.
    eexists _, v. split; [done|]. simpl. split; [done|].
    split; [by rewrite Hs2|]. split; [by rewrite Hs1|]. split; [done|].
    destruct Hl0c as (B0 & w1 & w2 & Hcall & Hcall'). rewrite Hext3 in Hcall.
    exists l0c, gms, ts, m. do 7 (split; [done|]). by exists s2, B0, w1, w2.
  - injection H4 as <-. rewrite Hd3 in Hd5. injection Hd5 as <-.
    eexists _, v. split; [done|]. simpl. by do 4 (split; [done|]).
Qed.

Lemma sample_collects (nested : bool) p sa f sb gms :
  (if nested then nested_sample E p sa else fast_sample E p sa) = (Ok f, sb) →
  f_group_marginals f = Some gms →
  ∃ s1 s2, collect_group_marginals E p (f_graph f) s1 = (Ok gms, s2).
Proof.
  destruct nested.
  - unfold nested_sample. intros H.
    apply run_bind_inv in H as (g & s1 & _ & H).
    apply run_bind_inv in H as (bs0 & s2 & _ & H).
    apply run_bind_inv in H as (? & s3 & _ & H).
    apply run_bind_inv in H as (sw & s4 & _ & H).
    destruct (equilibrate p).
    + apply run_bind_inv in H as (eq & s5 & _ & H).
      destruct (collect_marginals p).
      * apply run_bind_inv in H as (gm & s6 & Hgm & H).
        injection H as <- _. simpl. intros [= <-]. by exists s5, s6.
      * by injection H as <- _.
    + by injection H as <- _.
  - unfold fast_sample. intros H.
    apply run_bind_inv in H as (g & s1 & _ & H).
    apply run_bind_inv in H as (? & s2 & _ & H).
    apply run_bind_inv in H as (eq & s3 & _ & H).
    destruct (collect_marginals p).
    + apply run_bind_inv in H as (gm & s4 & Hgm & H).
      injection H as <- _. simpl. intros [= <-]. by exists s3, s4.
    + by injection H as <- _.
Qed.

End Entry.

(** X12.  The entry [adata.uns['nsbm']] of a run that returns (lines
    306-333 and 378-387, 653-675 and 719-726).  It is a fresh dictionary:
    ['params'] holds the arguments the driver records, ['state'] is present
    exactly with [save_state], ['cell_marginals'] and ['group_marginals']
    exactly with [collect_marginals], and ['stats'] has the keys of the
    driver: the five of the first assignment, for [nested_model] the three
    [equlibrate_*] keys with [equilibrate], and [mf_entropy] when marginals
    were collected.  Nothing of an earlier entry survives. *)
Theorem nsbm_entry_written (E : Env) (p : Kwargs) (a : AnnData) (w : world E)
    (nested : bool) (r : option AnnData) :
  let o := if nested then nested_model E p a w else fast_model E p a w in
  result o = Ok r →
  ∃ d v, nsbm_of (output_adata o) = Some d
    ∧ nsbm_params d
      = Some (if nested then nested_params p else fast_params p)
    ∧ nsbm_state d
      = (if save_state p then Some NestedBlockStateRef else None)
    ∧ (is_Some (nsbm_cell_marginals d) ↔ collect_marginals p = true)
    ∧ (is_Some (nsbm_group_marginals d) ↔ collect_marginals p = true)
    ∧ nsbm_stats d = Some v
    ∧ ∀ k, is_Some (v !! k)
           ↔ k ∈ (if nested then nested_stat_keys p else fast_stat_keys p).
Proof.
  intros o Hok. unfold o in *.
  apply driver_ok_inv
    in Hok as (f & raw & s0 & s' & _ & _ & _ & _ & _ & Hpub & ->).
  assert (∃ d v, nsbm_of (adata s') = Some d
            ∧ nsbm_params d
              = Some (if nested then nested_params p else fast_params p)
            ∧ nsbm_state d
              = (if save_state p then Some NestedBlockStateRef else None)
            ∧ nsbm_stats d = Some v
            ∧ (∀ k, is_Some (v !! k)
                    ↔ k ∈ (if nested then nested_stat_keys p
                           else fast_stat_keys p))
            ∧ (if collect_marginals p
               then is_Some (nsbm_cell_marginals d)
                    ∧ is_Some (nsbm_group_marginals d)
               else nsbm_cell_marginals d = None
                    ∧ nsbm_group_marginals d = None))
    as (d & v & Hd & Hp & Hs & Hv & Hk & Hm).
  { destruct nested.
    - destruct (publish_nsbm (nested_stats E p f) (nested_params p)
                  (λ v, ∀ k, is_Some (v !! k) ↔ k ∈ nested_stat_keys p)
                  p f _ _ _ (nested_stats_inv p f) Hpub)
        as (d & v & Hd & Hp & Hs & Hv & Hk & Hm).
      exists d, v. do 5 (split; [done|]).
      destruct (collect_marginals p); [|done].
      destruct Hm as (? & ? & ? & ? & -> & _ & _ & _ & _ & _ & -> & _).
      by split.
    - destruct (publish_nsbm (fast_stats E p f) (fast_params p)
                  (λ v, ∀ k, is_Some (v !! k) ↔ k ∈ fast_stat_keys p)
                  p f _ _ _ (fast_stats_inv p f) Hpub)
        as (d & v & Hd & Hp & Hs & Hv & Hk & Hm).
      exists d, v. do 5 (split; [done|]).
      destruct (collect_marginals p); [|done].
      destruct Hm as (? & ? & ? & ? & -> & _ & _ & _ & _ & _ & -> & _).
      by split. }
  exists d, v. do 3 (split; [done|]).
  destruct (collect_marginals p).
  - destruct Hm as [Hc Hg]. by do 2 (split; [done|]).
  - destruct Hm as [-> ->].
    do 2 (split; [split; [by intros [? ?]|done]|]). done.
Qed.

(** A complete run of the stand-in engine with the defaults, on a
    container that carries an entry of an earlier run. *)
Lemma nsbm_entry_written_witness :
  ∃ d, nsbm_of (output_adata (nested_model stub_env default_params two_cells
                                (stub_world0 0))) = Some d
       ∧ nsbm_params d = Some (nested_params default_params)
       ∧ nsbm_state d = None.
Proof.
  destruct (nsbm_entry_written stub_env default_params two_cells
              (stub_world0 0) true None)
    as (d & v & Hd & Hp & Hs & _).
  { vm_compute. reflexivity. }
  exists d. split; [exact Hd|]. split; [exact Hp|exact Hs].
Defined.

(** X13.  The marginals of a run that returns with [collect_marginals]
    (lines 337-365 and 678-706).  Take the fit [f] and the label table
    [groups] that the first part of the run (everything up to line 291, or
    638) returns from the initial state; [groups] is the relabelled raw
    table of the engine's projections, one column per level and one row per
    observation.  Then [cell_marginals[0]] is the transposed array that
    [get_2d_array] returned, in the world the statistics left, for the
    group count of level 0, and for every
    further level [l] of the table [cell_marginals[l]] is the aggregation of
    that array along the columns of level 0 and level [l] of [groups] (the
    loop enumerates [groups.columns[1:]] and writes at [nl + 1]); there is
    no other key.  [group_marginals] lists, in level order, the trimmings of
    the accumulators [f] holds, which are those a collection on the graph
    of the run returned: every trimming has returned. *)
Theorem marginals_written (E : Env) (p : Kwargs) (a : AnnData) (w : world E)
    (nested : bool) (r : option AnnData) :
  let o := if nested then nested_model E p a w else fast_model E p a w in
  collect_marginals p = true →
  result o = Ok r →
  ∃ f raw s0 l0c gms ts d m,
    let groups := name_levels (key_added p) (relabel raw) in
    (if nested then nested_prepare E p else fast_prepare E p)
      (init_state E a w) = (Ok (f, groups), s0)
    ∧ (if nested then Z.to_nat (hierarchy_length p) ≤ length raw
       else length raw = Z.to_nat (hierarchy_length p))
    ∧ Forall (λ col, length col = length (obs_names a)) raw
    ∧ projected E (length (obs_names a)) raw
    ∧ (∃ s2 B0 w1 w2,
         (write_obs E p groups;;
          (if nested then nested_stats E p f else fast_stats E p f)) s0
         = (Ok tt, s2)
         ∧ get_nonempty_B E 0 (ext s2) = (Ok B0, w1)
         ∧ get_2d_array E B0 w1 = (Ok l0c, w2))
    ∧ f_group_marginals f = Some gms
    ∧ num_vertices (f_graph f) = length (obs_names a)
    ∧ (∃ s1 s2, collect_group_marginals E p (f_graph f) s1 = (Ok gms, s2))
    ∧ nsbm_of (output_adata o) = Some d
    ∧ nsbm_cell_marginals d = Some m
    ∧ m !! 0 = Some (transpose l0c)
    ∧ (∀ l, 1 ≤ l < length raw →
         ∃ cl, level_marginals (key_added p) (transpose l0c) groups
                 (level_name (key_added p) l) = Ok cl
               ∧ m !! l = Some cl)
    ∧ (∀ k, 0 < k → length raw ≤ k → m !! k = None)
    ∧ nsbm_group_marginals d = Some ts
    ∧ Forall2 (λ acc t, trim_level_marginals acc = Ok t) gms ts.
Proof.
  intros o Hcm Hok. unfold o in *.
  apply driver_ok_inv
    in Hok as (f & raw & s0 & s' & Hlen & Hall & _ & (sa & sb & Hsample)
               & (Hprep & Hproj & HN) & Hpub & ->).
  assert (∃ d l0c gms ts m,
            nsbm_of (adata s') = Some d
            ∧ nsbm_cell_marginals d = Some m
            ∧ m !! 0 = Some (transpose l0c)
            ∧ (∀ nl level,
                 drop 1 (df_columns (name_levels (key_added p) (relabel raw)))
                   !! nl = Some level →
                 ∃ cl, level_marginals (key_added p) (transpose l0c)
                         (name_levels (key_added p) (relabel raw)) level
                       = Ok cl
                       ∧ m !! (nl + 1) = Some cl)
            ∧ (∀ k, length (drop 1 (df_columns
                                      (name_levels (key_added p) (relabel raw))))
                    < k → m !! k = None)
            ∧ f_group_marginals f = Some gms
            ∧ Forall2 (λ acc t, trim_level_marginals acc = Ok t) gms ts
            ∧ nsbm_group_marginals d = Some ts
            ∧ ∃ s2 B0 w1 w2,
                (write_obs E p (name_levels (key_added p) (relabel raw));;
                 (if nested then nested_stats E p f else fast_stats E p f)) s0
                = (Ok tt, s2)
                ∧ get_nonempty_B E 0 (ext s2) = (Ok B0, w1)
                ∧ get_2d_array E B0 w1 = (Ok l0c, w2))
    as (d & l0c & gms & ts & m & Hd & Hm & Hm0 & Hin & Hout & Hgms & Hts & Hg
        & Hl0c).
  { destruct nested.
    - destruct (publish_nsbm (nested_stats E p f) (nested_params p)
                  (λ v, ∀ k, is_Some (v !! k) ↔ k ∈ nested_stat_keys p)
                  p f _ _ _ (nested_stats_inv p f) Hpub)
        as (d & v & Hd & _ & _ & _ & _ & H).
      rewrite Hcm in H.
      destruct H as (l0c & gms & ts & m & ? & ? & ? & ? & ? & ? & ? & ?).
      by exists d, l0c, gms, ts, m.
    - destruct (publish_nsbm (fast_stats E p f) (fast_params p)
                  (λ v, ∀ k, is_Some (v !! k) ↔ k ∈ fast_stat_keys p)
                  p f _ _ _ (fast_stats_inv p f) Hpub)
        as (d & v & Hd & _ & _ & _ & _ & H).
      rewrite Hcm in H.
      destruct H as (l0c & gms & ts & m & ? & ? & ? & ? & ? & ? & ? & ?).
      by exists d, l0c, gms, ts, m. }
  assert (drop 1 (df_columns (name_levels (key_added p) (relabel raw)))
          = level_name (key_added p) <$> seq 1 (length raw - 1)) as Hcols.
  { rewrite name_levels_columns. unfold relabel. rewrite length_fmap.
    rewrite <- fmap_drop. f_equal.
    destruct (length raw) as [|n]; [done|]. simpl. by rewrite Nat.sub_0_r. }
  rewrite Hcols in Hin, Hout. rewrite length_fmap, length_seq in Hout.
  pose proof (sample_collects nested p sa f sb gms Hsample Hgms) as Hcollect.
  exists f, raw, s0, l0c, gms, ts, d, m. simpl. do 11 (split; [done|]).
  split; [|split; [|done]].
  - intros l [Hl1 Hl2]. destruct (Hin (l - 1) (level_name (key_added p) l))
      as (cl & Hcl & Hml).
    + rewrite list_lookup_fmap, lookup_seq_lt by lia. simpl. f_equal. f_equal.
      lia.
    + exists cl. split; [done|]. by replace (l - 1 + 1) with l in Hml by lia.
  - intros k Hk Hlen'. apply Hout. lia.
Qed.

(** A complete run of the stand-in engine that collects marginals over
    three sweeps. *)
Lemma marginals_written_witness :
  ∃ f d gms ts, f_group_marginals f = Some gms
    ∧ nsbm_of (output_adata
                 (fast_model stub_env
                    (with_marginals default_params true true) two_cells
                    (stub_world0 1))) = Some d
    ∧ nsbm_group_marginals d = Some ts
    ∧ Forall2 (λ acc t, trim_level_marginals acc = Ok t) gms ts.
Proof.
  destruct (marginals_written stub_env
              (with_marginals default_params true true) two_cells
              (stub_world0 1) false None)
    as (f & raw & s0 & l0c & gms & ts & d & m & _ & _ & _ & _ & _ & Hgms & _
        & _ & Hd & _ & _ & _ & _ & Hts & Hall).
  { reflexivity. }
  { vm_compute. reflexivity. }
  exists f, d, gms, ts. split; [exact Hgms|]. split; [exact Hd|].
  split; [exact Hts|exact Hall].
Defined.

(** ** The collection inside the drivers *)

(** X14.  The accumulators a collection returns (lines 245-266 and
    592-613).  [collect_group_marginals] asks the state for its number of
    levels, starts from [N + 1] zeros per level and runs the equilibration
    with [multiflip=False] and [force_niter=niter_collect]; when it returns,
    no invocation of the callback went out of range and entry [B] of
    accumulator [l] is the number of invocations in which level [l] had [B]
    nonempty groups. *)
Theorem collected_histogram (E : Env) (p : Kwargs) (g : Graph) (s s' : st E)
    (gm : list (list Z)) :
  collect_group_marginals E p g s = (Ok gm, s') →
  ∃ nlev w1,
    get_levels_len E (ext s) = (Ok nlev, w1)
    ∧ let invocations :=
        (mcmc_equilibrate_callback E
           {| eq_wait := wait p; eq_nbreaks := nbreaks p;
              eq_epsilon := epsilon p; eq_max_niter := max_iterations p;
              eq_multiflip := false;
              eq_force_niter := Some (niter_collect p) |} w1).1 in
      length gm = nlev
      ∧ Forall (λ Bs, length Bs ≤ nlev
                      ∧ Forall (λ B, B ≤ num_vertices g) Bs) invocations
      ∧ ∀ l B, l < nlev → B ≤ num_vertices g →
          count_at gm l B
          = Some (Z.of_nat
                    (length (filter (λ Bs, Bs !! l = Some B) invocations))).
Proof.
  unfold collect_group_marginals. rewrite run_bind. unfold call.
  destruct (get_levels_len E (ext s)) as [[e|nlev] w1] eqn:Hlev; [done|].
  unfold equilibrate_collecting. simpl.
  destruct (mcmc_equilibrate_callback E _ w1) as [inv [r w2]] eqn:Hcb.
  change (foldl _ (Ok ?x) inv) with (run_callbacks x inv).
  destruct (run_callbacks _ inv) as [e|gm'] eqn:Hrun; [done|].
  destruct r as [e|sw]; [done|]. intros [= <- <-].
  exists nlev, w1. split; [done|]. rewrite Hcb. simpl.
  destruct (run_callbacks_zeros nlev (num_vertices g) inv) as [Hiff Hcnt].
  split; [|split].
  - apply run_callbacks_length in Hrun. by rewrite length_replicate in Hrun.
  - apply Hiff. by exists gm'.
  - by apply Hcnt.
Qed.


(** The stand-in engine, three sweeps over the one level it holds for the
    two cells: three invocations saw two nonempty groups. *)
Lemma collected_histogram_witness :
  count_at [[0; 0; 3]%Z] 0 2
  = Some (Z.of_nat
            (length (filter (λ Bs : list nat, Bs !! 0 = Some 2)
                       (stub_callback
                          {| eq_wait := 1000; eq_nbreaks := 2;
                             eq_epsilon := epsilon default_params;
                             eq_max_niter := 1000000; eq_multiflip := false;
                             eq_force_niter := Some 3%Z |}
                          {| gen_state := 1; held_bs := [[0; 1]%Z];
                             held_n := 2 |}).1))).
Proof.
  assert (collect_group_marginals stub_env
            (with_marginals default_params true true)
            {| num_vertices := 2; is_directed := false; edge_list := [] |}
            (init_state stub_env two_cells
               {| gen_state := 1; held_bs := [[0; 1]%Z]; held_n := 2 |})
          = (Ok [[0; 0; 3]%Z],
             Build_st stub_env
               {| gen_state := 1; held_bs := [[0; 1]%Z]; held_n := 2 |}
               [EvGetLevels; EvEquilibrate true] two_cells)) as Hrun
    by reflexivity.
  destruct (collected_histogram _ _ _ _ _ _ Hrun)
    as (nlev & w1 & Hlev & Hlen & _ & Hcnt).
  injection Hlev as <- <-. apply (Hcnt 0 2); [apply Nat.lt_0_1|apply Nat.le_refl].
Defined.

(** ** The aggregation needs a column per level-0 group *)

Lemma mapM_res_raise {A B} (f : A → res B) (l : list A) e x :
  (∀ y, y ∈ l → f y = Raise e ∨ ∃ v, f y = Ok v) →
  x ∈ l → f x = Raise e → mapM f l = Raise e.
Proof.
  induction l as [|y l IH]; intros Hall Hx Hfx; [by apply elem_of_nil in Hx|].
  simpl. destruct (Hall y (list_elem_of_here _ _)) as [->|[v Hv]]; [done|].
  rewrite Hv. simpl. apply elem_of_cons in Hx as [->|Hx]; [congruence|].
  rewrite IH; [done| |done..].
  intros z Hz. by apply Hall, list_elem_of_further.
Qed.

Lemma derived_column_summed (c0 : ndarray) col0 coll x :
  length col0 = length coll →
  derived_column c0 (crosstab (relabel_column col0) (relabel_column coll)) x
  = sum_axis1
      <$> take_columns c0
            (summed_groups (codes (relabel_column col0))
               (codes (relabel_column coll)) (length (np_unique col0)) x).
Proof.
  intros Hlen. unfold derived_column.
  rewrite crosstab_relabel by done. unfold iloc_col. simpl rows.
  rewrite <- list_fmap_compose.
  rewrite (list_fmap_ext _
             (λ i, pair_count (codes (relabel_column col0))
                     (codes (relabel_column coll)) i x) (seq 0 _));
    last first.
  { intros i y _. simpl.
    destruct (decide (x < length (np_unique coll))) as [Hx|Hx].
    - by rewrite nth_fmap_seq.
    - rewrite nth_overflow by (rewrite length_fmap, length_seq; lia).
      unfold pair_count. rewrite (filter_none _ (zip _ _)); [done|].
      apply Forall_forall. intros [a b] Hab [= -> ->].
      apply elem_of_lookup_zip_with in Hab as (m & a' & b' & [= <- <-] & _ & Hb).
      rewrite ?relabel_column_codes, list_lookup_fmap in Hb.
      destruct (coll !! m) as [v|] eqn:Hv; simplify_eq/=.
      apply Hx, index_of_lt, elem_of_np_unique.
      by eapply list_elem_of_lookup_2. }
  unfold np_where. by rewrite (where_from_seq (λ v, (0 <? v)%Z)).
Qed.

(** X15.  The aggregation of lines 348-355 indexes the columns of [c0] by
    the positions of the level-0 groups.  When [c0] has fewer columns than
    level 0 has groups, [c0[:, idx]] is out of bounds for the level that
    holds the last level-0 group, and the aggregation raises [IndexError]
    whatever the level it is asked for. *)
Theorem aggregation_needs_level0_columns (c0 : ndarray) (col0 coll : list Z) :
  length col0 = length coll →
  ncols c0 < length (np_unique col0) →
  derive_level c0 (relabel_column col0) (relabel_column coll)
  = Raise (IndexError "index is out of bounds for axis 1").
Proof.
  intros Hlen Hc0. unfold derive_level.
  set (ca := codes (relabel_column col0)).
  set (cb := codes (relabel_column coll)).
  set (B0 := length (np_unique col0)) in *.
  assert (B0 - 1 ∈ ca) as Hin by (apply relabel_codes_cover; unfold B0 in *; lia).
  apply list_elem_of_lookup_1 in Hin as [m Hm].
  assert (m < length cb) as Hmb.
  { apply lookup_lt_Some in Hm. unfold ca, cb in *.
    rewrite relabel_column_codes, length_fmap in *. lia. }
  destruct (lookup_lt_is_Some_2 cb m Hmb) as [x0 Hx0].
  assert (x0 < length (np_unique coll)) as Hx0lt.
  { unfold cb in Hx0. rewrite relabel_column_codes, list_lookup_fmap in Hx0.
    destruct (coll !! m) as [v|] eqn:Hv; simplify_eq/=.
    apply index_of_lt, elem_of_np_unique. by eapply list_elem_of_lookup_2. }
  rewrite (mapM_res_raise _ _
             (IndexError "index is out of bounds for axis 1") x0); [done|..].
  - intros y _. rewrite derived_column_summed by done. unfold take_columns.
    destruct (forallb _ _); simpl; eauto.
  - rewrite crosstab_relabel by done. simpl. apply elem_of_seq. lia.
  - rewrite derived_column_summed by done. unfold take_columns.
    fold ca cb B0.
    destruct (forallb _ (summed_groups ca cb B0 x0)) eqn:Hall; [|done].
    exfalso. rewrite forallb_forall in Hall.
    specialize (Hall (B0 - 1)). rewrite Nat.ltb_lt in Hall.
    assert (B0 - 1 < ncols c0); [|lia]. apply Hall, list_elem_of_In.
    apply list_elem_of_filter. split.
    + apply pair_count_pos, elem_of_lookup_zip_with. eauto 10.
    + apply elem_of_seq. lia.
Qed.

(** Three groups at level 0, counts for two of them. *)
Lemma aggregation_needs_level0_columns_witness :
  derive_level {| ncols := 2; rows := [[5; 1]%Z; [0; 9]%Z; [3; 0]%Z] |}
    (relabel_column [0; 1; 2]%Z) (relabel_column [7; 3; 7]%Z)
  = Raise (IndexError "index is out of bounds for axis 1").
Proof.
  apply (aggregation_needs_level0_columns
           {| ncols := 2; rows := [[5; 1]%Z; [0; 9]%Z; [3; 0]%Z] |}
           [0; 1; 2]%Z [7; 3; 7]%Z).
  - reflexivity.
  - simpl. lia.
Defined.

(** ** The statistics a run records *)

Section Statistics.
Context {E : Env}.

Lemma nested_sample_results p s f s' :
  nested_sample E p s = (Ok f, s') →
  (∃ w0 w1 sw,
     (if multiflip p then multiflip_mcmc_sweep E (sweep_iterations p) w0
      else mcmc_sweep E (sweep_iterations p) w0) = (Ok sw, w1)
     ∧ f_sweep f = Some sw)
  ∧ (equilibrate p = true →
     ∃ w2 w3 eq,
       mcmc_equilibrate E (plain_equilibrate_args p) w2 = (Ok eq, w3)
       ∧ f_equilibrate f = Some eq).
Proof.
  unfold nested_sample. intros H.
  apply run_bind_inv in H as (g & s1 & _ & H).
  apply run_bind_inv in H as (bs0 & s2 & _ & H).
  apply run_bind_inv in H as (? & s3 & _ & H).
  apply run_bind_inv in H as (sw & s4 & Hsw & H).
  assert (∃ w0 w1,
            (if multiflip p then multiflip_mcmc_sweep E (sweep_iterations p) w0
             else mcmc_sweep E (sweep_iterations p) w0) = (Ok sw, w1))
    as (w0 & w1 & Hsweep).
  { unfold sweep_call in Hsw. exists (ext s3), (ext s4).
    destruct (multiflip p); by apply call_inv in Hsw as [Hsw _]. }
  destruct (equilibrate p).
  - apply run_bind_inv in H as (eq & s5 & Heq & H).
    apply call_inv in Heq as [Heq _].
    assert (f_sweep f = Some sw ∧ f_equilibrate f = Some eq) as [Hf1 Hf2].
    { destruct (collect_marginals p).
      - apply run_bind_inv in H as (gm & s6 & _ & H). by injection H as <- _.
      - by injection H as <- _. }
    split; [by eauto 10|]. intros _. by exists (ext s4), (ext s5), eq.
  - injection H as <- _. split; [by eauto 10|done].
Qed.

Lemma fast_sample_results p s f s' :
  fast_sample E p s = (Ok f, s') →
  ∃ w2 w3 eq,
    mcmc_equilibrate E (plain_equilibrate_args p) w2 = (Ok eq, w3)
    ∧ f_equilibrate f = Some eq.
Proof.
  unfold fast_sample. intros H.
  apply run_bind_inv in H as (g & s1 & _ & H).
  apply run_bind_inv in H as (? & s2 & _ & H).
  apply run_bind_inv in H as (eq & s3 & Heq & H).
  apply call_inv in Heq as [Heq _].
  exists (ext s2), (ext s3), eq. split; [done|].
  destruct (collect_marginals p).
  - apply run_bind_inv in H as (gm & s4 & _ & H). by injection H as <- _.
  - by injection H as <- _.
Qed.

Lemma nested_stats_values p f s s' :
  nested_stats E p f s = (Ok tt, s') →
  ∃ d v, nsbm_of (adata s') = Some d
         ∧ nsbm_state d = None ∧ nsbm_cell_marginals d = None
         ∧ nsbm_group_marginals d = None ∧ nsbm_params d = None
         ∧ nsbm_stats d = Some v
         ∧ (∃ sw, f_sweep f = Some sw
                  ∧ records v "sweep_dS" "sweep_nattempts" "sweep_nmoves" sw)
         ∧ (equilibrate p = true →
            ∃ eq, f_equilibrate f = Some eq
                  ∧ records v "equlibrate_dS" "equlibrate_nattempts"
                      "equlibrate_nmoves" eq).
Proof.
  unfold nested_stats, records. intros H.
  apply run_bind_inv in H as ([] & s1 & H1 & H). apply reset_nsbm_inv in H1.
  apply run_bind_inv in H as (sw & s2 & H2 & H).
  destruct (f_sweep f) as [sw'|]; [|done]. injection H2 as -> <-.
  apply run_bind_inv in H as (ls & s3 & H3 & H). apply level_stats_adata in H3.
  apply run_bind_inv in H as ([] & s4 & H4 & H).
  apply modify_nsbm_inv in H4 as (d0 & d4 & Hd0 & Hf & Hd4).
  rewrite H3, H1 in Hd0. injection Hd0 as <-. injection Hf as <-.
  destruct (equilibrate p).
  - apply run_bind_inv in H as (eq & s5 & H5 & H).
    destruct (f_equilibrate f) as [eq'|]; [|done]. injection H5 as -> <-.
    apply run_bind_inv in H as ([] & s6 & H6 & H).
    apply modify_nsbm_inv in H6 as (d0 & d6 & Hd0 & Hf & Hd6).
    rewrite Hd4 in Hd0. injection Hd0 as <-. injection Hf as <-.
    destruct (collect_marginals p).
    + eapply write_mf_entropy_inv in H as (mf & Hd'); [|exact Hd6|done].
      eexists _, _. split; [exact Hd'|]. simpl. do 5 (split; [done|]).
      split; [exists sw|intros _; exists eq]; by repeat split.
    + injection H as <-.
      eexists _, _. split; [exact Hd6|]. simpl. do 5 (split; [done|]).
      split; [exists sw|intros _; exists eq]; by repeat split.
  - injection H as <-.
    eexists _, _. split; [exact Hd4|]. simpl. do 5 (split; [done|]).
    split; [exists sw; by repeat split|done].
Qed.

Lemma fast_stats_values p f s s' :
  fast_stats E p f s = (Ok tt, s') →
  ∃ d v, nsbm_of (adata s') = Some d
         ∧ nsbm_state d = None ∧ nsbm_cell_marginals d = None
         ∧ nsbm_group_marginals d = None ∧ nsbm_params d = None
         ∧ nsbm_stats d = Some v
         ∧ ∃ eq, f_equilibrate f = Some eq
                 ∧ records v "dS" "nattempts" "nmoves" eq.
Proof.
  unfold fast_stats, records. intros H.
  apply run_bind_inv in H as ([] & s1 & H1 & H). apply reset_nsbm_inv in H1.
  apply run_bind_inv in H as (eq & s2 & H2 & H).
  destruct (f_equilibrate f) as [eq'|]; [|done]. injection H2 as -> <-.
  apply run_bind_inv in H as (ls & s3 & H3 & H). apply level_stats_adata in H3.
  apply run_bind_inv in H as ([] & s4 & H4 & H).
  apply modify_nsbm_inv in H4 as (d0 & d4 & Hd0 & Hf & Hd4).
  rewrite H3, H1 in Hd0. injection Hd0 as <-. injection Hf as <-.
  destruct (collect_marginals p).
  - eapply write_mf_entropy_inv in H as (mf & Hd'); [|exact Hd4|done].
    eexists _, _. split; [exact Hd'|]. simpl. do 5 (split; [done|]).
    exists eq. by repeat split.
  - injection H as <-.
    eexists _, _. split; [exact Hd4|]. simpl. do 5 (split; [done|]).
    exists eq. by repeat split.
Qed.

End Statistics.

(** X16.  The statistics of a run that returns are the numbers the engine
    returned (lines 225-239 and 307-320, 580-586 and 654-657).
    [nested_model] stores under [sweep_dS], [sweep_nattempts] and
    [sweep_nmoves] the result of the sweep [multiflip] selects and, with
    [equilibrate], under the [equlibrate_*] keys the result of the
    equilibration without a callback; [fast_model] stores that result under
    [dS], [nattempts] and [nmoves].  The result of the collecting
    equilibration is not recorded. *)
Theorem statistics_recorded (E : Env) (p : Kwargs) (a : AnnData) (w : world E)
    (nested : bool) (r : option AnnData) :
  let o := if nested then nested_model E p a w else fast_model E p a w in
  result o = Ok r →
  ∃ d v, nsbm_of (output_adata o) = Some d ∧ nsbm_stats d = Some v
    ∧ if nested
      then (∃ w0 w1 sw,
              (if multiflip p
               then multiflip_mcmc_sweep E (sweep_iterations p) w0
               else mcmc_sweep E (sweep_iterations p) w0) = (Ok sw, w1)
              ∧ records v "sweep_dS" "sweep_nattempts" "sweep_nmoves" sw)
           ∧ (equilibrate p = true →
              ∃ w2 w3 eq,
                mcmc_equilibrate E (plain_equilibrate_args p) w2 = (Ok eq, w3)
                ∧ records v "equlibrate_dS" "equlibrate_nattempts"
                    "equlibrate_nmoves" eq)
      else ∃ w2 w3 eq,
             mcmc_equilibrate E (plain_equilibrate_args p) w2 = (Ok eq, w3)
             ∧ records v "dS" "nattempts" "nmoves" eq.
Proof.
  intros o Hok. unfold o in *.
  apply driver_ok_inv
    in Hok as (f & raw & s0 & s' & _ & _ & _ & (sa & sb & Hsample) & _
               & Hpub & ->).
  destruct nested.
  - destruct (publish_nsbm (nested_stats E p f) (nested_params p)
                (λ v, (∃ sw, f_sweep f = Some sw
                             ∧ records v "sweep_dS" "sweep_nattempts"
                                 "sweep_nmoves" sw)
                      ∧ (equilibrate p = true →
                         ∃ eq, f_equilibrate f = Some eq
                               ∧ records v "equlibrate_dS"
                                   "equlibrate_nattempts" "equlibrate_nmoves"
                                   eq))
                p f _ _ _ (nested_stats_values p f) Hpub)
      as (d & v & Hd & _ & _ & Hv & [(sw & Hsw & Hrec) Heq] & _).
    apply nested_sample_results in Hsample
      as [(w0 & w1 & sw' & Hcall & Hsw') Hequil].
    exists d, v. split; [done|]. split; [done|]. split.
    + exists w0, w1, sw'. split; [done|]. congruence.
    + intros He. destruct (Heq He) as (eq & Hfe & Hr).
      destruct (Hequil He) as (w2 & w3 & eq' & Hcall' & Hfe').
      exists w2, w3, eq'. split; [done|]. congruence.
  - destruct (publish_nsbm (fast_stats E p f) (fast_params p)
                (λ v, ∃ eq, f_equilibrate f = Some eq
                            ∧ records v "dS" "nattempts" "nmoves" eq)
                p f _ _ _ (fast_stats_values p f) Hpub)
      as (d & v & Hd & _ & _ & Hv & (eq & Hfe & Hr) & _).
    apply fast_sample_results in Hsample as (w2 & w3 & eq' & Hcall & Hfe').
    exists d, v. split; [done|]. split; [done|].
    exists w2, w3, eq'. split; [done|]. congruence.
Qed.

(** A complete run of the stand-in engine, whose equilibration reports no
    move. *)
Lemma statistics_recorded_witness :
  ∃ d v, nsbm_of (output_adata (fast_model stub_env default_params two_cells
                                  (stub_world0 0))) = Some d
         ∧ nsbm_stats d = Some v
         ∧ ∃ eq, records v "dS" "nattempts" "nmoves" eq.
Proof.
  destruct (statistics_recorded stub_env default_params two_cells
              (stub_world0 0) false None)
    as (d & v & Hd & Hv & w2 & w3 & eq & _ & Hrec).
  { vm_compute. reflexivity. }
  exists d, v. split; [exact Hd|]. split; [exact Hv|]. exists eq. exact Hrec.
Defined.
